(** * Lunar Lander: fixed-timestep driver, input mapper and start-up code

    A shallow embedding of [main.cpp].

    - The C++ [float] is IEEE binary32.  It is modelled with the executable
      operations of [SpecFloat] at precision 24 and maximal exponent 128, so
      that every comparison, addition and subtraction of the accumulator
      rounds as the compiled program does.
    - The globals of [main.cpp] are one record, [Globals], passed through
      [process_input], [update] and [game_loop].
    - The [while] loop of [game_loop] runs on fuel: in binary32 a very large
      accumulated time is not changed by subtracting FIXED_TIMESTEP, and the
      C++ loop then does not end.  [game_loop_returns] shows that below
      [2^18] seconds enough fuel always gives a result.  The functions also
      return the number of physics steps they ran, which the program itself
      does not store.
    - [Entity.h] and [Entity.cpp] are not part of the sources.  What
      [main.cpp] needs from them is either a parameter of the section [Game]
      (the default constructor, the kinematics, the components that
      [move_left] and [move_right] write) or modelled from the prose
      specification (the collision loop, what [move_left] and [move_right]
      touch); each such definition says so.
    - SDL, OpenGL, stb_image and the random engine are the host: events,
      keys and ticks are inputs, texture loading and logging are recorded in
      a trace, and a failed [assert] ends the process. *)

From Stdlib Require Import ZArith List Bool String Lia.
From Stdlib Require Import SpecFloat.
Import ListNotations.

Set Implicit Arguments.

(** ** binary32 arithmetic *)

(** The C++ type [float]. *)
Definition float : Type := spec_float.

Module F32.

Definition prec : Z := 24.
Definition emax : Z := 128.

Definition add : float -> float -> float := SFadd prec emax.
Definition sub : float -> float -> float := SFsub prec emax.
Definition mul : float -> float -> float := SFmul prec emax.
Definition div : float -> float -> float := SFdiv prec emax.
Definition sqrt : float -> float := SFsqrt prec emax.
Definition opp : float -> float := SFopp.

(** [x < y], [x <= y], [x > y], [x >= y] and [x == y] of C++; all of them
    are false as soon as one side is a NaN. *)
Definition ltb (x y : float) : bool := SFltb x y.
Definition leb (x y : float) : bool := SFleb x y.
Definition gtb (x y : float) : bool := SFltb y x.
Definition geb (x y : float) : bool := SFleb y x.
Definition eqb (x y : float) : bool := SFeqb x y.

(** Conversion of an integer ([int], [Uint32]) to [float]. *)
Definition of_int (n : Z) : float := binary_normalize prec emax n 0 false.

(** A decimal literal [n / d] with [n] and [d] below [2^24]: both are
    exact in binary32, hence their correctly rounded quotient is the
    correctly rounded literal. *)
Definition literal (n d : Z) : float := div (of_int n) (of_int d).

Definition zero : float := S754_zero false.
Definition one : float := Eval vm_compute in of_int 1.

Definition valid (x : float) : bool := valid_binary prec emax x.

Definition is_nan (x : float) : bool :=
  match x with S754_nan => true | _ => false end.

(** The exact value of a finite number, in units of [2^-149] (the
    smallest positive binary32 number); [None] for infinities and NaN. *)
Definition exact_units (x : float) : option Z :=
  match x with
  | S754_zero _ => Some 0%Z
  | S754_finite s m e => Some (cond_Zopp s (Zpos m * 2 ^ (e + 149)))%Z
  | _ => None
  end.

End F32.

(** [fexp] at binary32: the exponent a number with [d + e] significant
    binary digits is stored with. *)
Definition fexp32 (e : Z) : Z := fexp F32.prec F32.emax e.

(** A binary32 number that carries the sign [s]: not a NaN, and a bounded,
    canonical mantissa when it is finite. *)
Definition signed_valid (s : bool) (x : float) : Prop :=
  match x with
  | S754_zero s' | S754_infinity s' => s' = s
  | S754_nan => False
  | S754_finite s' m e => s' = s /\ bounded F32.prec F32.emax m e = true
  end.

(** [0 <= x] for a binary32 number [x]: the C++ comparison [0.0f <= x] on a
    well-formed [x]. *)
Definition nonneg (x : float) : bool := F32.leb F32.zero x && F32.valid x.

(** The exact sum of a list of finite numbers, in units of [2^-149]. *)
Fixpoint exact_total (l : list float) : option Z :=
  match l with
  | [] => Some 0%Z
  | x :: rest =>
      match F32.exact_units x, exact_total rest with
      | Some a, Some b => Some (a + b)%Z
      | _, _ => None
      end
  end.

(** ** Constants of [main.cpp] *)

Definition FIXED_TIMESTEP : float := Eval vm_compute in F32.literal 166666 10000000.
Definition ACC_OF_GRAVITY : float := Eval vm_compute in F32.opp (F32.literal 162 100).
Definition PLATFORM_COUNT : nat := 9.
Definition MILLISECONDS_IN_SECOND : float := Eval vm_compute in F32.of_int 1000.

(** [2^18] seconds, about three days: below it one unit in the last place
    of the accumulated time is smaller than FIXED_TIMESTEP. *)
Definition LONGEST_FRAME : float := Eval vm_compute in F32.of_int 262144.

Definition SPRITESHEET_FILEPATH : string := "assets/ship.png".
Definition DEATH_PLATFORM_FILEPATH : string := "assets/rock.png".
Definition WIN_PLATFORM_FILEPATH : string := "assets/stone.png".
Definition FONT_SPRITE_FILEPATH : string := "assets/font1.png".

(** ** [glm::vec3] *)

Record vec3 : Type := Vec3 { vx : float; vy : float; vz : float }.

Module glm.

(** [glm::vec3(s)] *)
Definition splat (s : float) : vec3 := Vec3 s s s.

Definition dot (a b : vec3) : float :=
  F32.add (F32.add (F32.mul (vx a) (vx b)) (F32.mul (vy a) (vy b)))
          (F32.mul (vz a) (vz b)).

Definition length (v : vec3) : float := F32.sqrt (dot v v).

Definition scale (v : vec3) (s : float) : vec3 :=
  Vec3 (F32.mul (vx v) s) (F32.mul (vy v) s) (F32.mul (vz v) s).

Definition inversesqrt (x : float) : float := F32.div F32.one (F32.sqrt x).

Definition normalize (v : vec3) : vec3 := scale v (inversesqrt (dot v v)).

End glm.

Definition vec3_zero : vec3 := glm.splat F32.zero.

(** ** Entities *)

Inductive EntityType : Type := PLAYER | WIN_PLATFORM | DEATH_PLATFORM.

Inductive BoosterLevel : Type := IDLE | LOW | HIGH.

Definition GLuint : Type := Z.

(** The fields of [Entity] that [main.cpp] reads or writes.  [m_booster]
    holds the three heap cells allocated by [initialise]; the pointer
    [m_animation_indices] always aliases one of them and is kept as the
    index of that cell ([None] for a pointer that has not been set). *)
Record Entity : Type := Build_Entity {
  m_position : vec3;
  m_movement : vec3;
  m_acceleration : vec3;
  m_speed : float;
  m_width : float;
  m_height : float;
  m_entity_type : EntityType;
  m_texture_id : GLuint;
  m_booster : BoosterLevel -> option Z;
  m_animation_indices : option BoosterLevel;
  m_animation_index : Z;
  m_animation_time : float;
  m_animation_cols : Z;
  m_animation_rows : Z;
  m_boosting_power : float;
  m_drag : float;
  m_booster_active : bool
}.

Definition set_position (e : Entity) (v : vec3) : Entity :=
  Build_Entity v (m_movement e) (m_acceleration e) (m_speed e) (m_width e)
    (m_height e) (m_entity_type e) (m_texture_id e) (m_booster e)
    (m_animation_indices e) (m_animation_index e) (m_animation_time e)
    (m_animation_cols e) (m_animation_rows e) (m_boosting_power e) (m_drag e)
    (m_booster_active e).

Definition set_movement (e : Entity) (v : vec3) : Entity :=
  Build_Entity (m_position e) v (m_acceleration e) (m_speed e) (m_width e)
    (m_height e) (m_entity_type e) (m_texture_id e) (m_booster e)
    (m_animation_indices e) (m_animation_index e) (m_animation_time e)
    (m_animation_cols e) (m_animation_rows e) (m_boosting_power e) (m_drag e)
    (m_booster_active e).

Definition set_acceleration (e : Entity) (v : vec3) : Entity :=
  Build_Entity (m_position e) (m_movement e) v (m_speed e) (m_width e)
    (m_height e) (m_entity_type e) (m_texture_id e) (m_booster e)
    (m_animation_indices e) (m_animation_index e) (m_animation_time e)
    (m_animation_cols e) (m_animation_rows e) (m_boosting_power e) (m_drag e)
    (m_booster_active e).

Definition set_speed (e : Entity) (s : float) : Entity :=
  Build_Entity (m_position e) (m_movement e) (m_acceleration e) s (m_width e)
    (m_height e) (m_entity_type e) (m_texture_id e) (m_booster e)
    (m_animation_indices e) (m_animation_index e) (m_animation_time e)
    (m_animation_cols e) (m_animation_rows e) (m_boosting_power e) (m_drag e)
    (m_booster_active e).

Definition set_width (e : Entity) (w : float) : Entity :=
  Build_Entity (m_position e) (m_movement e) (m_acceleration e) (m_speed e) w
    (m_height e) (m_entity_type e) (m_texture_id e) (m_booster e)
    (m_animation_indices e) (m_animation_index e) (m_animation_time e)
    (m_animation_cols e) (m_animation_rows e) (m_boosting_power e) (m_drag e)
    (m_booster_active e).

Definition set_height (e : Entity) (h : float) : Entity :=
  Build_Entity (m_position e) (m_movement e) (m_acceleration e) (m_speed e)
    (m_width e) h (m_entity_type e) (m_texture_id e) (m_booster e)
    (m_animation_indices e) (m_animation_index e) (m_animation_time e)
    (m_animation_cols e) (m_animation_rows e) (m_boosting_power e) (m_drag e)
    (m_booster_active e).

Definition set_entity_type (e : Entity) (t : EntityType) : Entity :=
  Build_Entity (m_position e) (m_movement e) (m_acceleration e) (m_speed e)
    (m_width e) (m_height e) t (m_texture_id e) (m_booster e)
    (m_animation_indices e) (m_animation_index e) (m_animation_time e)
    (m_animation_cols e) (m_animation_rows e) (m_boosting_power e) (m_drag e)
    (m_booster_active e).

Definition set_texture_id (e : Entity) (t : GLuint) : Entity :=
  Build_Entity (m_position e) (m_movement e) (m_acceleration e) (m_speed e)
    (m_width e) (m_height e) (m_entity_type e) t (m_booster e)
    (m_animation_indices e) (m_animation_index e) (m_animation_time e)
    (m_animation_cols e) (m_animation_rows e) (m_boosting_power e) (m_drag e)
    (m_booster_active e).

Definition set_booster (e : Entity) (k : BoosterLevel) (cell : Z) : Entity :=
  Build_Entity (m_position e) (m_movement e) (m_acceleration e) (m_speed e)
    (m_width e) (m_height e) (m_entity_type e) (m_texture_id e)
    (fun k' =>
       match k, k' with
       | IDLE, IDLE | LOW, LOW | HIGH, HIGH => Some cell
       | _, _ => m_booster e k'
       end)
    (m_animation_indices e) (m_animation_index e) (m_animation_time e)
    (m_animation_cols e) (m_animation_rows e) (m_boosting_power e) (m_drag e)
    (m_booster_active e).

Definition set_animation (e : Entity) (indices : option BoosterLevel)
    (index : Z) (time : float) (cols rows : Z) : Entity :=
  Build_Entity (m_position e) (m_movement e) (m_acceleration e) (m_speed e)
    (m_width e) (m_height e) (m_entity_type e) (m_texture_id e) (m_booster e)
    indices index time cols rows (m_boosting_power e) (m_drag e)
    (m_booster_active e).

Definition set_boosting_power (e : Entity) (p : float) : Entity :=
  Build_Entity (m_position e) (m_movement e) (m_acceleration e) (m_speed e)
    (m_width e) (m_height e) (m_entity_type e) (m_texture_id e) (m_booster e)
    (m_animation_indices e) (m_animation_index e) (m_animation_time e)
    (m_animation_cols e) (m_animation_rows e) p (m_drag e)
    (m_booster_active e).

Definition set_drag (e : Entity) (d : float) : Entity :=
  Build_Entity (m_position e) (m_movement e) (m_acceleration e) (m_speed e)
    (m_width e) (m_height e) (m_entity_type e) (m_texture_id e) (m_booster e)
    (m_animation_indices e) (m_animation_index e) (m_animation_time e)
    (m_animation_cols e) (m_animation_rows e) (m_boosting_power e) d
    (m_booster_active e).

Definition set_booster_active (e : Entity) (b : bool) : Entity :=
  Build_Entity (m_position e) (m_movement e) (m_acceleration e) (m_speed e)
    (m_width e) (m_height e) (m_entity_type e) (m_texture_id e) (m_booster e)
    (m_animation_indices e) (m_animation_index e) (m_animation_time e)
    (m_animation_cols e) (m_animation_rows e) (m_boosting_power e) (m_drag e)
    b.

(** ** The session: [GameState] and the globals of [main.cpp] *)

Record GameState : Type := Build_GameState {
  player : Entity;
  platforms : list Entity
}.

Record Globals : Type := Build_Globals {
  g_game_state : GameState;
  g_game_is_running : bool;
  g_win : bool;
  g_loss : bool;
  g_previous_ticks : float;
  g_time_accumulator : float;
  g_text_texture_id : GLuint
}.

Definition set_player (g : Globals) (p : Entity) : Globals :=
  Build_Globals (Build_GameState p (platforms (g_game_state g)))
    (g_game_is_running g) (g_win g) (g_loss g) (g_previous_ticks g)
    (g_time_accumulator g) (g_text_texture_id g).

Definition set_platforms (g : Globals) (ps : list Entity) : Globals :=
  Build_Globals (Build_GameState (player (g_game_state g)) ps)
    (g_game_is_running g) (g_win g) (g_loss g) (g_previous_ticks g)
    (g_time_accumulator g) (g_text_texture_id g).

Definition set_game_is_running (g : Globals) (b : bool) : Globals :=
  Build_Globals (g_game_state g) b (g_win g) (g_loss g) (g_previous_ticks g)
    (g_time_accumulator g) (g_text_texture_id g).

Definition set_flags (g : Globals) (win loss : bool) : Globals :=
  Build_Globals (g_game_state g) (g_game_is_running g) win loss
    (g_previous_ticks g) (g_time_accumulator g) (g_text_texture_id g).

Definition set_previous_ticks (g : Globals) (t : float) : Globals :=
  Build_Globals (g_game_state g) (g_game_is_running g) (g_win g) (g_loss g) t
    (g_time_accumulator g) (g_text_texture_id g).

Definition set_time_accumulator (g : Globals) (t : float) : Globals :=
  Build_Globals (g_game_state g) (g_game_is_running g) (g_win g) (g_loss g)
    (g_previous_ticks g) t (g_text_texture_id g).

Definition set_text_texture_id (g : Globals) (t : GLuint) : Globals :=
  Build_Globals (g_game_state g) (g_game_is_running g) (g_win g) (g_loss g)
    (g_previous_ticks g) (g_time_accumulator g) t.

(** ** The host: SDL events and keyboard, stb_image, OpenGL, standard output *)

Record SDL_Event : Type := Build_SDL_Event {
  event_type : Z;       (* [event.type] *)
  event_key_sym : Z     (* [event.key.keysym.sym] *)
}.

(** Values of the SDL2 headers. *)
Definition SDL_QUIT : Z := 256.
Definition SDL_WINDOWEVENT_CLOSE : Z := 14.
Definition SDL_KEYDOWN : Z := 768.
Definition SDLK_q : Z := 113.

Inductive SDL_Scancode : Type :=
| SDL_SCANCODE_UP | SDL_SCANCODE_W
| SDL_SCANCODE_LEFT | SDL_SCANCODE_A
| SDL_SCANCODE_RIGHT | SDL_SCANCODE_D.

(** The snapshot returned by [SDL_GetKeyboardState]: [true] for a non-zero
    byte. *)
Definition KeyState : Type := SDL_Scancode -> bool.

Record Image : Type := Build_Image {
  image_width : Z;
  image_height : Z;
  image_data : list Z
}.

(** What the process did to the outside world, oldest first. *)
Inductive Effect : Type :=
| eff_stbi_load (filepath : string)
| eff_LOG (message : string)
| eff_glTexImage2D (texture : GLuint) (image : Image)
| eff_stbi_image_free (filepath : string).

Record Host (RNG : Type) : Type := Build_Host {
  trace : list Effect;
  textures : list (GLuint * Image);
  rng : RNG
}.

(** A call either returns to its caller or the process is aborted by a
    failed [assert]. *)
Inductive outcome (RNG A : Type) : Type :=
| Returns (a : A) (h : Host RNG)
| Aborts (h : Host RNG).

Arguments Aborts {RNG A} h.

Definition bind {RNG A B : Type} (c : Host RNG -> outcome RNG A)
    (k : A -> Host RNG -> outcome RNG B) (h : Host RNG) : outcome RNG B :=
  match c h with
  | Returns a h' => k a h'
  | Aborts h' => Aborts h'
  end.

Definition ret {RNG A : Type} (a : A) (h : Host RNG) : outcome RNG A :=
  Returns a h.

Notation "x <- c ;; k" := (bind c (fun x => k))
  (at level 61, c at next level, right associativity).

(** The inputs one iteration of the loop of [main] reads from the host. *)
Record FrameInput : Type := Build_FrameInput {
  frame_events : list SDL_Event;   (* pending events, in queue order *)
  frame_keys : KeyState;           (* [SDL_GetKeyboardState] *)
  frame_ticks : Z                  (* [SDL_GetTicks()], milliseconds *)
}.

(** ** Sample host data, used to run the model on concrete inputs *)

Module Sample.

Definition blank_entity : Entity :=
  Build_Entity vec3_zero vec3_zero vec3_zero F32.zero F32.one F32.one PLAYER
    0%Z (fun _ => None) None 0%Z F32.zero 0%Z 0%Z F32.zero F32.zero false.

(** A free fall along [y]: the position moves by [acceleration * dt]. *)
Definition fall (dt : float) (e : Entity) : Entity :=
  set_position e
    (Vec3 (vx (m_position e))
          (F32.add (vy (m_position e)) (F32.mul (vy (m_acceleration e)) dt))
          (vz (m_position e))).

Definition every_file (filepath : string) : option Image :=
  Some (Build_Image 1 1 [255; 255; 255; 255]%Z).

Definition no_file (filepath : string) : option Image := None.

(** A small congruential engine over the states [0 .. 63]; a draw from
    [lo .. hi] reads the three high bits of the state. *)
Definition congruential (lo hi : Z) (s : Z) : Z * Z :=
  ((lo + (s / 8) mod (hi - lo + 1))%Z, ((5 * s + 3) mod 64)%Z).

Definition host : Host Z := Build_Host [] [] 9%Z.

Definition no_keys : KeyState := fun _ => false.

(** Sample values for what [move_left] and [move_right] write: [-1.0f] and
    [1.0f]. *)
Definition left_component : float := F32.opp F32.one.
Definition right_component : float := F32.one.

Definition keys (held : list SDL_Scancode) : KeyState :=
  fun k =>
    existsb (fun k' =>
      match k, k' with
      | SDL_SCANCODE_UP, SDL_SCANCODE_UP | SDL_SCANCODE_W, SDL_SCANCODE_W
      | SDL_SCANCODE_LEFT, SDL_SCANCODE_LEFT | SDL_SCANCODE_A, SDL_SCANCODE_A
      | SDL_SCANCODE_RIGHT, SDL_SCANCODE_RIGHT | SDL_SCANCODE_D, SDL_SCANCODE_D => true
      | _, _ => false
      end) held.

(** A lander at rest at height 3 under gravity, as [initialise] places
    it. *)
Definition lander : Entity :=
  set_acceleration
    (set_position blank_entity (Vec3 F32.zero (F32.of_int 3) F32.zero))
    (Vec3 F32.zero ACC_OF_GRAVITY F32.zero).

Definition globals : Globals :=
  Build_Globals (Build_GameState lander []) true false false F32.zero
    F32.zero 0%Z.

(** A unit box at the origin of the given type. *)
Definition slab (t : EntityType) : Entity := set_entity_type blank_entity t.

Definition with_accumulator (a : float) : Globals :=
  set_time_accumulator globals a.

(** A session that has been won. *)
Definition landed : Globals := set_flags globals true false.

(** The player inside a DEATH_PLATFORM at index 0 and a WIN_PLATFORM at
    index 1. *)
Definition wedged : Globals :=
  set_platforms (set_player globals blank_entity)
    [slab DEATH_PLATFORM; slab WIN_PLATFORM].

(** Frame deltas of 16.7 ms, 14.6 ms and 2.1 ms whose exact sum is twice
    FIXED_TIMESTEP. *)
Definition uneven_frames : list float :=
  [S754_finite false 8947812 (-29); S754_finite false 15658810 (-30);
   S754_finite false 8947272 (-32)].

Definition even_frames : list float := [FIXED_TIMESTEP; FIXED_TIMESTEP].

(** Two frames of half a FIXED_TIMESTEP and one of FIXED_TIMESTEP: the same
    total as [even_frames], and no sum rounds. *)
Definition halved_frames : list float :=
  [S754_finite false 8947813 (-30); S754_finite false 8947813 (-30);
   FIXED_TIMESTEP].

End Sample.

(** ** Collision of the player with the platforms *)

Definition two : float := Eval vm_compute in F32.of_int 2.

(** Modelled from the spec: the four sides of the bounding box of an entity,
    "position +- half width/height" ([Entity.cpp] is not among the
    sources). *)
Definition box_left (e : Entity) : float :=
  F32.sub (vx (m_position e)) (F32.div (m_width e) two).
Definition box_right (e : Entity) : float :=
  F32.add (vx (m_position e)) (F32.div (m_width e) two).
Definition box_bottom (e : Entity) : float :=
  F32.sub (vy (m_position e)) (F32.div (m_height e) two).
Definition box_top (e : Entity) : float :=
  F32.add (vy (m_position e)) (F32.div (m_height e) two).

(** Modelled from the spec: the overlap test of [Entity.cpp], which is not
    among the sources.  The spec: "Axis-aligned bounding-box overlap test
    using each entity's position +- half width/height."  Boxes that only
    touch are taken not to overlap; no statement below depends on that. *)
Definition check_collision (a b : Entity) : bool :=
  F32.ltb (box_left a) (box_right b) && F32.ltb (box_left b) (box_right a)
  && F32.ltb (box_bottom a) (box_top b) && F32.ltb (box_bottom b) (box_top a).

(** Modelled from the spec: the collision loop of [Entity::update]
    ([Entity.cpp] is not among the sources).  The spec: "On overlap with a
    WIN_PLATFORM: set won = true.  On overlap with a DEATH_PLATFORM: set
    loss = true.  [...] platforms are tested in array order; the first
    overlapping platform encountered determines the outcome - if a later
    platform of the opposite type also overlaps in the same step, its result
    is NOT applied". *)
Fixpoint resolve_collisions (e : Entity) (collidable : list Entity)
    (won loss : bool) : bool * bool :=
  match collidable with
  | [] => (won, loss)
  | p :: rest =>
      if check_collision e p then
        match m_entity_type p with
        | WIN_PLATFORM => (true, loss)
        | DEATH_PLATFORM => (won, true)
        | PLAYER => (won, loss)
        end
      else resolve_collisions e rest won loss
  end.

Fixpoint replace_nth {A : Type} (i : nat) (x : A) (l : list A) : list A :=
  match l, i with
  | [], _ => []
  | _ :: t, O => x :: t
  | y :: t, S i' => y :: replace_nth i' x t
  end.

(** ** The program *)

Section Game.

(** What [main.cpp] takes from files that are not among the sources or
    from libraries: the state left by the constructor [Entity::Entity()],
    the kinematics and animation part of [Entity::update] (the spec gives
    it in prose: velocity, thrust, drag, position, animation frame), the
    values that [Entity::move_left] and [Entity::move_right] give to the
    lateral component of the movement (neither [main.cpp] nor the spec
    says which), the decoder [stbi_load] over the files of the machine,
    and the random number engine with [std::uniform_int_distribution]. *)
Variable Entity_default : Entity.
Variable integrate : float -> Entity -> Entity.
Variable left_component : float.
Variable right_component : float.
Variable stbi_load : string -> option Image.
Variable RNG : Type.
Variable uniform_int_distribution : Z -> Z -> RNG -> Z * RNG.

(** Modelled from the spec: [Entity::update] of [Entity.cpp], which is not
    among the sources.  The spec: "advances kinematics and animation by
    exactly delta_time seconds, then resolves collisions.  Only entities
    of the PLAYER variant perform gravity/thrust integration and collision
    checks against platforms; platform-variant entities no-op".  [won] and
    [loss] are the two reference parameters; the new entity and the new
    values of the two references are returned. *)
Definition Entity_update (delta_time : float) (collidable : list Entity)
    (collidable_count : nat) (e : Entity) (won loss : bool)
    : Entity * bool * bool :=
  match m_entity_type e with
  | PLAYER =>
      let e' := integrate delta_time e in
      let '(won', loss') :=
        resolve_collisions e' (firstn collidable_count collidable) won loss in
      (e', won', loss')
  | _ => (e, won, loss)
  end.

(** *** [load_texture] *)

Definition LOG (message : string) (h : Host RNG) : Host RNG :=
  Build_Host (trace h ++ [eff_LOG message]) (textures h) (rng h).

Definition emit (f : Effect) (h : Host RNG) : Host RNG :=
  Build_Host (trace h ++ [f]) (textures h) (rng h).

(** [glGenTextures], [glBindTexture] and [glTexImage2D]: a texture name
    that is not in use receives the image. *)
Definition gl_new_texture (image : Image) (h : Host RNG) : GLuint * Host RNG :=
  let id := Z.of_nat (S (List.length (textures h))) in
  (id, Build_Host (trace h ++ [eff_glTexImage2D id image])
         (textures h ++ [(id, image)]) (rng h)).

Definition load_texture (filepath : string) (h : Host RNG) : outcome RNG GLuint :=
  let h := emit (eff_stbi_load filepath) h in
  match stbi_load filepath with
  | None =>
      let h := LOG "Unable to load image. Make sure the path is correct." h in
      (* assert(false) *)
      Aborts h
  | Some image =>
      let '(textureID, h) := gl_new_texture image h in
      let h := emit (eff_stbi_image_free filepath) h in
      Returns textureID h
  end.

(** *** [initialise] *)

Definition draw (lo hi : Z) (h : Host RNG) : outcome RNG Z :=
  let '(n, r) := uniform_int_distribution lo hi (rng h) in
  Returns n (Build_Host (trace h) (textures h) r).

(** The two numbers one iteration of the platform loop draws, and the
    engine after [k] iterations. *)
Definition platform_rolls (r : RNG) : Z * Z * RNG :=
  let '(r1, r') := uniform_int_distribution 0 1 r in
  let '(r2, r'') := uniform_int_distribution (-3) 1 r' in
  (r1, r2, r'').

Fixpoint rng_after (k : nat) (r : RNG) : RNG :=
  match k with
  | O => r
  | S k' => rng_after k' (snd (platform_rolls r))
  end.

(** The position and the type the platform loop gives the platform of
    index [i] when the engine is in state [r]. *)
Definition rolled_position (i : nat) (r : RNG) : vec3 :=
  let '(_, r2, _) := platform_rolls r in
  Vec3 (F32.sub (F32.of_int (Z.of_nat i)) (F32.of_int 4)) (F32.of_int r2) F32.zero.

Definition rolled_type (r : RNG) : EntityType :=
  let '(r1, _, _) := platform_rolls r in
  if (r1 =? 0)%Z then DEATH_PLATFORM else WIN_PLATFORM.

(** The globals as their initialisers leave them, with the two pointers of
    [g_game_state] already pointing at fresh objects. *)
Definition globals_at_start (p : Entity) (ps : list Entity) : Globals :=
  Build_Globals (Build_GameState p ps) true false false F32.zero F32.zero 0%Z.

(** One iteration of the platform loop, for index [i]. *)
Definition initialise_platform (i : nat) (g : Globals) (h : Host RNG)
    : outcome RNG Globals :=
  (r1 <- draw 0 1 ;;
   r2 <- draw (-3) 1 ;;
   let rand_bool := negb (r1 =? 0)%Z in
   let rand_float := F32.of_int r2 in
   let p := nth i (platforms (g_game_state g)) Entity_default in
   let p := set_position p
              (Vec3 (F32.sub (F32.of_int (Z.of_nat i)) (F32.of_int 4))
                    rand_float F32.zero) in
   let platformType := if rand_bool then WIN_PLATFORM else DEATH_PLATFORM in
   let p := set_entity_type p platformType in
   t <- load_texture
          (match platformType with
           | WIN_PLATFORM => WIN_PLATFORM_FILEPATH
           | _ => DEATH_PLATFORM_FILEPATH
           end) ;;
   let p := set_texture_id p t in
   let '(p, win, loss) := Entity_update F32.zero [] 0 p (g_win g) (g_loss g) in
   ret (set_flags
          (set_platforms g (replace_nth i p (platforms (g_game_state g))))
          win loss)) h.

(** [for (int i = ...; i < PLATFORM_COUNT; i++)] with [todo] iterations
    left. *)
Fixpoint initialise_platforms (todo i : nat) (g : Globals) (h : Host RNG)
    : outcome RNG Globals :=
  match todo with
  | O => Returns g h
  | S todo' =>
      (g' <- initialise_platform i g ;;
       initialise_platforms todo' (S i) g') h
  end.

Definition initialise (h : Host RNG) : outcome RNG Globals :=
  (let p := Entity_default in
   let p := set_position p (Vec3 F32.zero (F32.of_int 3) F32.zero) in
   let p := set_movement p (glm.splat F32.zero) in
   let p := set_acceleration p (Vec3 F32.zero ACC_OF_GRAVITY F32.zero) in
   let p := set_speed p (F32.of_int 2) in
   t <- load_texture SPRITESHEET_FILEPATH ;;
   let p := set_texture_id p t in
   let p := set_booster p IDLE 0 in
   let p := set_booster p LOW 1 in
   let p := set_booster p HIGH 2 in
   let p := set_animation p (Some IDLE) 0 F32.zero 3 1 in
   let p := set_height p (F32.literal 8 10) in
   let p := set_width p (F32.literal 8 10) in
   let p := set_boosting_power p (F32.literal 1 10) in
   let p := set_drag p (F32.literal 8 10) in
   let g := globals_at_start p (repeat Entity_default PLATFORM_COUNT) in
   g <- initialise_platforms PLATFORM_COUNT 0 g ;;
   t <- load_texture FONT_SPRITE_FILEPATH ;;
   ret (set_text_texture_id g t)) h.

(** *** [process_input] *)

Definition handle_event (g : Globals) (event : SDL_Event) : Globals :=
  if (event_type event =? SDL_QUIT)%Z
     || (event_type event =? SDL_WINDOWEVENT_CLOSE)%Z
  then set_game_is_running g false
  else if (event_type event =? SDL_KEYDOWN)%Z then
    if (event_key_sym event =? SDLK_q)%Z then set_game_is_running g false
    else g
  else g.

(** The two resets that open [process_input]. *)
Definition reset_intent (g : Globals) : Globals :=
  set_player g
    (set_booster_active
       (set_movement (player (g_game_state g)) (glm.splat F32.zero)) false).

(** Modelled from the spec: [Entity::move_left] and [Entity::move_right] of
    [Entity.h], which is not among the sources.  The spec: "left/right keys
    set lateral movement components".  The lateral component is [x]; the
    value written is not given and is the parameter [left_component]. *)
Definition move_left (e : Entity) : Entity :=
  set_movement e
    (Vec3 left_component (vy (m_movement e)) (vz (m_movement e))).

(** Modelled from the spec: see [move_left]; the value written is the
    parameter [right_component]. *)
Definition move_right (e : Entity) : Entity :=
  set_movement e
    (Vec3 right_component (vy (m_movement e)) (vz (m_movement e))).

(** The else-if chain over the keyboard snapshot. *)
Definition steer (key_state : KeyState) (g : Globals) : Globals :=
  let p := player (g_game_state g) in
  if key_state SDL_SCANCODE_UP || key_state SDL_SCANCODE_W then
    set_player g (set_booster_active p true)
  else if key_state SDL_SCANCODE_LEFT || key_state SDL_SCANCODE_A then
    set_player g (move_left p)
  else if key_state SDL_SCANCODE_RIGHT || key_state SDL_SCANCODE_D then
    set_player g (move_right p)
  else g.

(** The guard of the final [if]. *)
Definition moves_too_fast (g : Globals) : bool :=
  F32.gtb (glm.length (m_movement (player (g_game_state g)))) F32.one.

Definition normalize_movement (g : Globals) : Globals :=
  let p := player (g_game_state g) in
  set_player g (set_movement p (glm.normalize (m_movement p))).

(** What the final [if] makes of a movement vector [v]. *)
Definition at_most_unit (v : vec3) : vec3 :=
  if F32.gtb (glm.length v) F32.one then glm.normalize v else v.

Definition process_input (events : list SDL_Event) (key_state : KeyState)
    (g : Globals) : Globals :=
  let g := reset_intent g in
  let g := fold_left handle_event events g in
  let g := steer key_state g in
  if moves_too_fast g then normalize_movement g else g.

(** *** [game_loop] and [update] *)

(** One physics step: the call [g_game_state.player->update(...)]. *)
Definition physics_step (delta_time : float) (g : Globals) : Globals :=
  let '(p, win, loss) :=
    Entity_update delta_time (platforms (g_game_state g)) PLATFORM_COUNT
      (player (g_game_state g)) (g_win g) (g_loss g) in
  set_flags (set_player g p) win loss.

(** The [while] loop of [game_loop].  In binary32 the subtraction may
    leave a large [delta_time] unchanged, so the loop is run on [fuel];
    the first component of the result counts the physics steps. *)
Fixpoint game_loop_while (fuel : nat) (delta_time : float) (g : Globals)
    : option (nat * float * Globals) :=
  if F32.geb delta_time FIXED_TIMESTEP then
    match fuel with
    | O => None
    | S fuel' =>
        match game_loop_while fuel' (F32.sub delta_time FIXED_TIMESTEP)
                (physics_step FIXED_TIMESTEP g) with
        | Some (n, d, g') => Some (S n, d, g')
        | None => None
        end
    end
  else Some (O, delta_time, g).

Definition game_loop (fuel : nat) (delta_time : float) (g : Globals)
    : option (nat * Globals) :=
  let delta_time := F32.add delta_time (g_time_accumulator g) in
  if F32.ltb delta_time FIXED_TIMESTEP then
    Some (O, set_time_accumulator g delta_time)
  else
    match game_loop_while fuel delta_time g with
    | Some (n, d, g') => Some (n, set_time_accumulator g' d)
    | None => None
    end.

Definition update (fuel : nat) (SDL_GetTicks : Z) (g : Globals)
    : option (nat * Globals) :=
  let ticks := F32.div (F32.of_int SDL_GetTicks) MILLISECONDS_IN_SECOND in
  let delta_time := F32.sub ticks (g_previous_ticks g) in
  let g := set_previous_ticks g ticks in
  if negb (g_win g) && negb (g_loss g) then game_loop fuel delta_time g
  else Some (O, g).

(** *** The loop of [main] *)

(** One iteration: [process_input(); update(); render();].  [render] only
    draws; it leaves the globals alone. *)
Definition frame (fuel : nat) (i : FrameInput) (g : Globals)
    : option (nat * Globals) :=
  update fuel (frame_ticks i)
    (process_input (frame_events i) (frame_keys i) g).

(** [while (g_game_is_running)], one input record per iteration; the
    physics steps of all iterations are added up. *)
Fixpoint main_loop (fuel : nat) (inputs : list FrameInput) (g : Globals)
    : option (nat * Globals) :=
  match inputs with
  | [] => Some (O, g)
  | i :: rest =>
      if g_game_is_running g then
        match frame fuel i g with
        | Some (n, g') =>
            match main_loop fuel rest g' with
            | Some (m, g'') => Some (n + m, g'')
            | None => None
            end
        | None => None
        end
      else Some (O, g)
  end.

(** [game_loop] called once per frame delta, with nothing in between: the
    time-driven part of a run under identical per-step inputs. *)
Fixpoint game_loops (fuel : nat) (deltas : list float) (g : Globals)
    : option (nat * Globals) :=
  match deltas with
  | [] => Some (O, g)
  | d :: rest =>
      match game_loop fuel d g with
      | Some (n, g') =>
          match game_loops fuel rest g' with
          | Some (m, g'') => Some (n + m, g'')
          | None => None
          end
      | None => None
      end
  end.

(** *** Runs without rounding

    The additions and subtractions of [game_loop] round to binary32.  The
    predicates below say of a run that none of them did: the exact value
    of every sum and difference the run computes is the sum or difference
    of the exact values. *)

Definition exact_add (x y : float) : bool :=
  match F32.exact_units x, F32.exact_units y, F32.exact_units (F32.add x y) with
  | Some a, Some b, Some c => (c =? a + b)%Z
  | _, _, _ => false
  end.

Definition exact_sub (x y : float) : bool :=
  match F32.exact_units x, F32.exact_units y, F32.exact_units (F32.sub x y) with
  | Some a, Some b, Some c => (c =? a - b)%Z
  | _, _, _ => false
  end.

(** Every [delta_time -= FIXED_TIMESTEP] of the [while] loop is exact. *)
Fixpoint game_loop_while_exact (fuel : nat) (delta_time : float) : bool :=
  if F32.geb delta_time FIXED_TIMESTEP then
    match fuel with
    | O => false
    | S fuel' =>
        exact_sub delta_time FIXED_TIMESTEP
        && game_loop_while_exact fuel' (F32.sub delta_time FIXED_TIMESTEP)
    end
  else true.

(** [delta_time += g_time_accumulator] and the loop are exact. *)
Definition game_loop_exact (fuel : nat) (delta_time : float) (g : Globals)
    : bool :=
  exact_add delta_time (g_time_accumulator g)
  && (let delta_time := F32.add delta_time (g_time_accumulator g) in
      F32.ltb delta_time FIXED_TIMESTEP
      || game_loop_while_exact fuel delta_time).

(** Every call of [game_loop] in the run of [game_loops] is exact. *)
Fixpoint game_loops_exact (fuel : nat) (deltas : list float) (g : Globals)
    : bool :=
  match deltas with
  | [] => true
  | d :: rest =>
      game_loop_exact fuel d g
      && match game_loop fuel d g with
         | Some (_, g') => game_loops_exact fuel rest g'
         | None => false
         end
  end.

End Game.

(** ** Text and rendering: [draw_text], [render], [shutdown], [main] *)

Definition FONTBANK_SIZE : Z := 16.

Definition INT_MAX : Z := 2147483647.

(** The conversion of an unsigned size to [int]: the low 32 bits, read as a
    two's complement number. *)
Definition to_int (z : Z) : Z := ((z + 2 ^ 31) mod 2 ^ 32 - 2 ^ 31)%Z.

Definition one_half : float := Eval vm_compute in F32.literal 1 2.

(** [(int)text[i]]: whether plain [char] is signed is left to the platform;
    the two agree on the characters below 128. *)
Definition spritesheet_index (char_is_signed : bool) (c : Ascii.ascii) : Z :=
  let n := Z.of_N (Ascii.N_of_ascii c) in
  if char_is_signed && (128 <=? n)%Z then (n - 256)%Z else n.

(** The twelve numbers [draw_text] appends to [vertices] for one character:
    two triangles over the square of side [screen_size] around
    [(offset, 0)]. *)
Definition glyph_vertices (screen_size offset : float) : list float :=
  let left := F32.add offset (F32.mul (F32.opp one_half) screen_size) in
  let right := F32.add offset (F32.mul one_half screen_size) in
  let top := F32.mul one_half screen_size in
  let bottom := F32.mul (F32.opp one_half) screen_size in
  [left; top; left; bottom; right; top; right; bottom; right; top; left; bottom].

Definition u_coordinate (index : Z) : float :=
  F32.div (F32.of_int (Z.rem index FONTBANK_SIZE)) (F32.of_int FONTBANK_SIZE).

Definition v_coordinate (index : Z) : float :=
  F32.div (F32.of_int (Z.quot index FONTBANK_SIZE)) (F32.of_int FONTBANK_SIZE).

(** [width] and [height] of [draw_text]: [1.0f / FONTBANK_SIZE]. *)
Definition glyph_width : float := F32.div F32.one (F32.of_int FONTBANK_SIZE).
Definition glyph_height : float := F32.div F32.one (F32.of_int FONTBANK_SIZE).

(** The twelve numbers appended to [texture_coordinates] for one character. *)
Definition glyph_texture_coordinates (index : Z) : list float :=
  let u := u_coordinate index in
  let v := v_coordinate index in
  let u' := F32.add u glyph_width in
  let v' := F32.add v glyph_height in
  [u; v; u; v'; u'; v; u'; v'; u'; v; u; v'].

(** [offset] of the character of index [i]. *)
Definition glyph_offset (screen_size spacing : float) (i : Z) : float :=
  F32.mul (F32.add screen_size spacing) (F32.of_int i).

(** The loop of [draw_text] from index [i] on: the two vectors it fills.
    The index is an [int] in the source; it stays within [int] for texts of
    at most INT_MAX characters, which is what the statements below are
    about. *)
Fixpoint text_buffers (char_is_signed : bool) (screen_size spacing : float)
    (i : Z) (text : list Ascii.ascii) : list float * list float :=
  match text with
  | [] => ([], [])
  | c :: rest =>
      let '(vertices, texture_coordinates) :=
        text_buffers char_is_signed screen_size spacing (i + 1) rest in
      (glyph_vertices screen_size (glyph_offset screen_size spacing i)
         ++ vertices,
       glyph_texture_coordinates (spritesheet_index char_is_signed c)
         ++ texture_coordinates)
  end.

(** [0 <= x <= 1]: a texture coordinate inside the texture. *)
Definition in_unit_interval (x : float) : bool :=
  F32.leb F32.zero x && F32.leb x F32.one.

(** What one frame asks of OpenGL and SDL.  [Entity::render] belongs to
    [Entity.cpp] and is kept as one opaque call on the entity.  The model
    matrix of a text is the translation by [position]. *)
Inductive DrawCall : Type :=
| call_glClear
| call_Entity_render (e : Entity)
| call_glDrawArrays (texture : GLuint) (position : vec3)
    (vertices texture_coordinates : list float) (count : Z)
| call_SDL_GL_SwapWindow.

Definition draw_text (char_is_signed : bool) (font_texture_id : GLuint)
    (text : string) (screen_size spacing : float) (position : vec3) : DrawCall :=
  let chars := list_ascii_of_string text in
  let '(vertices, texture_coordinates) :=
    text_buffers char_is_signed screen_size spacing 0 chars in
  call_glDrawArrays font_texture_id position vertices texture_coordinates
    (to_int (Z.of_nat (List.length chars) * 6)).

Definition win_text (char_is_signed : bool) (g : Globals) : DrawCall :=
  draw_text char_is_signed (g_text_texture_id g) "YOU LANDED SAFELY!"
    (F32.literal 1 4) F32.zero
    (Vec3 (F32.opp (F32.literal 7 4)) (F32.of_int 2) F32.zero).

Definition loss_text (char_is_signed : bool) (g : Globals) : DrawCall :=
  draw_text char_is_signed (g_text_texture_id g) "YOU CRASHED!"
    (F32.literal 1 4) (F32.literal 1 100)
    (Vec3 (F32.opp (F32.literal 5 4)) (F32.of_int 2) F32.zero).

(** [render]: the array [platforms] has PLATFORM_COUNT entries. *)
Definition render (char_is_signed : bool) (g : Globals) : list DrawCall :=
  [call_glClear; call_Entity_render (player (g_game_state g))]
  ++ map call_Entity_render (firstn PLATFORM_COUNT (platforms (g_game_state g)))
  ++ (if g_win g then [win_text char_is_signed g] else [])
  ++ (if g_loss g then [loss_text char_is_signed g] else [])
  ++ [call_SDL_GL_SwapWindow].

(** An event that makes [process_input] clear [g_game_is_running]. *)
Definition is_quit_event (event : SDL_Event) : bool :=
  (event_type event =? SDL_QUIT)%Z
  || (event_type event =? SDL_WINDOWEVENT_CLOSE)%Z
  || ((event_type event =? SDL_KEYDOWN)%Z && (event_key_sym event =? SDLK_q)%Z).

(** The message [load_texture] logs. *)
Definition LOAD_FAILED : string :=
  "Unable to load image. Make sure the path is correct.".

(** The player as the first part of [initialise] leaves it, given the
    texture [load_texture] returned for the sprite sheet. *)
Definition player_at_start (Entity_default : Entity) (t : GLuint) : Entity :=
  let p := Entity_default in
  let p := set_position p (Vec3 F32.zero (F32.of_int 3) F32.zero) in
  let p := set_movement p (glm.splat F32.zero) in
  let p := set_acceleration p (Vec3 F32.zero ACC_OF_GRAVITY F32.zero) in
  let p := set_speed p (F32.of_int 2) in
  let p := set_texture_id p t in
  let p := set_booster p IDLE 0 in
  let p := set_booster p LOW 1 in
  let p := set_booster p HIGH 2 in
  let p := set_animation p (Some IDLE) 0 F32.zero 3 1 in
  let p := set_height p (F32.literal 8 10) in
  let p := set_width p (F32.literal 8 10) in
  let p := set_boosting_power p (F32.literal 1 10) in
  set_drag p (F32.literal 8 10).

(** The file [initialise] loads for a platform of type [t]. *)
Definition platform_filepath (t : EntityType) : string :=
  match t with
  | WIN_PLATFORM => WIN_PLATFORM_FILEPATH
  | _ => DEATH_PLATFORM_FILEPATH
  end.

(** Whether a frame input carries a quit event, and the number of loop
    iterations up to and including the first such frame. *)
Definition has_quit_event (i : FrameInput) : bool :=
  existsb is_quit_event (frame_events i).

Fixpoint frames_until_quit (inputs : list FrameInput) : nat :=
  match inputs with
  | [] => O
  | i :: rest => if has_quit_event i then 1%nat else S (frames_until_quit rest)
  end.

Definition is_text_call (c : DrawCall) : bool :=
  match c with
  | call_glDrawArrays _ _ _ _ _ => true
  | _ => false
  end.

(** How a run of [main] over finitely many frame inputs stands at its end. *)
Inductive Run (RNG : Type) : Type :=
| run_returned (status : Z) (frames : list (list DrawCall)) (g : Globals)
    (h : Host RNG)                      (* [shutdown(); return 0;] *)
| run_aborted (h : Host RNG)            (* a failed [assert] in [initialise] *)
| run_in_loop (frames : list (list DrawCall)) (g : Globals) (h : Host RNG)
                                        (* inputs used up, loop still running *)
| run_out_of_fuel (h : Host RNG).       (* a [game_loop] call did not end *)

Section Program.

Variable Entity_default : Entity.
Variable integrate : float -> Entity -> Entity.
Variable left_component : float.
Variable right_component : float.
Variable stbi_load : string -> option Image.
Variable RNG : Type.
Variable uniform_int_distribution : Z -> Z -> RNG -> Z * RNG.
Variable char_is_signed : bool.

(** The loop of [main] again, now with what each iteration draws. *)
Fixpoint play (fuel : nat) (inputs : list FrameInput) (g : Globals)
    : option (list (list DrawCall) * Globals) :=
  match inputs with
  | [] => Some ([], g)
  | i :: rest =>
      if g_game_is_running g then
        match frame integrate left_component right_component fuel i g with
        | Some (_, g') =>
            match play fuel rest g' with
            | Some (frames, g'') => Some (render char_is_signed g' :: frames, g'')
            | None => None
            end
        | None => None
        end
      else Some ([], g)
  end.

Definition main (fuel : nat) (inputs : list FrameInput) (h : Host RNG)
    : Run RNG :=
  match initialise Entity_default integrate stbi_load uniform_int_distribution h with
  | Aborts h' => run_aborted h'
  | Returns g h' =>
      match play fuel inputs g with
      | None => run_out_of_fuel h'
      | Some (frames, g') =>
          if g_game_is_running g' then run_in_loop frames g' h'
          else run_returned 0 frames g' h'
      end
  end.

End Program.

(** ** A sample session, used to run [main] on concrete inputs *)

Module Session.

(** A frame with no event pending and no key held, at [ticks] ms. *)
Definition idle (ticks : Z) : FrameInput :=
  Build_FrameInput [] Sample.no_keys ticks.

(** A frame in which the window has been asked to close. *)
Definition quit (ticks : Z) : FrameInput :=
  Build_FrameInput [Build_SDL_Event SDL_QUIT 0%Z] Sample.no_keys ticks.

Definition inputs : list FrameInput :=
  [idle 16%Z; idle 33%Z; quit 50%Z; idle 66%Z].

(** Every asset is there but the font. *)
Definition font_missing (filepath : string) : option Image :=
  if String.eqb filepath FONT_SPRITE_FILEPATH then None
  else Sample.every_file filepath.

End Session.

(** * Properties *)

Unset Implicit Arguments.
Local Open Scope Z_scope.

(** ** Rounding to binary32

    [SpecFloat] defines the operations but proves nothing about them.  This
    part shows what the driver needs: a sum of non-negative numbers and a
    difference [x - y] with [y <= x] are again non-negative binary32
    numbers, never NaN.  The proofs follow [binary_round_aux]: shift right
    to the exponent [fexp32] asks for, round the mantissa, shift once more
    if the rounding carried. *)

Lemma digits2_pos_size (p : positive) : digits2_pos p = Pos.size p.
Proof. induction p; simpl; congruence. Qed.

Lemma Zdigits2_log2 (m : Z) : 0 < m -> Zdigits2 m = Z.log2 m + 1.
Proof.
  destruct m as [|p|p]; try lia. intros _. simpl.
  rewrite digits2_pos_size. destruct p; simpl; lia.
Qed.

Lemma shr_1_div2 (r : shr_record) :
  0 <= shr_m r -> shr_m (shr_1 r) = shr_m r / 2.
Proof.
  destruct r as [m rb sb]. simpl. intros Hm.
  destruct m as [|p|p]; try lia; simpl.
  - reflexivity.
  - destruct p; simpl.
    + rewrite Pos2Z.inj_xI. apply Z.div_unique with (r := 1); lia.
    + rewrite Pos2Z.inj_xO. apply Z.div_unique with (r := 0); lia.
    + reflexivity.
Qed.

Lemma pow2_xI (p : positive) : 2 ^ Zpos p~1 = 2 * 2 ^ Zpos p * 2 ^ Zpos p.
Proof.
  rewrite <- Z.mul_assoc, <- Z.pow_add_r, <- Z.pow_succ_r by lia. f_equal. lia.
Qed.

Lemma pow2_xO (p : positive) : 2 ^ Zpos p~0 = 2 ^ Zpos p * 2 ^ Zpos p.
Proof.
  rewrite <- Z.pow_add_r by lia. f_equal. lia.
Qed.

Lemma pow2_pos (n : Z) : 0 <= n -> 0 < 2 ^ n.
Proof. intros. apply Z.pow_pos_nonneg; lia. Qed.

Lemma iter_pos_shr_1 (p : positive) : forall r : shr_record,
  0 <= shr_m r -> shr_m (iter_pos shr_1 p r) = shr_m r / 2 ^ Zpos p.
Proof.
  assert (Hnn : forall q r, 0 <= shr_m r -> 0 <= shr_m r / 2 ^ Zpos q).
  { intros q r Hr. apply Z.div_pos; [assumption | apply pow2_pos; lia]. }
  induction p as [p IH|p IH|]; intros r Hr; cbn [iter_pos].
  - assert (H1 : 0 <= shr_m (shr_1 r))
      by (rewrite shr_1_div2 by assumption; apply Z.div_pos; lia).
    rewrite IH by (rewrite IH by assumption; apply Hnn; assumption).
    rewrite IH by assumption. rewrite shr_1_div2 by assumption.
    rewrite pow2_xI. 
    pose proof (pow2_pos (Zpos p) ltac:(lia)) as Hp.
    rewrite Z.div_div by lia. rewrite Z.div_div by nia.
    f_equal. lia.
  - rewrite IH by (rewrite IH by assumption; apply Hnn; assumption).
    rewrite IH by assumption. rewrite pow2_xO.
    pose proof (pow2_pos (Zpos p) ltac:(lia)) as Hp.
    rewrite Z.div_div by lia. reflexivity.
  - rewrite shr_1_div2 by assumption. reflexivity.
Qed.


Lemma fexp32_eq (e : Z) : fexp32 e = Z.max (e - 24) (-149).
Proof. reflexivity. Qed.

Lemma shr_m_of_loc (m : Z) (l : location) : shr_m (shr_record_of_loc m l) = m.
Proof. destruct l as [|[ | | ]]; reflexivity. Qed.

Lemma log2_div_pow2 (m n : Z) :
  0 <= n -> 0 < m / 2 ^ n -> Z.log2 (m / 2 ^ n) = Z.log2 m - n.
Proof.
  intros Hn Hq.
  assert (Hm : 0 < m).
  { destruct (Z.lt_trichotomy m 0) as [H|[H|H]]; try assumption.
    - pose proof (pow2_pos n Hn). pose proof (Z.div_lt_upper_bound m (2 ^ n) 0). lia.
    - subst. rewrite Z.div_0_l in Hq; [lia|]. pose proof (pow2_pos n Hn); lia. }
  rewrite <- Z.shiftr_div_pow2 by assumption.
  rewrite Z.log2_shiftr by assumption.
  assert (2 ^ n <= m).
  { pose proof (pow2_pos n Hn).
    destruct (Z.le_gt_cases (2 ^ n) m); [assumption|].
    rewrite Z.div_small in Hq; lia. }
  apply Z.log2_le_pow2 in H; lia.
Qed.

Lemma shr_fexp_spec (m e : Z) (l : location) :
  0 < m -> e <= fexp32 (Zdigits2 m + e) ->
  forall r e', shr_fexp F32.prec F32.emax m e l = (r, e') ->
  e' = fexp32 (Zdigits2 m + e) /\ 0 <= shr_m r
  /\ (0 < shr_m r -> Zdigits2 (shr_m r) + e' = Zdigits2 m + e)
  /\ (shr_m r = 0 -> e' = -149).
Proof.
  intros Hm He r e'. unfold shr_fexp, shr. fold (fexp32 (Zdigits2 m + e)).
  set (D := Zdigits2 m + e) in *.
  destruct (fexp32 D - e) as [|p|p] eqn:En; try lia.
  - intros [= <- <-]. rewrite shr_m_of_loc. repeat split; try lia.
  - intros [= <- <-].
    rewrite iter_pos_shr_1 by (rewrite shr_m_of_loc; lia).
    rewrite shr_m_of_loc.
    pose proof (pow2_pos (Zpos p) ltac:(lia)) as Hp.
    split; [lia|]. split; [apply Z.div_pos; lia|]. split.
    + intros Hq. rewrite Zdigits2_log2 by assumption.
      rewrite log2_div_pow2 by lia. subst D. rewrite (Zdigits2_log2 m Hm). lia.
    + intros Hq. 
      assert (Hlt : m < 2 ^ Zpos p).
      { destruct (Z.lt_ge_cases m (2 ^ Zpos p)); [assumption|].
        assert (1 <= m / 2 ^ Z.pos p) by (apply Z.div_le_lower_bound; lia). lia. }
      apply Z.log2_lt_pow2 in Hlt; [|assumption].
      subst D. rewrite (Zdigits2_log2 m Hm) in *. rewrite fexp32_eq in *. lia.
Qed.

Lemma Zdigits2_mono (a b : Z) : 0 < a -> a <= b -> Zdigits2 a <= Zdigits2 b.
Proof.
  intros Ha Hab. rewrite !Zdigits2_log2 by lia.
  pose proof (Z.log2_le_mono a b Hab). lia.
Qed.

Lemma fexp32_mono (a b : Z) : a <= b -> fexp32 a <= fexp32 b.
Proof. rewrite !fexp32_eq. lia. Qed.

Lemma round_nearest_even_cases (m : Z) (l : location) :
  round_nearest_even m l = m \/ round_nearest_even m l = m + 1.
Proof.
  destruct l as [|[ | | ]]; simpl; auto. destruct (Z.even m); auto.
Qed.


Lemma binary_round_aux_valid (sx : bool) (mx ex : Z) (lx : location) :
  0 < mx -> ex <= fexp32 (Zdigits2 mx + ex) ->
  signed_valid sx (binary_round_aux F32.prec F32.emax sx mx ex lx).
Proof.
  intros Hm He. unfold binary_round_aux.
  destruct (shr_fexp F32.prec F32.emax mx ex lx) as [r1 e1] eqn:E1.
  destruct (shr_fexp_spec mx ex lx Hm He r1 e1 E1) as (He1 & Hm1 & Hd1 & Hz1).
  set (m2 := round_nearest_even (shr_m r1) (loc_of_shr_record r1)).
  assert (Hm2 : m2 = shr_m r1 \/ m2 = shr_m r1 + 1) by apply round_nearest_even_cases.
  destruct (shr_fexp F32.prec F32.emax m2 e1 loc_Exact) as [r2 e2] eqn:E2.
  destruct (Z.eq_dec m2 0) as [Hz|Hnz].
  - (* the mantissa was rounded to zero *)
    rewrite Hz in E2. unfold shr_fexp, shr in E2. simpl Zdigits2 in E2.
    destruct (fexp F32.prec F32.emax (0 + e1) - e1) as [|p|p]; injection E2 as <- <-; simpl.
    + reflexivity.
    + rewrite iter_pos_shr_1 by (simpl; lia). cbn [shr_m shr_record_of_loc].
      rewrite Z.div_0_l; [reflexivity|].
      pose proof (pow2_pos (Zpos p) ltac:(lia)); lia.
    + reflexivity.
  - assert (Hpos2 : 0 < m2) by lia.
    assert (He2 : e1 <= fexp32 (Zdigits2 m2 + e1)).
    { destruct (Z.eq_dec (shr_m r1) 0) as [H0|H0].
      - rewrite (Hz1 H0). rewrite fexp32_eq. lia.
      - assert (Hp1 : 0 < shr_m r1) by lia.
        specialize (Hd1 Hp1).
        rewrite He1 at 1. rewrite <- Hd1. apply fexp32_mono.
        pose proof (Zdigits2_mono (shr_m r1) m2 Hp1). lia. }
    destruct (shr_fexp_spec m2 e1 loc_Exact Hpos2 He2 r2 e2 E2) as (He3 & Hm3 & Hd3 & _).
    destruct (shr_m r2) as [|m3|m3] eqn:Em3; try lia.
    + reflexivity.
    + destruct (e2 <=? F32.emax - F32.prec) eqn:Ee; cbn [signed_valid]; [|reflexivity].
      split; [reflexivity|]. unfold bounded, canonical_mantissa.
      rewrite Ee, andb_true_r. apply Z.eqb_eq.
      specialize (Hd3 ltac:(lia)). simpl Zdigits2 in Hd3 at 1.
      fold (fexp32 (Z.pos (digits2_pos m3) + e2)). rewrite Hd3. symmetry. exact He3.
Qed.

Lemma pos_iter_xO (m d : positive) : Zpos (Pos.iter xO m d) = Zpos m * 2 ^ Zpos d.
Proof.
  induction d as [|d IH] using Pos.peano_ind.
  - simpl. lia.
  - rewrite Pos.iter_succ, Pos2Z.inj_xO, IH, Pos2Z.inj_succ, Z.pow_succ_r by lia. lia.
Qed.

Lemma shl_align_spec (mx : positive) (ex ex' : Z) :
  shl_align mx ex ex' =
  if ex' <? ex then (Z.to_pos (Zpos mx * 2 ^ (ex - ex')), ex') else (mx, ex).
Proof.
  unfold shl_align. destruct (ex' - ex) as [|p|p] eqn:E.
  - destruct (Z.ltb_spec ex' ex); [lia | reflexivity].
  - destruct (Z.ltb_spec ex' ex); [lia | reflexivity].
  - destruct (Z.ltb_spec ex' ex); [|lia].
    replace (ex - ex') with (Zpos p) by lia.
    rewrite <- pos_iter_xO. reflexivity.
Qed.

Lemma binary_round_valid (sx : bool) (mx : positive) (ex : Z) :
  signed_valid sx (binary_round F32.prec F32.emax sx mx ex).
Proof.
  unfold binary_round. rewrite shl_align_spec.
  fold (fexp32 (Z.pos (digits2_pos mx) + ex)).
  change (Z.pos (digits2_pos mx)) with (Zdigits2 (Zpos mx)).
  set (D := Zdigits2 (Zpos mx) + ex).
  destruct (Z.ltb_spec (fexp32 D) ex) as [Hlt|Hge].
  - pose proof (pow2_pos (ex - fexp32 D) ltac:(lia)) as Hp.
    assert (Hz : Zpos (Z.to_pos (Zpos mx * 2 ^ (ex - fexp32 D))) = Zpos mx * 2 ^ (ex - fexp32 D))
      by (apply Z2Pos.id; nia).
    apply binary_round_aux_valid; rewrite Hz; [nia|].
    rewrite Zdigits2_log2 by nia.
    rewrite Z.log2_mul_pow2 by lia.
    subst D. rewrite Zdigits2_log2 by lia.
    apply Z.eq_le_incl. f_equal. lia.
  - apply binary_round_aux_valid; [lia | exact Hge].
Qed.

Lemma binary_normalize_valid (m e : Z) :
  0 <= m -> signed_valid false (binary_normalize F32.prec F32.emax m e false).
Proof.
  intros Hm. destruct m as [|p|p]; try lia.
  - reflexivity.
  - apply binary_round_valid.
Qed.


Lemma signed_valid_nonneg (x : float) : signed_valid false x -> nonneg x = true.
Proof.
  destruct x as [s|s| |s m e]; simpl; try (intros ->; reflexivity); try tauto.
  intros [-> H]. unfold nonneg. simpl. exact H.
Qed.

Lemma bounded_digits (m : positive) (e : Z) :
  bounded F32.prec F32.emax m e = true ->
  -149 <= e /\ Zpos m < 2 ^ 24 /\ (-149 < e -> 2 ^ 23 <= Zpos m).
Proof.
  unfold bounded, canonical_mantissa. intros H.
  apply andb_true_iff in H as [H _]. apply Z.eqb_eq in H.
  fold (fexp32 (Z.pos (digits2_pos m) + e)) in H. rewrite fexp32_eq in H.
  change (Z.pos (digits2_pos m)) with (Zdigits2 (Zpos m)) in H.
  rewrite Zdigits2_log2 in H by lia.
  destruct (Z.log2_spec (Zpos m) ltac:(lia)) as [Hlo Hhi].
  split; [lia|]. split.
  - apply Z.lt_le_trans with (1 := Hhi). apply Z.pow_le_mono_r; lia.
  - intros He. apply Z.le_trans with (2 := Hlo). apply Z.pow_le_mono_r; lia.
Qed.

Lemma nonneg_cases (x : float) :
  nonneg x = true ->
  (exists s, x = S754_zero s) \/ x = S754_infinity false
  \/ (exists m e, x = S754_finite false m e /\ bounded F32.prec F32.emax m e = true).
Proof.
  unfold nonneg. intros H. apply andb_true_iff in H as [H V].
  destruct x as [s|[|]| |[|] m e]; try discriminate.
  - left. exists s. reflexivity.
  - right. left. reflexivity.
  - right. right. exists m, e. split; [reflexivity | exact V].
Qed.

Lemma add_nonneg (x y : float) :
  nonneg x = true -> nonneg y = true -> nonneg (F32.add x y) = true.
Proof.
  intros Hx Hy.
  destruct (nonneg_cases x Hx) as [[sx ->]|[->|(mx & ex & -> & Vx)]];
    destruct (nonneg_cases y Hy) as [[sy ->]|[->|(my & ey & -> & Vy)]];
    try assumption; try reflexivity.
  - destruct sx, sy; reflexivity.
  - apply signed_valid_nonneg. unfold F32.add, SFadd. cbn [cond_Zopp].
    apply binary_normalize_valid. lia.
Qed.

Lemma sub_nonneg (x : float) (my : positive) (ey : Z) :
  F32.valid x = true -> bounded F32.prec F32.emax my ey = true ->
  F32.geb x (S754_finite false my ey) = true ->
  nonneg (F32.sub x (S754_finite false my ey)) = true.
Proof.
  intros Vx Vy Hge.
  destruct x as [sx|sx| |sx mx ex]; try discriminate.
  - destruct sx; try discriminate. reflexivity.
  - destruct sx; [discriminate|].
    apply signed_valid_nonneg. unfold F32.sub, SFsub. cbn [cond_Zopp].
    apply binary_normalize_valid.
    unfold F32.geb, SFleb, SFcompare in Hge.
    simpl in Vx.
    destruct (bounded_digits mx ex Vx) as (Hex & Hmx & Hnx).
    destruct (bounded_digits my ey Vy) as (Hey & Hmy & Hny).
    rewrite !shl_align_spec.
    destruct (Z.compare_spec ey ex) as [Heq|Hlt|Hgt]; try discriminate.
    + subst ex. rewrite Z.min_id, Z.ltb_irrefl. cbn [fst].
      fold (Pos.compare my mx) in Hge.
      destruct (Pos.compare_spec my mx); try discriminate; lia.
    + rewrite Z.min_r by lia. rewrite Z.ltb_irrefl.
      destruct (Z.ltb_spec ey ex); [|lia]. cbn [fst].
      pose proof (pow2_pos (ex - ey) ltac:(lia)) as Hp.
      rewrite Z2Pos.id by nia.
      assert (2 <= 2 ^ (ex - ey)).
      { change 2 with (2 ^ 1) at 1. apply Z.pow_le_mono_r; lia. }
      specialize (Hnx ltac:(lia)). nia.
Qed.

(** ** Comparisons

    [x >= y] is false exactly when [x < y], NaN apart, and [x == y] against
    a finite positive number is equality of the data. *)

Lemma SFcompare_antisym (x y : float) (c : comparison) :
  SFcompare x y = Some c -> SFcompare y x = Some (CompOpp c).
Proof.
  destruct x as [sx|sx| |sx mx ex], y as [sy|sy| |sy my ey]; simpl;
    try discriminate;
    try (destruct sx; intros [= <-]; reflexivity);
    try (destruct sy; intros [= <-]; reflexivity);
    try (intros [= <-]; reflexivity).
  - destruct sx, sy; intros [= <-]; reflexivity.
  - fold (Pos.compare mx my). fold (Pos.compare my mx).
    rewrite (Z.compare_antisym ex ey), (Pos.compare_antisym mx my).
    destruct sx, sy; intros [= <-]; try reflexivity;
      destruct (ex ?= ey)%Z; simpl; try reflexivity;
      destruct (mx ?= my)%positive; reflexivity.
Qed.

Lemma SFcompare_none (x y : float) :
  SFcompare x y = None -> F32.is_nan x = true \/ F32.is_nan y = true.
Proof.
  destruct x as [sx|sx| |sx mx ex], y as [sy|sy| |sy my ey]; simpl;
    try discriminate; auto.
Qed.

Lemma not_geb_ltb (x y : float) :
  F32.is_nan x = false -> F32.is_nan y = false ->
  F32.geb x y = false -> F32.ltb x y = true.
Proof.
  intros Hx Hy. unfold F32.geb, F32.ltb, SFleb, SFltb.
  destruct (SFcompare y x) as [c|] eqn:E.
  - apply SFcompare_antisym in E. rewrite E.
    destruct c; simpl; try discriminate. reflexivity.
  - apply SFcompare_none in E. destruct E; congruence.
Qed.

Lemma nonneg_not_nan (x : float) : nonneg x = true -> F32.is_nan x = false.
Proof. destruct x; try reflexivity. discriminate. Qed.

Lemma SFeqb_finite (x : float) (my : positive) (ey : Z) :
  F32.eqb x (S754_finite false my ey) = true -> x = S754_finite false my ey.
Proof.
  unfold F32.eqb, SFeqb.
  destruct x as [s|s| |s m e]; cbn [SFcompare].
  - destruct s; discriminate.
  - destruct s; discriminate.
  - discriminate.
  - destruct s; [discriminate|].
    fold (Pos.compare m my).
    destruct (Z.compare_spec e ey) as [He|He|He]; try discriminate.
    destruct (Pos.compare_spec m my) as [Hm|Hm|Hm]; try discriminate.
    intros _. rewrite He, Hm. reflexivity.
Qed.

Lemma SFeqb_FIXED_TIMESTEP (x : float) :
  F32.eqb x FIXED_TIMESTEP = true -> x = FIXED_TIMESTEP.
Proof. apply SFeqb_finite. Qed.

Lemma FIXED_TIMESTEP_bounded : bounded F32.prec F32.emax 8947813 (-29) = true.
Proof. reflexivity. Qed.

(** ** Rounding error, in units of [2^-149]

    The result of rounding a positive [m * 2^e] exceeds it by at most one
    unit in the last place.  Hence subtracting FIXED_TIMESTEP from an
    accumulated time below [2^18] seconds strictly lowers it, which is what
    makes the loop of [game_loop] end. *)

Lemma shr_fexp_floor (m e : Z) (l : location) :
  0 < m -> e <= fexp32 (Zdigits2 m + e) ->
  forall r e', shr_fexp F32.prec F32.emax m e l = (r, e') ->
  e <= e' /\ shr_m r * 2 ^ (e' - e) <= m.
Proof.
  intros Hm He r e'. unfold shr_fexp, shr. fold (fexp32 (Zdigits2 m + e)).
  destruct (fexp32 (Zdigits2 m + e) - e) as [|p|p] eqn:En; try lia.
  - intros [= <- <-]. rewrite shr_m_of_loc, Z.sub_diag. simpl. lia.
  - intros [= <- <-].
    rewrite iter_pos_shr_1 by (rewrite shr_m_of_loc; lia).
    rewrite shr_m_of_loc.
    replace (e + Z.pos p - e) with (Z.pos p) by lia.
    pose proof (pow2_pos (Zpos p) ltac:(lia)) as Hp.
    split; [lia|]. rewrite Z.mul_comm. apply Z.mul_div_le. exact Hp.
Qed.

Lemma Zdigits2_succ (m : Z) : 0 < m -> Zdigits2 (m + 1) <= Zdigits2 m + 1.
Proof.
  intros Hm. rewrite !Zdigits2_log2 by lia.
  assert (Z.log2 (m + 1) <= Z.log2 (2 * m)) by (apply Z.log2_le_mono; lia).
  rewrite Z.log2_double in H by lia. lia.
Qed.

(** The value a positive mantissa [m] at exponent [e] stands for. *)
Lemma pow2_split (a b : Z) : 0 <= a -> 0 <= b -> 2 ^ (a + b) = 2 ^ a * 2 ^ b.
Proof. intros. apply Z.pow_add_r; assumption. Qed.

Lemma binary_round_aux_bound (mx ex : Z) (lx : location) :
  0 < mx -> -149 <= ex ->
  ex <= fexp32 (Zdigits2 mx + ex) -> fexp32 (Zdigits2 mx + ex) <= 103 ->
  exists z,
    F32.exact_units (binary_round_aux F32.prec F32.emax false mx ex lx) = Some z
    /\ 0 <= z <= mx * 2 ^ (ex + 149) + 2 ^ (fexp32 (Zdigits2 mx + ex) + 149).
Proof.
  intros Hm Hex He Hov. unfold binary_round_aux.
  destruct (shr_fexp F32.prec F32.emax mx ex lx) as [r1 e1] eqn:E1.
  destruct (shr_fexp_spec mx ex lx Hm He r1 e1 E1) as (He1 & Hm1 & Hd1 & Hz1).
  destruct (shr_fexp_floor mx ex lx Hm He r1 e1 E1) as (Hle1 & Hfl1).
  rewrite <- He1 in *.
  set (m2 := round_nearest_even (shr_m r1) (loc_of_shr_record r1)).
  assert (Hm2 : m2 = shr_m r1 \/ m2 = shr_m r1 + 1) by apply round_nearest_even_cases.
  destruct (shr_fexp F32.prec F32.emax m2 e1 loc_Exact) as [r2 e2] eqn:E2.
  pose proof (pow2_pos (ex + 149) ltac:(lia)) as HA.
  pose proof (pow2_pos (e1 - ex) ltac:(lia)) as HB.
  assert (HAB : 2 ^ (e1 + 149) = 2 ^ (e1 - ex) * 2 ^ (ex + 149)).
  { rewrite <- pow2_split by lia. f_equal. lia. }
  assert (Hrhs : 0 <= mx * 2 ^ (ex + 149) + 2 ^ (e1 + 149)) by nia.
  destruct (Z.eq_dec m2 0) as [Hz|Hnz].
  - exists 0. split; [|lia].
    rewrite Hz in E2. unfold shr_fexp, shr in E2. simpl Zdigits2 in E2.
    destruct (fexp F32.prec F32.emax (0 + e1) - e1) as [|p|p]; injection E2 as <- <-.
    + reflexivity.
    + rewrite iter_pos_shr_1 by (simpl; lia). cbn [shr_m shr_record_of_loc].
      rewrite Z.div_0_l; [reflexivity|].
      pose proof (pow2_pos (Zpos p) ltac:(lia)); lia.
    + reflexivity.
  - assert (Hpos2 : 0 < m2) by lia.
    assert (He2 : e1 <= fexp32 (Zdigits2 m2 + e1) <= e1 + 1).
    { destruct (Z.eq_dec (shr_m r1) 0) as [H0|H0].
      - rewrite (Hz1 H0). replace m2 with 1 by lia. rewrite fexp32_eq. simpl. lia.
      - assert (Hp1 : 0 < shr_m r1) by lia.
        specialize (Hd1 Hp1).
        assert (Zdigits2 (shr_m r1) <= Zdigits2 m2 <= Zdigits2 (shr_m r1) + 1).
        { destruct Hm2 as [-> | ->]; [lia|]. split.
          - apply Zdigits2_mono; lia.
          - apply Zdigits2_succ; exact Hp1. }
        rewrite He1 at 1 4. rewrite <- Hd1. rewrite !fexp32_eq. lia. }
    destruct (shr_fexp_spec m2 e1 loc_Exact Hpos2 (proj1 He2) r2 e2 E2)
      as (He3 & Hm3 & _ & _).
    destruct (shr_fexp_floor m2 e1 loc_Exact Hpos2 (proj1 He2) r2 e2 E2)
      as (Hle2 & Hfl2).
    destruct (shr_m r2) as [|m3|m3] eqn:Em3; try lia.
    + exists 0. split; [reflexivity | lia].
    + assert (Hfit : (e2 <=? F32.emax - F32.prec) = true).
      { apply Z.leb_le. change (F32.emax - F32.prec) with 104. lia. }
      rewrite Hfit. cbn [F32.exact_units cond_Zopp].
      eexists. split; [reflexivity|].
      pose proof (pow2_pos (e2 - e1) ltac:(lia)) as HC.
      assert (HCB : 2 ^ (e2 + 149) = 2 ^ (e2 - e1) * 2 ^ (e1 + 149)).
      { rewrite <- pow2_split by lia. f_equal. lia. }
      split; [nia|].
      rewrite HCB.
      assert (Z.pos m3 * 2 ^ (e2 - e1) <= shr_m r1 + 1) by lia.
      assert (Z.pos m3 * 2 ^ (e2 - e1) * 2 ^ (e1 + 149)
              <= (shr_m r1 + 1) * 2 ^ (e1 + 149))
        by (apply Z.mul_le_mono_nonneg_r; lia).
      assert (shr_m r1 * 2 ^ (e1 - ex) * 2 ^ (ex + 149) <= mx * 2 ^ (ex + 149))
        by (apply Z.mul_le_mono_nonneg_r; lia).
      rewrite HAB in *. lia.
Qed.

Lemma binary_round_bound (m : positive) (e : Z) :
  -149 <= e -> fexp32 (Zdigits2 (Zpos m) + e) <= 103 ->
  exists z,
    F32.exact_units (binary_round F32.prec F32.emax false m e) = Some z
    /\ 0 <= z <= Zpos m * 2 ^ (e + 149)
                 + 2 ^ (fexp32 (Zdigits2 (Zpos m) + e) + 149).
Proof.
  intros He Hov. unfold binary_round. rewrite shl_align_spec.
  fold (fexp32 (Z.pos (digits2_pos m) + e)).
  change (Z.pos (digits2_pos m)) with (Zdigits2 (Zpos m)).
  set (D := Zdigits2 (Zpos m) + e) in *.
  assert (HE : -149 <= fexp32 D) by (rewrite fexp32_eq; lia).
  destruct (Z.ltb_spec (fexp32 D) e) as [Hlt|Hge].
  - pose proof (pow2_pos (e - fexp32 D) ltac:(lia)) as Hp.
    assert (Hz : Zpos (Z.to_pos (Zpos m * 2 ^ (e - fexp32 D)))
                 = Zpos m * 2 ^ (e - fexp32 D)) by (apply Z2Pos.id; nia).
    assert (HD : Zdigits2 (Zpos m * 2 ^ (e - fexp32 D)) + fexp32 D = D).
    { rewrite Zdigits2_log2 by nia. rewrite Z.log2_mul_pow2 by lia.
      subst D. rewrite Zdigits2_log2 by lia. lia. }
    destruct (binary_round_aux_bound (Zpos m * 2 ^ (e - fexp32 D)) (fexp32 D)
                loc_Exact) as (z & Hz1 & Hz2); rewrite ?HD; try lia.
    rewrite Hz. exists z. split; [exact Hz1|].
    rewrite HD in Hz2.
    replace (Z.pos m * 2 ^ (e - fexp32 D) * 2 ^ (fexp32 D + 149))
      with (Z.pos m * 2 ^ (e + 149)) in Hz2; [exact Hz2|].
    rewrite <- Z.mul_assoc, <- pow2_split by lia. do 2 f_equal. lia.
  - apply binary_round_aux_bound; fold D; lia.
Qed.

(** Subtracting a positive [y] from a larger [x] that is below [2^k]
    strictly lowers the exact value, as long as one unit in the last place
    of numbers below [2^k] is smaller than [y]. *)
Lemma sub_decreases (x : float) (my : positive) (ey k zx : Z) :
  F32.valid x = true -> bounded F32.prec F32.emax my ey = true ->
  F32.geb x (S754_finite false my ey) = true ->
  F32.exact_units x = Some zx ->
  k <= 127 -> zx < 2 ^ (k + 149) ->
  2 ^ (Z.max (k - 24) (-149) + 149) < Zpos my * 2 ^ (ey + 149) ->
  exists z,
    F32.exact_units (F32.sub x (S754_finite false my ey)) = Some z
    /\ 0 <= z < zx.
Proof.
  intros Vx Vy Hge Hzx Hk Hbig Hulp.
  destruct x as [sx|sx| |sx mx ex]; try discriminate.
  destruct sx; [discriminate|].
  assert (Hzx' : Zpos mx * 2 ^ (ex + 149) = zx)
    by (cbn [F32.exact_units cond_Zopp] in Hzx; congruence).
  clear Hzx. rename Hzx' into Hzx.
  unfold F32.sub, SFsub. cbn [cond_Zopp].
  unfold F32.geb, SFleb, SFcompare in Hge. simpl in Vx.
  destruct (bounded_digits mx ex Vx) as (Hex & Hmx & Hnx).
  destruct (bounded_digits my ey Vy) as (Hey & Hmy & Hny).
  rewrite !shl_align_spec.
  assert (Hmin : Z.min ex ey = ey /\ ey <= ex
                 /\ Zpos my <= Zpos mx * 2 ^ (ex - ey)).
  { destruct (Z.compare_spec ey ex) as [Heq|Hlt|Hgt]; try discriminate.
    - subst ex. rewrite Z.min_id, Z.sub_diag. split; [reflexivity|].
      split; [lia|]. fold (Pos.compare my mx) in Hge.
      destruct (Pos.compare_spec my mx); try discriminate; simpl; lia.
    - rewrite Z.min_r by lia. split; [reflexivity|]. split; [lia|].
      pose proof (pow2_pos (ex - ey) ltac:(lia)) as Hp.
      assert (2 <= 2 ^ (ex - ey)).
      { change 2 with (2 ^ 1) at 1. apply Z.pow_le_mono_r; lia. }
      specialize (Hnx ltac:(lia)). nia. }
  destruct Hmin as (-> & Hle & Hdiff).
  rewrite Z.ltb_irrefl. cbn [fst].
  pose proof (pow2_pos (ex - ey) ltac:(lia)) as Hp.
  pose proof (pow2_pos (ey + 149) ltac:(lia)) as Hq.
  assert (Hval : Zpos mx * 2 ^ (ex - ey) * 2 ^ (ey + 149) = zx).
  { rewrite <- Hzx, <- Z.mul_assoc, <- pow2_split by lia. do 2 f_equal. lia. }
  assert (Hfst : Zpos (fst (if ey <? ex
                            then (Z.to_pos (Zpos mx * 2 ^ (ex - ey)), ey)
                            else (mx, ex)))
                 = Zpos mx * 2 ^ (ex - ey)).
  { destruct (Z.ltb_spec ey ex); cbn [fst].
    - apply Z2Pos.id. nia.
    - replace (ex - ey) with 0 by lia. simpl. lia. }
  rewrite Hfst.
  destruct (Zpos mx * 2 ^ (ex - ey) - Zpos my) as [|dm|dm] eqn:Ed; try lia.
  - exists 0. split; [reflexivity|].
    pose proof (pow2_pos (ex + 149) ltac:(lia)). nia.
  - cbn [binary_normalize].
    assert (Hdv : Zpos dm * 2 ^ (ey + 149) = zx - Zpos my * 2 ^ (ey + 149)) by nia.
    assert (Hdk : Zdigits2 (Zpos dm) + ey <= k).
    { assert (Hlt : Zpos dm * 2 ^ (ey + 149) < 2 ^ (k + 149)) by nia.
      assert (Heyk : ey < k).
      { assert (H : 2 ^ (ey + 149) < 2 ^ (k + 149)) by nia.
        assert (0 <= k + 149).
        { destruct (Z.lt_ge_cases (k + 149) 0) as [Hneg|]; [|assumption].
          rewrite (Z.pow_neg_r 2 (k + 149) Hneg) in H. lia. }
        apply (Z.pow_lt_mono_r_iff 2 (ey + 149) (k + 149)) in H; lia. }
      assert (Zpos dm < 2 ^ (k - ey)).
      { replace (k + 149) with ((k - ey) + (ey + 149)) in Hlt by lia.
        rewrite (pow2_split (k - ey) (ey + 149)) in Hlt by lia.
        apply Z.mul_lt_mono_pos_r in Hlt; assumption. }
      rewrite Zdigits2_log2 by lia.
      apply Z.log2_lt_pow2 in H; lia. }
    assert (HE : fexp32 (Zdigits2 (Zpos dm) + ey) <= Z.max (k - 24) (-149))
      by (rewrite fexp32_eq; lia).
    destruct (binary_round_bound dm ey Hey ltac:(lia)) as (z & Hz1 & Hz2).
    exists z. split; [exact Hz1|]. split; [lia|].
    assert (2 ^ (fexp32 (Zdigits2 (Zpos dm) + ey) + 149)
            <= 2 ^ (Z.max (k - 24) (-149) + 149)).
    { apply Z.pow_le_mono_r; [lia|]. lia. }
    lia.
Qed.

Lemma ltb_finite (m my : positive) (e ey : Z) :
  F32.ltb (S754_finite false m e) (S754_finite false my ey) = true ->
  e < ey \/ (e = ey /\ Zpos m < Zpos my).
Proof.
  unfold F32.ltb, SFltb, SFcompare. fold (Pos.compare m my).
  destruct (Z.compare_spec e ey) as [Heq|Hl|Hg]; try discriminate.
  - destruct (Pos.compare_spec m my); try discriminate. intros _. right. lia.
  - intros _. left. exact Hl.
Qed.

Lemma below_LONGEST_FRAME (x : float) :
  nonneg x = true -> F32.ltb x LONGEST_FRAME = true ->
  exists z, F32.exact_units x = Some z /\ 0 <= z < 2 ^ 167.
Proof.
  intros Hx Hlt.
  destruct (nonneg_cases x Hx) as [[s ->]|[->|(m & e & -> & V)]].
  - exists 0. split; [reflexivity | lia].
  - discriminate.
  - destruct (bounded_digits m e V) as (He & Hm & _).
    cbn [F32.exact_units cond_Zopp]. eexists. split; [reflexivity|].
    pose proof (pow2_pos (e + 149) ltac:(lia)) as Hp.
    split; [nia|].
    destruct (ltb_finite m 8388608 e (-5) Hlt) as [Hl|[Heq Hm']].
    + assert (2 ^ (e + 149) <= 2 ^ 143) by (apply Z.pow_le_mono_r; lia).
      change (2 ^ 167) with (2 ^ 24 * 2 ^ 143).
      pose proof (pow2_pos 143 ltac:(lia)). nia.
    + subst e. change (2 ^ 167) with (8388608 * 2 ^ (-5 + 149)).
      apply Z.mul_lt_mono_pos_r; [exact Hp | exact Hm'].
Qed.

(** A non-negative number below a positive binary32 number is below it as
    an exact value too. *)
Lemma ltb_units (x : float) (my : positive) (ey : Z) :
  nonneg x = true -> bounded F32.prec F32.emax my ey = true ->
  F32.ltb x (S754_finite false my ey) = true ->
  exists z, F32.exact_units x = Some z
            /\ 0 <= z < Zpos my * 2 ^ (ey + 149).
Proof.
  intros Hx Vy Hlt.
  destruct (bounded_digits my ey Vy) as (Hey & Hmy & Hny).
  pose proof (pow2_pos (ey + 149) ltac:(lia)) as Hpy.
  destruct (nonneg_cases x Hx) as [[s ->]|[->|(m & e & -> & V)]].
  - exists 0. split; [reflexivity | nia].
  - discriminate.
  - destruct (bounded_digits m e V) as (He & Hm & _).
    cbn [F32.exact_units cond_Zopp]. eexists. split; [reflexivity|].
    pose proof (pow2_pos (e + 149) ltac:(lia)) as Hp.
    split; [nia|].
    destruct (ltb_finite m my e ey Hlt) as [Hl|[Heq Hm']].
    + specialize (Hny ltac:(lia)).
      assert (Hs : 2 ^ (ey + 149) = 2 ^ (ey - e) * 2 ^ (e + 149)).
      { rewrite <- Z.pow_add_r by lia. f_equal. lia. }
      assert (H2 : 2 <= 2 ^ (ey - e)).
      { change 2 with (2 ^ 1) at 1. apply Z.pow_le_mono_r; lia. }
      rewrite Hs. nia.
    + subst e. apply Z.mul_lt_mono_pos_r; [exact Hp | exact Hm'].
Qed.

Lemma FIXED_TIMESTEP_units :
  F32.exact_units FIXED_TIMESTEP = Some (Zpos 8947813 * 2 ^ (-29 + 149)).
Proof. reflexivity. Qed.

Lemma exact_add_units (x y : float) (a b : Z) :
  exact_add x y = true ->
  F32.exact_units x = Some a -> F32.exact_units y = Some b ->
  F32.exact_units (F32.add x y) = Some (a + b).
Proof.
  unfold exact_add. intros H Hx Hy. rewrite Hx, Hy in H.
  destruct (F32.exact_units (F32.add x y)) as [c|]; [|discriminate].
  apply Z.eqb_eq in H. rewrite H. reflexivity.
Qed.

Lemma exact_sub_units (x y : float) (a b : Z) :
  exact_sub x y = true ->
  F32.exact_units x = Some a -> F32.exact_units y = Some b ->
  F32.exact_units (F32.sub x y) = Some (a - b).
Proof.
  unfold exact_sub. intros H Hx Hy. rewrite Hx, Hy in H.
  destruct (F32.exact_units (F32.sub x y)) as [c|]; [|discriminate].
  apply Z.eqb_eq in H. rewrite H. reflexivity.
Qed.

Lemma exact_add_defined (x y : float) :
  exact_add x y = true -> exists a, F32.exact_units x = Some a.
Proof.
  unfold exact_add. destruct (F32.exact_units x) as [a|]; [|discriminate].
  intros _. exists a. reflexivity.
Qed.

(** ** The fixed-timestep driver

    Everything in this section holds for any kinematics [integrate]. *)

Section Driver.

Variable integrate : float -> Entity -> Entity.

Lemma physics_step_accumulator (dt a : float) (g : Globals) :
  physics_step integrate dt (set_time_accumulator g a)
  = set_time_accumulator (physics_step integrate dt g) a.
Proof.
  unfold physics_step. cbn [set_time_accumulator g_game_state g_win g_loss].
  destruct (Entity_update integrate dt (platforms (g_game_state g))
              PLATFORM_COUNT (player (g_game_state g)) (g_win g) (g_loss g))
    as [[p w] l].
  reflexivity.
Qed.

Lemma physics_step_keeps (dt : float) (g : Globals) :
  platforms (g_game_state (physics_step integrate dt g)) = platforms (g_game_state g)
  /\ g_time_accumulator (physics_step integrate dt g) = g_time_accumulator g
  /\ g_previous_ticks (physics_step integrate dt g) = g_previous_ticks g
  /\ g_game_is_running (physics_step integrate dt g) = g_game_is_running g.
Proof.
  unfold physics_step.
  destruct (Entity_update integrate dt (platforms (g_game_state g))
              PLATFORM_COUNT (player (g_game_state g)) (g_win g) (g_loss g))
    as [[p w] l].
  repeat split.
Qed.

Lemma steps_accumulator (n : nat) (a : float) (g : Globals) :
  Nat.iter n (physics_step integrate FIXED_TIMESTEP) (set_time_accumulator g a)
  = set_time_accumulator (Nat.iter n (physics_step integrate FIXED_TIMESTEP) g) a.
Proof.
  induction n as [|n IH]; simpl; [reflexivity|].
  rewrite IH. apply physics_step_accumulator.
Qed.

Lemma set_time_accumulator_twice (g : Globals) (a b : float) :
  set_time_accumulator (set_time_accumulator g a) b = set_time_accumulator g b.
Proof. reflexivity. Qed.

Lemma set_time_accumulator_self (g : Globals) :
  set_time_accumulator g (g_time_accumulator g) = g.
Proof. destruct g. reflexivity. Qed.

(** The loop runs the FIXED_TIMESTEP step [n] times on the globals it was
    given and touches nothing else. *)
Lemma game_loop_while_steps (fuel : nat) : forall d g n d' g',
  game_loop_while integrate fuel d g = Some (n, d', g') ->
  g' = Nat.iter n (physics_step integrate FIXED_TIMESTEP) g.
Proof.
  induction fuel as [|fuel IH]; intros d g n d' g'; simpl.
  - destruct (F32.geb d FIXED_TIMESTEP); [discriminate|].
    intros [= <- _ <-]. reflexivity.
  - destruct (F32.geb d FIXED_TIMESTEP).
    + destruct (game_loop_while integrate fuel (F32.sub d FIXED_TIMESTEP)
                  (physics_step integrate FIXED_TIMESTEP g))
        as [[[k d1] g1]|] eqn:E; [|discriminate].
      intros [= <- _ <-]. apply IH in E. rewrite E.
      symmetry. apply Nat.iter_succ_r.
    + intros [= <- _ <-]. reflexivity.
Qed.

Lemma game_loop_steps (fuel : nat) (delta_time : float) (g : Globals)
    (n : nat) (g' : Globals) :
  game_loop integrate fuel delta_time g = Some (n, g') ->
  g' = set_time_accumulator
         (Nat.iter n (physics_step integrate FIXED_TIMESTEP) g)
         (g_time_accumulator g').
Proof.
  unfold game_loop.
  destruct (F32.ltb (F32.add delta_time (g_time_accumulator g)) FIXED_TIMESTEP).
  - intros [= <- <-]. reflexivity.
  - destruct (game_loop_while integrate fuel
                (F32.add delta_time (g_time_accumulator g)) g)
      as [[[k d1] g1]|] eqn:E; [|discriminate].
    intros [= <- <-]. apply game_loop_while_steps in E. subst g1. reflexivity.
Qed.

Lemma game_loops_steps (fuel : nat) (deltas : list float) : forall g n g',
  game_loops integrate fuel deltas g = Some (n, g') ->
  g' = set_time_accumulator
         (Nat.iter n (physics_step integrate FIXED_TIMESTEP) g)
         (g_time_accumulator g').
Proof.
  induction deltas as [|d rest IH]; intros g n g'; simpl.
  - intros [= <- <-]. simpl. symmetry. apply set_time_accumulator_self.
  - destruct (game_loop integrate fuel d g) as [[k g1]|] eqn:E1; [|discriminate].
    destruct (game_loops integrate fuel rest g1) as [[m g2]|] eqn:E2; [|discriminate].
    intros [= <- <-].
    apply game_loop_steps in E1. apply IH in E2.
    rewrite E2. rewrite E1 at 1.
    rewrite steps_accumulator, set_time_accumulator_twice.
    f_equal. rewrite Nat.add_comm. symmetry. apply Nat.iter_add.
Qed.

(** C4.  When the leftover accumulator plus the frame delta is exactly
    FIXED_TIMESTEP, [game_loop] runs exactly one physics step and leaves
    the accumulator at zero. *)
Theorem game_loop_exactly_one_step
    (fuel : nat) (delta_time : float) (g : Globals) :
  F32.eqb (F32.add delta_time (g_time_accumulator g)) FIXED_TIMESTEP = true ->
  game_loop integrate (S fuel) delta_time g
  = Some (1%nat,
          set_time_accumulator (physics_step integrate FIXED_TIMESTEP g)
            F32.zero).
Proof.
  intros H. apply SFeqb_FIXED_TIMESTEP in H.
  unfold game_loop. rewrite H.
  change (F32.ltb FIXED_TIMESTEP FIXED_TIMESTEP) with false.
  cbn [game_loop_while].
  change (F32.geb FIXED_TIMESTEP FIXED_TIMESTEP) with true.
  change (F32.sub FIXED_TIMESTEP FIXED_TIMESTEP) with F32.zero.
  destruct fuel; cbn [game_loop_while];
    change (F32.geb F32.zero FIXED_TIMESTEP) with false; reflexivity.
Qed.

Lemma add_zero_l (s : bool) (x : float) :
  F32.ltb x FIXED_TIMESTEP = true ->
  F32.ltb (F32.add (S754_zero s) x) FIXED_TIMESTEP = true
  /\ F32.eqb (F32.add (S754_zero s) x) x = true
  /\ ((forall s', x <> S754_zero s') -> F32.add (S754_zero s) x = x).
Proof.
  destruct x as [sx|sx| |sx mx ex]; try discriminate.
  - intros _. destruct s, sx; repeat split; intros H; exfalso; eapply H; reflexivity.
  - intros H. repeat split; try exact H. destruct sx; reflexivity.
  - intros H. repeat split; try exact H.
    unfold F32.eqb, SFeqb. simpl.
    rewrite Z.compare_refl. fold (Pos.compare mx mx). rewrite Pos.compare_refl.
    destruct sx; reflexivity.
Qed.

(** C5.  A zero frame delta on an accumulator below FIXED_TIMESTEP runs no
    physics step and changes nothing but the stored accumulator, whose new
    content equals the old one as a number (and is the very same binary32
    datum unless the old one was a signed zero). *)
Theorem game_loop_zero_delta
    (fuel : nat) (s : bool) (g : Globals) :
  F32.ltb (g_time_accumulator g) FIXED_TIMESTEP = true ->
  exists a,
    game_loop integrate fuel (S754_zero s) g
    = Some (0%nat, set_time_accumulator g a)
    /\ F32.eqb a (g_time_accumulator g) = true
    /\ ((forall s', g_time_accumulator g <> S754_zero s') ->
        a = g_time_accumulator g).
Proof.
  intros H. destruct (add_zero_l s _ H) as (Hlt & Heq & Hsame).
  exists (F32.add (S754_zero s) (g_time_accumulator g)).
  unfold game_loop. rewrite Hlt. auto.
Qed.

Lemma game_loop_while_invariant (fuel : nat) : forall d g n d' g',
  nonneg d = true ->
  game_loop_while integrate fuel d g = Some (n, d', g') ->
  nonneg d' = true /\ F32.ltb d' FIXED_TIMESTEP = true.
Proof.
  induction fuel as [|fuel IH]; intros d g n d' g' Hd; simpl.
  - destruct (F32.geb d FIXED_TIMESTEP) eqn:Hge; [discriminate|].
    intros [= _ <- _]. split; [exact Hd|].
    apply not_geb_ltb; [apply nonneg_not_nan; exact Hd | reflexivity | exact Hge].
  - destruct (F32.geb d FIXED_TIMESTEP) eqn:Hge.
    + destruct (game_loop_while integrate fuel (F32.sub d FIXED_TIMESTEP)
                  (physics_step integrate FIXED_TIMESTEP g))
        as [[[k d1] g1]|] eqn:E; [|discriminate].
      intros [= _ <- _]. apply IH in E; [exact E|].
      apply sub_nonneg; [|exact FIXED_TIMESTEP_bounded|exact Hge].
      unfold nonneg in Hd. apply andb_true_iff in Hd. tauto.
    + intros [= _ <- _]. split; [exact Hd|].
      apply not_geb_ltb; [apply nonneg_not_nan; exact Hd | reflexivity | exact Hge].
Qed.

Lemma game_loop_keeps_invariant
    (fuel : nat) (delta_time : float) (g : Globals) (n : nat) (g' : Globals) :
  nonneg delta_time = true -> nonneg (g_time_accumulator g) = true ->
  game_loop integrate fuel delta_time g = Some (n, g') ->
  nonneg (g_time_accumulator g') = true
  /\ F32.ltb (g_time_accumulator g') FIXED_TIMESTEP = true.
Proof.
  intros Hd Ha.
  pose proof (add_nonneg _ _ Hd Ha) as Hsum.
  unfold game_loop.
  destruct (F32.ltb (F32.add delta_time (g_time_accumulator g)) FIXED_TIMESTEP)
    eqn:Hlt.
  - intros [= _ <-]. cbn [set_time_accumulator g_time_accumulator]. auto.
  - destruct (game_loop_while integrate fuel
                (F32.add delta_time (g_time_accumulator g)) g)
      as [[[k d1] g1]|] eqn:E; [|discriminate].
    intros [= _ <-]. cbn [set_time_accumulator g_time_accumulator].
    apply game_loop_while_invariant in E; [exact E | exact Hsum].
Qed.

(** C9, as amended.  For a non-negative frame delta and an accumulator
    with [0 <= accumulator < FIXED_TIMESTEP] on entry, a call of
    [game_loop] that returns leaves [0 <= accumulator < FIXED_TIMESTEP]. *)
Theorem accumulator_below_one_step
    (fuel : nat) (delta_time : float) (g : Globals) (n : nat) (g' : Globals) :
  F32.valid delta_time = true ->
  F32.leb F32.zero delta_time = true ->
  F32.valid (g_time_accumulator g) = true ->
  F32.leb F32.zero (g_time_accumulator g) = true ->
  F32.ltb (g_time_accumulator g) FIXED_TIMESTEP = true ->
  game_loop integrate fuel delta_time g = Some (n, g') ->
  F32.valid (g_time_accumulator g') = true
  /\ F32.leb F32.zero (g_time_accumulator g') = true
  /\ F32.ltb (g_time_accumulator g') FIXED_TIMESTEP = true.
Proof.
  intros Vd Hd Va Ha _ H.
  destruct (game_loop_keeps_invariant fuel delta_time g n g') as [H1 H2].
  - unfold nonneg. rewrite Hd, Vd. reflexivity.
  - unfold nonneg. rewrite Ha, Va. reflexivity.
  - exact H.
  - unfold nonneg in H1. apply andb_true_iff in H1. tauto.
Qed.

(** Along a run that starts with an accumulator in [0, FIXED_TIMESTEP)
    and sees non-negative frame deltas only, the accumulator is in
    [0, FIXED_TIMESTEP) after every frame. *)
Lemma accumulator_invariant_along_run (fuel : nat) (deltas : list float) :
  forall g n g',
  forallb nonneg deltas = true ->
  nonneg (g_time_accumulator g) = true ->
  F32.ltb (g_time_accumulator g) FIXED_TIMESTEP = true ->
  game_loops integrate fuel deltas g = Some (n, g') ->
  nonneg (g_time_accumulator g') = true
  /\ F32.ltb (g_time_accumulator g') FIXED_TIMESTEP = true.
Proof.
  induction deltas as [|d rest IH]; intros g n g' Hds Ha Hlt; simpl.
  - intros [= _ <-]. auto.
  - simpl in Hds. apply andb_true_iff in Hds as [Hd Hrest].
    destruct (game_loop integrate fuel d g) as [[k g1]|] eqn:E1; [|discriminate].
    destruct (game_loops integrate fuel rest g1) as [[m g2]|] eqn:E2;
      [|discriminate].
    intros [= _ <-].
    destruct (game_loop_keeps_invariant fuel d g k g1 Hd Ha E1) as [H1 H2].
    exact (IH g1 m g2 Hrest H1 H2 E2).
Qed.

(** *** Partitions of the same total time *)

Lemma game_loop_while_exact_units (U : Z) (fuel : nat) :
  F32.exact_units FIXED_TIMESTEP = Some U ->
  forall d g n d' g' u,
  game_loop_while_exact fuel d = true ->
  game_loop_while integrate fuel d g = Some (n, d', g') ->
  F32.exact_units d = Some u ->
  F32.exact_units d' = Some (u - Z.of_nat n * U).
Proof.
  intros HU. induction fuel as [|fuel IH]; intros d g n d' g' u;
    cbn [game_loop_while_exact game_loop_while];
    destruct (F32.geb d FIXED_TIMESTEP);
    try discriminate;
    try (intros _ [= <- <- _] Hu; rewrite Hu; f_equal; cbn [Z.of_nat]; lia).
  intros Hex. apply andb_true_iff in Hex as [Hsub Hrest].
  destruct (game_loop_while integrate fuel (F32.sub d FIXED_TIMESTEP)
              (physics_step integrate FIXED_TIMESTEP g))
    as [[[k d1] g1]|] eqn:E; [|discriminate].
  intros [= <- <- _] Hu.
  rewrite (IH _ _ _ _ _ (u - U) Hrest E (exact_sub_units _ _ _ _ Hsub Hu HU)).
  f_equal. lia.
Qed.

Lemma game_loop_exact_units (U : Z) (fuel : nat) (d : float) (g : Globals)
    (n : nat) (g' : Globals) (ud ua : Z) :
  F32.exact_units FIXED_TIMESTEP = Some U ->
  game_loop_exact fuel d g = true ->
  game_loop integrate fuel d g = Some (n, g') ->
  F32.exact_units d = Some ud ->
  F32.exact_units (g_time_accumulator g) = Some ua ->
  F32.exact_units (g_time_accumulator g') = Some (ua + ud - Z.of_nat n * U).
Proof.
  intros HU Hex H Hd Ha. unfold game_loop_exact in Hex.
  apply andb_true_iff in Hex as [Hadd Hloop].
  pose proof (exact_add_units _ _ _ _ Hadd Hd Ha) as Hsum.
  revert H. unfold game_loop. cbv zeta in Hloop.
  destruct (F32.ltb (F32.add d (g_time_accumulator g)) FIXED_TIMESTEP).
  - intros [= <- <-]. cbn [set_time_accumulator g_time_accumulator Z.of_nat].
    rewrite Hsum. f_equal. lia.
  - cbn [orb] in Hloop.
    destruct (game_loop_while integrate fuel
                (F32.add d (g_time_accumulator g)) g)
      as [[[k d1] g1]|] eqn:E; [|discriminate].
    intros [= <- <-]. cbn [set_time_accumulator g_time_accumulator].
    rewrite (game_loop_while_exact_units U fuel HU _ _ _ _ _ _ Hloop E Hsum).
    f_equal. lia.
Qed.

Lemma game_loops_exact_units (U : Z) (fuel : nat) (deltas : list float) :
  F32.exact_units FIXED_TIMESTEP = Some U ->
  forall g n g' ua,
  forallb nonneg deltas = true ->
  nonneg (g_time_accumulator g) = true ->
  F32.ltb (g_time_accumulator g) FIXED_TIMESTEP = true ->
  game_loops_exact integrate fuel deltas g = true ->
  game_loops integrate fuel deltas g = Some (n, g') ->
  F32.exact_units (g_time_accumulator g) = Some ua ->
  exists total,
    exact_total deltas = Some total
    /\ F32.exact_units (g_time_accumulator g')
       = Some (ua + total - Z.of_nat n * U)
    /\ nonneg (g_time_accumulator g') = true
    /\ F32.ltb (g_time_accumulator g') FIXED_TIMESTEP = true.
Proof.
  intros HU. induction deltas as [|d rest IH]; intros g n g' ua Hds Ha Hlt;
    cbn [game_loops_exact game_loops exact_total].
  - intros _ [= <- <-] Hu. exists 0. split; [reflexivity|].
    split; [rewrite Hu; f_equal; cbn [Z.of_nat]; lia|]. split; assumption.
  - cbn [forallb] in Hds. apply andb_true_iff in Hds as [Hd Hrest].
    intros Hex. apply andb_true_iff in Hex as [Hex1 Hex2].
    destruct (game_loop integrate fuel d g) as [[k g1]|] eqn:E1;
      [|discriminate].
    destruct (game_loops integrate fuel rest g1) as [[m g2]|] eqn:E2;
      [|discriminate].
    intros [= <- <-] Hu.
    pose proof Hex1 as Hadd. unfold game_loop_exact in Hadd.
    apply andb_true_iff in Hadd as [Hadd _].
    destruct (exact_add_defined _ _ Hadd) as [ud Hud].
    pose proof (game_loop_exact_units U fuel d g k g1 ud ua HU Hex1 E1 Hud Hu)
      as Hu1.
    destruct (game_loop_keeps_invariant fuel d g k g1 Hd Ha E1) as [Ha1 Hlt1].
    destruct (IH g1 m g2 _ Hrest Ha1 Hlt1 Hex2 E2 Hu1)
      as (total & Ht & Hu2 & Ha2 & Hlt2).
    exists (ud + total). rewrite Hud, Ht. split; [reflexivity|].
    split; [rewrite Hu2; f_equal; lia|]. split; assumption.
Qed.

(** C1, as amended.  Every physics step [game_loop] runs is the step by
    FIXED_TIMESTEP: after any sequence of frame deltas the session is that
    step iterated as many times as steps were run.  Take two sequences of
    non-negative frame deltas with the same exact total, run from the same
    state with the accumulator in [0, FIXED_TIMESTEP), as [game_loop]
    leaves it.  If no addition and no subtraction of either run rounds,
    both run the same number of physics steps and end with the same
    player, platforms and flags, and with accumulators of the same
    value. *)
Theorem same_total_same_steps
    (fuel1 fuel2 : nat) (deltas1 deltas2 : list float) (g : Globals)
    (n1 n2 : nat) (g1 g2 : Globals) :
  forallb nonneg deltas1 = true -> forallb nonneg deltas2 = true ->
  exact_total deltas1 = exact_total deltas2 ->
  nonneg (g_time_accumulator g) = true ->
  F32.ltb (g_time_accumulator g) FIXED_TIMESTEP = true ->
  game_loops_exact integrate fuel1 deltas1 g = true ->
  game_loops_exact integrate fuel2 deltas2 g = true ->
  game_loops integrate fuel1 deltas1 g = Some (n1, g1) ->
  game_loops integrate fuel2 deltas2 g = Some (n2, g2) ->
  n1 = n2
  /\ g1 = set_time_accumulator
            (Nat.iter n1 (physics_step integrate FIXED_TIMESTEP) g)
            (g_time_accumulator g1)
  /\ g_game_state g1 = g_game_state g2
  /\ g_win g1 = g_win g2 /\ g_loss g1 = g_loss g2
  /\ F32.exact_units (g_time_accumulator g1)
     = F32.exact_units (g_time_accumulator g2).
Proof.
  intros Hd1 Hd2 Htot Ha Hlt Hex1 Hex2 H1 H2.
  destruct (ltb_units _ _ _ Ha FIXED_TIMESTEP_bounded Hlt) as (ua & Hua & _).
  destruct (game_loops_exact_units _ fuel1 deltas1 FIXED_TIMESTEP_units
              g n1 g1 ua Hd1 Ha Hlt Hex1 H1 Hua)
    as (t1 & Ht1 & Hu1 & Ha1 & Hlt1).
  destruct (game_loops_exact_units _ fuel2 deltas2 FIXED_TIMESTEP_units
              g n2 g2 ua Hd2 Ha Hlt Hex2 H2 Hua)
    as (t2 & Ht2 & Hu2 & Ha2 & Hlt2).
  assert (t1 = t2) by congruence. subst t2.
  destruct (ltb_units _ _ _ Ha1 FIXED_TIMESTEP_bounded Hlt1) as (r1 & Hr1 & B1).
  destruct (ltb_units _ _ _ Ha2 FIXED_TIMESTEP_bounded Hlt2) as (r2 & Hr2 & B2).
  rewrite Hr1 in Hu1. rewrite Hr2 in Hu2.
  assert (E1 : r1 = ua + t1 - Z.of_nat n1 * (Zpos 8947813 * 2 ^ (-29 + 149)))
    by congruence.
  assert (E2 : r2 = ua + t1 - Z.of_nat n2 * (Zpos 8947813 * 2 ^ (-29 + 149)))
    by congruence.
  clear Hu1 Hu2.
  assert (Hn : n1 = n2).
  { set (U := Zpos 8947813 * 2 ^ (-29 + 149)) in *.
    destruct (Z.lt_trichotomy (Z.of_nat n1) (Z.of_nat n2)) as [L|[L|L]];
      [exfalso; nia | lia | exfalso; nia]. }
  subst n2. split; [reflexivity|].
  apply game_loops_steps in H1. apply game_loops_steps in H2.
  split; [exact H1|].
  assert (Hacc : F32.exact_units (g_time_accumulator g1)
                 = F32.exact_units (g_time_accumulator g2))
    by (rewrite Hr1, Hr2; f_equal; lia).
  repeat split; try exact Hacc; rewrite H1, H2; reflexivity.
Qed.

(** *** Termination *)

Lemma game_loop_while_more_fuel (fuel : nat) : forall d g r,
  game_loop_while integrate fuel d g = Some r ->
  game_loop_while integrate (S fuel) d g = Some r.
Proof.
  induction fuel as [|fuel IH]; intros d g r.
  - cbn [game_loop_while].
    destruct (F32.geb d FIXED_TIMESTEP); [discriminate | auto].
  - intros H. cbn [game_loop_while] in H.
    change (game_loop_while integrate (S (S fuel)) d g)
      with (if F32.geb d FIXED_TIMESTEP
            then match game_loop_while integrate (S fuel)
                         (F32.sub d FIXED_TIMESTEP)
                         (physics_step integrate FIXED_TIMESTEP g) with
                 | Some (n, d', g') => Some (S n, d', g')
                 | None => None
                 end
            else Some (0%nat, d, g)).
    destruct (F32.geb d FIXED_TIMESTEP); [|exact H].
    destruct (game_loop_while integrate fuel (F32.sub d FIXED_TIMESTEP)
                (physics_step integrate FIXED_TIMESTEP g)) as [r1|] eqn:E;
      [|discriminate].
    rewrite (IH _ _ _ E). exact H.
Qed.

Lemma game_loop_while_returns (zx : Z) :
  0 <= zx -> forall d g,
  nonneg d = true -> F32.exact_units d = Some zx -> zx < 2 ^ 167 ->
  exists fuel n d' g', game_loop_while integrate fuel d g = Some (n, d', g').
Proof.
  intros Hz. pattern zx. apply Zlt_0_ind; [|exact Hz]. clear zx Hz.
  intros zx IH _ d g Hd Hzx Hbig.
  destruct (F32.geb d FIXED_TIMESTEP) eqn:Hge.
  - assert (Vd : F32.valid d = true)
      by (unfold nonneg in Hd; apply andb_true_iff in Hd; tauto).
    destruct (sub_decreases d 8947813 (-29) 18 zx Vd FIXED_TIMESTEP_bounded
                Hge Hzx ltac:(lia) Hbig ltac:(vm_compute; reflexivity))
      as (z & Hz1 & Hz2).
    destruct (IH z Hz2 (F32.sub d FIXED_TIMESTEP)
                (physics_step integrate FIXED_TIMESTEP g))
      as (fuel & n & d' & g' & E); [|exact Hz1|lia|].
    + apply sub_nonneg; [exact Vd | exact FIXED_TIMESTEP_bounded | exact Hge].
    + exists (S fuel), (S n), d', g'. cbn [game_loop_while].
      rewrite Hge, E. reflexivity.
  - exists 0%nat, 0%nat, d, g. cbn [game_loop_while]. rewrite Hge. reflexivity.
Qed.

(** [game_loop] returns on every accumulated time below [2^18] seconds:
    there is an amount of fuel from which on the model yields the same
    result. *)
Theorem game_loop_returns (delta_time : float) (g : Globals) :
  nonneg delta_time = true -> nonneg (g_time_accumulator g) = true ->
  F32.ltb (F32.add delta_time (g_time_accumulator g)) LONGEST_FRAME = true ->
  exists fuel n g', forall extra,
    game_loop integrate (fuel + extra) delta_time g = Some (n, g').
Proof.
  intros Hd Ha Hlt.
  pose proof (add_nonneg _ _ Hd Ha) as Hsum.
  destruct (below_LONGEST_FRAME _ Hsum Hlt) as (z & Hz & Hz0 & Hz1).
  unfold game_loop.
  destruct (F32.ltb (F32.add delta_time (g_time_accumulator g)) FIXED_TIMESTEP).
  - exists 0%nat. eexists. eexists. intros extra. reflexivity.
  - destruct (game_loop_while_returns z Hz0 _ g Hsum Hz Hz1)
      as (fuel & n & d' & g' & E).
    exists fuel, n, (set_time_accumulator g' d'). intros extra.
    assert (E' : game_loop_while integrate (fuel + extra)
                   (F32.add delta_time (g_time_accumulator g)) g
                 = Some (n, d', g')).
    { induction extra as [|extra IHe].
      - rewrite Nat.add_0_r. exact E.
      - rewrite Nat.add_succ_r. apply game_loop_while_more_fuel. exact IHe. }
    rewrite E'. reflexivity.
Qed.

End Driver.

(** ** The input mapper

    Everything in this section holds for any values [left_component] and
    [right_component] that [move_left] and [move_right] write. *)

Section InputMapper.

Variable left_component : float.
Variable right_component : float.

Lemma handle_event_game_state (g : Globals) (event : SDL_Event) :
  g_game_state (handle_event g event) = g_game_state g.
Proof.
  unfold handle_event.
  destruct ((event_type event =? SDL_QUIT) || (event_type event =? SDL_WINDOWEVENT_CLOSE));
    [reflexivity|].
  destruct (event_type event =? SDL_KEYDOWN); [|reflexivity].
  destruct (event_key_sym event =? SDLK_q); reflexivity.
Qed.

Lemma handle_event_flags (g : Globals) (event : SDL_Event) :
  g_win (handle_event g event) = g_win g
  /\ g_loss (handle_event g event) = g_loss g
  /\ g_time_accumulator (handle_event g event) = g_time_accumulator g
  /\ g_previous_ticks (handle_event g event) = g_previous_ticks g.
Proof.
  unfold handle_event.
  destruct ((event_type event =? SDL_QUIT) || (event_type event =? SDL_WINDOWEVENT_CLOSE));
    [repeat split|].
  destruct (event_type event =? SDL_KEYDOWN); [|repeat split].
  destruct (event_key_sym event =? SDLK_q); repeat split.
Qed.

Lemma poll_events_game_state (events : list SDL_Event) : forall g,
  g_game_state (fold_left handle_event events g) = g_game_state g.
Proof.
  induction events as [|ev rest IH]; intros g; simpl; [reflexivity|].
  rewrite IH. apply handle_event_game_state.
Qed.

Lemma poll_events_flags (events : list SDL_Event) : forall g,
  g_win (fold_left handle_event events g) = g_win g
  /\ g_loss (fold_left handle_event events g) = g_loss g
  /\ g_time_accumulator (fold_left handle_event events g) = g_time_accumulator g
  /\ g_previous_ticks (fold_left handle_event events g) = g_previous_ticks g.
Proof.
  induction events as [|ev rest IH]; intros g; simpl; [repeat split|].
  destruct (IH (handle_event g ev)) as (-> & -> & -> & ->).
  apply handle_event_flags.
Qed.

(** The intent [process_input] leaves behind just before its final [if],
    as a function of the keyboard alone. *)
Lemma steered_intent (events : list SDL_Event) (key_state : KeyState) (g : Globals) :
  let p := player (g_game_state
                     (steer left_component right_component key_state
                        (fold_left handle_event events (reset_intent g)))) in
  (m_movement p, m_booster_active p) =
  if key_state SDL_SCANCODE_UP || key_state SDL_SCANCODE_W then (vec3_zero, true)
  else if key_state SDL_SCANCODE_LEFT || key_state SDL_SCANCODE_A
       then (Vec3 left_component F32.zero F32.zero, false)
  else if key_state SDL_SCANCODE_RIGHT || key_state SDL_SCANCODE_D
       then (Vec3 right_component F32.zero F32.zero, false)
  else (vec3_zero, false).
Proof.
  unfold steer. rewrite poll_events_game_state.
  destruct (key_state SDL_SCANCODE_UP || key_state SDL_SCANCODE_W); [reflexivity|].
  destruct (key_state SDL_SCANCODE_LEFT || key_state SDL_SCANCODE_A); [reflexivity|].
  destruct (key_state SDL_SCANCODE_RIGHT || key_state SDL_SCANCODE_D); [reflexivity|].
  rewrite poll_events_game_state. reflexivity.
Qed.

Lemma at_most_unit_zero : at_most_unit vec3_zero = vec3_zero.
Proof. reflexivity. Qed.

(** The final [if] touches the movement of the player and nothing else. *)
Lemma process_input_fields
    (events : list SDL_Event) (key_state : KeyState) (g : Globals) :
  forall s g',
  s = steer left_component right_component key_state
        (fold_left handle_event events (reset_intent g)) ->
  g' = process_input left_component right_component events key_state g ->
  platforms (g_game_state g') = platforms (g_game_state s)
  /\ g_win g' = g_win s /\ g_loss g' = g_loss s
  /\ g_time_accumulator g' = g_time_accumulator s
  /\ g_previous_ticks g' = g_previous_ticks s
  /\ g_text_texture_id g' = g_text_texture_id s
  /\ g_game_is_running g' = g_game_is_running s
  /\ m_booster_active (player (g_game_state g'))
     = m_booster_active (player (g_game_state s))
  /\ m_movement (player (g_game_state g'))
     = at_most_unit (m_movement (player (g_game_state s)))
  /\ (forall v, set_movement (player (g_game_state g')) v
                = set_movement (player (g_game_state s)) v).
Proof.
  intros s g' -> ->. unfold process_input, at_most_unit, moves_too_fast.
  destruct (F32.gtb
              (glm.length
                 (m_movement
                    (player
                       (g_game_state
                          (steer left_component right_component key_state
                             (fold_left handle_event events (reset_intent g)))))))
              F32.one); repeat split.
Qed.

(** Whatever the intent was before the call: [process_input] overwrites
    it before it reads it. *)
Lemma process_input_forgets_intent
    (events : list SDL_Event) (key_state : KeyState) (g : Globals)
    (v : vec3) (b : bool) :
  process_input left_component right_component events key_state
    (set_player g
       (set_booster_active (set_movement (player (g_game_state g)) v) b))
  = process_input left_component right_component events key_state g.
Proof. reflexivity. Qed.

(** C6.  [process_input] begins by resetting the movement intent to the
    zero vector and the booster flag to false: the intent it leaves does
    not depend on the intent it finds, and with none of the six keys held
    it leaves the zero vector and a cleared flag.  If up or W is held the
    booster flag is set and the movement stays the zero vector whatever
    left, right, A and D are; if neither is held the booster flag stays
    false.  Thrust and steering thus exclude each other within a frame. *)
Theorem thrust_excludes_steering
    (events : list SDL_Event) (key_state : KeyState) (g : Globals) :
  let p := player (g_game_state
             (process_input left_component right_component events key_state g)) in
  (forall (v : vec3) (b : bool),
     process_input left_component right_component events key_state
       (set_player g
          (set_booster_active (set_movement (player (g_game_state g)) v) b))
     = process_input left_component right_component events key_state g)
  /\ (key_state SDL_SCANCODE_UP || key_state SDL_SCANCODE_W
      || (key_state SDL_SCANCODE_LEFT || key_state SDL_SCANCODE_A)
      || (key_state SDL_SCANCODE_RIGHT || key_state SDL_SCANCODE_D) = false ->
      m_movement p = vec3_zero /\ m_booster_active p = false)
  /\ (key_state SDL_SCANCODE_UP || key_state SDL_SCANCODE_W = true ->
      m_booster_active p = true /\ m_movement p = vec3_zero)
  /\ (key_state SDL_SCANCODE_UP || key_state SDL_SCANCODE_W = false ->
      m_booster_active p = false)
  /\ (m_booster_active p = true -> m_movement p = vec3_zero).
Proof.
  cbv zeta.
  split; [intros v b; apply process_input_forgets_intent|].
  destruct (process_input_fields events key_state g _ _ eq_refl eq_refl)
    as (_ & _ & _ & _ & _ & _ & _ & -> & -> & _).
  pose proof (steered_intent events key_state g) as H. cbv zeta in H.
  destruct (key_state SDL_SCANCODE_UP || key_state SDL_SCANCODE_W);
    [|destruct (key_state SDL_SCANCODE_LEFT || key_state SDL_SCANCODE_A);
      [|destruct (key_state SDL_SCANCODE_RIGHT || key_state SDL_SCANCODE_D)]];
    injection H as -> ->; cbn [orb]; rewrite ?at_most_unit_zero;
    repeat split; intros; congruence.
Qed.

End InputMapper.

(** ** Frames *)

Section Frames.

Variable integrate : float -> Entity -> Entity.
Variable left_component : float.
Variable right_component : float.

Lemma steps_keep_platforms (n : nat) (g : Globals) :
  platforms (g_game_state (Nat.iter n (physics_step integrate FIXED_TIMESTEP) g))
  = platforms (g_game_state g).
Proof.
  induction n as [|n IH]; [reflexivity|]. simpl.
  destruct (physics_step_keeps integrate FIXED_TIMESTEP
              (Nat.iter n (physics_step integrate FIXED_TIMESTEP) g)) as (-> & _).
  exact IH.
Qed.

Lemma game_loop_keeps_platforms (fuel : nat) (d : float) (g : Globals)
    (n : nat) (g' : Globals) :
  game_loop integrate fuel d g = Some (n, g') ->
  platforms (g_game_state g') = platforms (g_game_state g).
Proof.
  intros H. apply game_loop_steps in H. rewrite H.
  cbn [set_time_accumulator g_game_state]. apply steps_keep_platforms.
Qed.

Lemma process_input_keeps (events : list SDL_Event) (key_state : KeyState)
    (g : Globals) :
  platforms (g_game_state (process_input
      left_component right_component events key_state g))
  = platforms (g_game_state g)
  /\ g_win (process_input left_component right_component events key_state g) = g_win g
  /\ g_loss (process_input
      left_component right_component events key_state g) = g_loss g.
Proof.
  destruct (process_input_fields left_component right_component
              events key_state g _ _ eq_refl eq_refl) as (-> & -> & -> & _).
  unfold steer.
  destruct (poll_events_flags events (reset_intent g)) as (Hw & Hl & _).
  pose proof (poll_events_game_state events (reset_intent g)) as Hs.
  destruct (key_state SDL_SCANCODE_UP || key_state SDL_SCANCODE_W);
    [|destruct (key_state SDL_SCANCODE_LEFT || key_state SDL_SCANCODE_A);
      [|destruct (key_state SDL_SCANCODE_RIGHT || key_state SDL_SCANCODE_D)]];
    cbn [set_player g_game_state platforms g_win g_loss];
    rewrite ?Hs, ?Hw, ?Hl; repeat split.
Qed.

Lemma update_keeps_platforms (fuel : nat) (ticks : Z) (g : Globals)
    (n : nat) (g' : Globals) :
  update integrate fuel ticks g = Some (n, g') ->
  platforms (g_game_state g') = platforms (g_game_state g).
Proof.
  unfold update. cbn [set_previous_ticks g_win g_loss].
  destruct (negb (g_win g) && negb (g_loss g)).
  - intros H. apply game_loop_keeps_platforms in H. exact H.
  - intros [= _ <-]. reflexivity.
Qed.

Lemma main_loop_keeps_platforms (fuel : nat) (inputs : list FrameInput) :
  forall g n g',
  main_loop integrate left_component right_component fuel inputs g = Some (n, g') ->
  platforms (g_game_state g') = platforms (g_game_state g).
Proof.
  induction inputs as [|i rest IH]; intros g n g'; simpl.
  - intros [= _ <-]. reflexivity.
  - destruct (g_game_is_running g); [|intros [= _ <-]; reflexivity].
    unfold frame.
    destruct (update integrate fuel (frame_ticks i)
                (process_input
                    left_component right_component (frame_events i) (frame_keys i) g))
      as [[k g1]|] eqn:E1; [|discriminate].
    destruct (main_loop integrate
        left_component right_component fuel rest g1) as [[m g2]|] eqn:E2;
      [|discriminate].
    intros [= _ <-]. apply IH in E2. apply update_keeps_platforms in E1.
    rewrite E2, E1. apply process_input_keeps.
Qed.

(** *** The terminal flags are only ever raised *)

Lemma resolve_collisions_raises (e : Entity) (ps : list Entity) (won loss : bool) :
  (won = true -> fst (resolve_collisions e ps won loss) = true)
  /\ (loss = true -> snd (resolve_collisions e ps won loss) = true).
Proof.
  induction ps as [|p rest IH]; simpl; [auto|].
  destruct (check_collision e p); [|exact IH].
  destruct (m_entity_type p); simpl; auto.
Qed.

Lemma physics_step_raises (dt : float) (g : Globals) :
  (g_win g = true -> g_win (physics_step integrate dt g) = true)
  /\ (g_loss g = true -> g_loss (physics_step integrate dt g) = true).
Proof.
  unfold physics_step, Entity_update.
  destruct (m_entity_type (player (g_game_state g))); simpl; auto.
  pose proof (resolve_collisions_raises
                (integrate dt (player (g_game_state g)))
                (firstn PLATFORM_COUNT (platforms (g_game_state g)))
                (g_win g) (g_loss g)) as H.
  destruct (resolve_collisions _ _ _ _) as [w l]. exact H.
Qed.

Lemma steps_raise (n : nat) (g : Globals) :
  (g_win g = true ->
   g_win (Nat.iter n (physics_step integrate FIXED_TIMESTEP) g) = true)
  /\ (g_loss g = true ->
      g_loss (Nat.iter n (physics_step integrate FIXED_TIMESTEP) g) = true).
Proof.
  induction n as [|n [IHw IHl]]; [auto|]. simpl.
  destruct (physics_step_raises FIXED_TIMESTEP
              (Nat.iter n (physics_step integrate FIXED_TIMESTEP) g)) as [Hw Hl].
  auto.
Qed.

Lemma game_loop_raises (fuel : nat) (d : float) (g : Globals)
    (n : nat) (g' : Globals) :
  game_loop integrate fuel d g = Some (n, g') ->
  (g_win g = true -> g_win g' = true) /\ (g_loss g = true -> g_loss g' = true).
Proof.
  intros H. apply game_loop_steps in H. rewrite H.
  cbn [set_time_accumulator g_win g_loss]. apply steps_raise.
Qed.

Lemma update_terminal (fuel : nat) (ticks : Z) (g : Globals) :
  g_win g || g_loss g = true ->
  update integrate fuel ticks g
  = Some (0%nat,
          set_previous_ticks g
            (F32.div (F32.of_int ticks) MILLISECONDS_IN_SECOND)).
Proof.
  intros H. unfold update. cbn [set_previous_ticks g_win g_loss].
  destruct (g_win g), (g_loss g); try discriminate; reflexivity.
Qed.

Lemma update_raises (fuel : nat) (ticks : Z) (g : Globals)
    (n : nat) (g' : Globals) :
  update integrate fuel ticks g = Some (n, g') ->
  (g_win g = true -> g_win g' = true) /\ (g_loss g = true -> g_loss g' = true).
Proof.
  unfold update. cbn [set_previous_ticks g_win g_loss].
  destruct (negb (g_win g) && negb (g_loss g)).
  - intros H. apply game_loop_raises in H. exact H.
  - intros [= _ <-]. auto.
Qed.

Lemma main_loop_raises (fuel : nat) (inputs : list FrameInput) :
  forall g n g',
  main_loop integrate left_component right_component fuel inputs g = Some (n, g') ->
  (g_win g = true -> g_win g' = true) /\ (g_loss g = true -> g_loss g' = true).
Proof.
  induction inputs as [|i rest IH]; intros g n g'; simpl.
  - intros [= _ <-]. auto.
  - destruct (g_game_is_running g); [|intros [= _ <-]; auto].
    unfold frame.
    destruct (update integrate fuel (frame_ticks i)
                (process_input
                    left_component right_component (frame_events i) (frame_keys i) g))
      as [[k g1]|] eqn:E1; [|discriminate].
    destruct (main_loop integrate
        left_component right_component fuel rest g1) as [[m g2]|] eqn:E2;
      [|discriminate].
    intros [= _ <-]. apply IH in E2. apply update_raises in E1.
    destruct (process_input_keeps (frame_events i) (frame_keys i) g)
      as (_ & Hw & Hl).
    rewrite Hw, Hl in E1. tauto.
Qed.

Lemma main_loop_terminal (fuel : nat) (inputs : list FrameInput) :
  forall g n g',
  g_win g || g_loss g = true ->
  main_loop integrate left_component right_component fuel inputs g = Some (n, g') ->
  n = 0%nat /\ g_win g' = g_win g /\ g_loss g' = g_loss g
  /\ g_time_accumulator g' = g_time_accumulator g.
Proof.
  induction inputs as [|i rest IH]; intros g n g' Ht; simpl.
  - intros [= <- <-]. auto.
  - destruct (g_game_is_running g); [|intros [= <- <-]; auto].
    unfold frame.
    destruct (process_input_keeps (frame_events i) (frame_keys i) g)
      as (_ & Hw & Hl).
    rewrite update_terminal by (rewrite Hw, Hl; exact Ht).
    match goal with
    | |- context [main_loop integrate left_component right_component fuel rest ?g1] =>
        destruct (main_loop integrate
            left_component right_component fuel rest g1) as [[m g2]|] eqn:E2;
          [|discriminate];
        apply IH in E2;
          [|cbn [set_previous_ticks g_win g_loss]; rewrite Hw, Hl; exact Ht]
    end.
    intros [= <- <-].
    destruct E2 as (-> & -> & -> & ->).
    cbn [set_previous_ticks g_win g_loss g_time_accumulator].
    rewrite Hw, Hl.
    destruct (process_input_fields left_component right_component
                (frame_events i) (frame_keys i) g _ _ eq_refl eq_refl)
      as (_ & _ & _ & -> & _).
    unfold steer.
    destruct (poll_events_flags (frame_events i) (reset_intent g))
      as (_ & _ & Ha & _).
    repeat split.
    destruct (frame_keys i SDL_SCANCODE_UP || frame_keys i SDL_SCANCODE_W);
      [|destruct (frame_keys i SDL_SCANCODE_LEFT || frame_keys i SDL_SCANCODE_A);
        [|destruct (frame_keys i SDL_SCANCODE_RIGHT || frame_keys i SDL_SCANCODE_D)]];
      cbn [set_player g_time_accumulator]; rewrite ?Ha; reflexivity.
Qed.

(** C2.  Once [g_win] or [g_loss] is true, a call of [update] runs no
    physics step and leaves the player, the platforms, both flags and the
    accumulator as they were; over any further frames no physics step is
    run and both flags keep their values.  No part of a run clears a flag
    that is set: neither the frames of [main] nor the physics steps of a
    single [game_loop] call. *)
Theorem terminal_flags_freeze (fuel : nat) (g : Globals) :
  (g_win g || g_loss g = true ->
   (forall ticks, exists g',
      update integrate fuel ticks g = Some (0%nat, g')
      /\ g_game_state g' = g_game_state g
      /\ g_win g' = g_win g /\ g_loss g' = g_loss g
      /\ g_time_accumulator g' = g_time_accumulator g)
   /\ (forall inputs n g',
         main_loop integrate
             left_component right_component fuel inputs g = Some (n, g') ->
         n = 0%nat /\ g_win g' = g_win g /\ g_loss g' = g_loss g))
  /\ (forall inputs n g',
        main_loop integrate
            left_component right_component fuel inputs g = Some (n, g') ->
        (g_win g = true -> g_win g' = true)
        /\ (g_loss g = true -> g_loss g' = true))
  /\ (forall delta_time n g',
        game_loop integrate fuel delta_time g = Some (n, g') ->
        (g_win g = true -> g_win g' = true)
        /\ (g_loss g = true -> g_loss g' = true)).
Proof.
  split; [|split].
  - intros Ht. split.
    + intros ticks. eexists. split; [apply update_terminal; exact Ht|].
      repeat split.
    + intros inputs n g' H.
      destruct (main_loop_terminal fuel inputs g n g' Ht H) as (? & ? & ? & _).
      auto.
  - intros inputs n g'. apply main_loop_raises.
  - intros d n g'. apply game_loop_raises.
Qed.

(** C3.  In a physics step in which the box of the player, after
    integration, overlaps the DEATH_PLATFORM at index 0 and the
    WIN_PLATFORM at index 1, the platform at index 0 decides: [g_loss]
    becomes true and [g_win] stays false. *)
Theorem first_overlapping_platform_decides
    (g : Globals) (p0 p1 : Entity) (rest : list Entity) :
  platforms (g_game_state g) = p0 :: p1 :: rest ->
  m_entity_type (player (g_game_state g)) = PLAYER ->
  m_entity_type p0 = DEATH_PLATFORM ->
  m_entity_type p1 = WIN_PLATFORM ->
  check_collision (integrate FIXED_TIMESTEP (player (g_game_state g))) p0 = true ->
  check_collision (integrate FIXED_TIMESTEP (player (g_game_state g))) p1 = true ->
  g_win g = false ->
  g_loss (physics_step integrate FIXED_TIMESTEP g) = true
  /\ g_win (physics_step integrate FIXED_TIMESTEP g) = false
  /\ player (g_game_state (physics_step integrate FIXED_TIMESTEP g))
     = integrate FIXED_TIMESTEP (player (g_game_state g)).
Proof.
  intros Hps Hpl Hd Hw H0 H1 Hwin.
  unfold physics_step, Entity_update. rewrite Hpl, Hps.
  cbn [PLATFORM_COUNT firstn resolve_collisions].
  rewrite H0, Hd. cbn. auto.
Qed.

End Frames.

(** ** Start-up *)

Section Startup.

Variable Entity_default : Entity.
Variable integrate : float -> Entity -> Entity.
Variable left_component : float.
Variable right_component : float.
Variable stbi_load : string -> option Image.
Variable RNG : Type.
Variable uniform_int_distribution : Z -> Z -> RNG -> Z * RNG.

(** C8.  For a path whose image cannot be loaded, [load_texture] makes one
    attempt to load it, logs the message, and aborts: it does not return
    to its caller, no texture is created, and nothing else happens. *)
Theorem load_texture_aborts (filepath : string) (h : Host RNG) :
  stbi_load filepath = None ->
  exists h',
    load_texture stbi_load filepath h = Aborts h'
    /\ trace h' = trace h ++
         [eff_stbi_load filepath;
          eff_LOG "Unable to load image. Make sure the path is correct."]
    /\ textures h' = textures h
    /\ rng h' = rng h.
Proof.
  intros H. unfold load_texture. rewrite H. eexists. split; [reflexivity|].
  cbn. rewrite <- app_assoc. repeat split.
Qed.

Lemma load_texture_rng (filepath : string) (h h' : Host RNG) (t : GLuint) :
  load_texture stbi_load filepath h = Returns t h' -> rng h' = rng h.
Proof.
  unfold load_texture. destruct (stbi_load filepath); [|discriminate].
  intros [= _ <-]. reflexivity.
Qed.

Lemma replace_nth_length {A : Type} (x : A) (l : list A) : forall i,
  List.length (replace_nth i x l) = List.length l.
Proof.
  induction l as [|y t IH]; intros [|i]; simpl; try reflexivity.
  rewrite IH. reflexivity.
Qed.

Lemma nth_replace_nth_same {A : Type} (x d : A) (l : list A) : forall i,
  (i < List.length l)%nat -> nth i (replace_nth i x l) d = x.
Proof.
  induction l as [|y t IH]; intros [|i]; simpl; intros H; try lia; try reflexivity.
  apply IH. lia.
Qed.

Lemma nth_replace_nth_other {A : Type} (x d : A) (l : list A) : forall i j,
  i <> j -> nth j (replace_nth i x l) d = nth j l d.
Proof.
  induction l as [|y t IH]; intros [|i] [|j]; simpl; intros H;
    try reflexivity; try congruence.
  apply IH. congruence.
Qed.

Lemma initialise_platform_spec (i : nat) (g g' : Globals) (h h' : Host RNG) :
  initialise_platform Entity_default integrate stbi_load uniform_int_distribution
    i g h = Returns g' h' ->
  exists p,
    platforms (g_game_state g') = replace_nth i p (platforms (g_game_state g))
    /\ m_position p = rolled_position uniform_int_distribution i (rng h)
    /\ m_entity_type p = rolled_type uniform_int_distribution (rng h)
    /\ rng h' = snd (platform_rolls uniform_int_distribution (rng h)).
Proof.
  unfold initialise_platform, bind, draw, rolled_position, rolled_type,
    platform_rolls.
  destruct (uniform_int_distribution 0 1 (rng h)) as [r1 ra] eqn:E1.
  cbn [rng trace textures].
  destruct (uniform_int_distribution (-3) 1 ra) as [r2 rb] eqn:E2.
  match goal with
  | |- context [load_texture stbi_load ?f ?hh] =>
      destruct (load_texture stbi_load f hh) as [t h1|h1] eqn:EL
  end; [|discriminate].
  apply load_texture_rng in EL. cbn [rng] in EL.
  unfold Entity_update, ret.
  destruct (r1 =? 0)%Z; cbn [negb set_texture_id set_entity_type m_entity_type];
    intros [= <- <-]; eexists; (split; [reflexivity|]);
    repeat split; exact EL.
Qed.

Lemma initialise_platforms_spec (d : Entity) (todo : nat) : forall i g h g' h',
  initialise_platforms Entity_default integrate stbi_load
    uniform_int_distribution todo i g h = Returns g' h' ->
  List.length (platforms (g_game_state g'))
  = List.length (platforms (g_game_state g))
  /\ rng h' = rng_after uniform_int_distribution todo (rng h)
  /\ (forall j, (j < i)%nat ->
      nth j (platforms (g_game_state g')) d
      = nth j (platforms (g_game_state g)) d)
  /\ (forall k, (k < todo)%nat ->
      (i + k < List.length (platforms (g_game_state g)))%nat ->
      let p := nth (i + k) (platforms (g_game_state g')) d in
      let r := rng_after uniform_int_distribution k (rng h) in
      m_position p = rolled_position uniform_int_distribution (i + k) r
      /\ m_entity_type p = rolled_type uniform_int_distribution r).
Proof.
  induction todo as [|todo IH]; intros i g h g' h'.
  - simpl. intros [= <- <-]. repeat split; intros; lia.
  - cbn [initialise_platforms]. unfold bind at 1.
    destruct (initialise_platform Entity_default integrate stbi_load
                uniform_int_distribution i g h) as [g1 h1|h1] eqn:E1;
      [|discriminate].
    intros E2.
    destruct (initialise_platform_spec i g g1 h h1 E1)
      as (p & Hps & Hpos & Hty & Hrng).
    destruct (IH (S i) g1 h1 g' h' E2) as (Hlen & Hr & Hlow & Hhigh).
    rewrite Hps, replace_nth_length in Hlen.
    split; [exact Hlen|]. split; [|split].
    + rewrite Hr, Hrng. reflexivity.
    + intros j Hj. rewrite Hlow by lia. rewrite Hps.
      apply nth_replace_nth_other. lia.
    + intros [|k] Hk Hin; cbv zeta.
      * rewrite Nat.add_0_r. rewrite Hlow by lia. rewrite Hps.
        rewrite nth_replace_nth_same by lia. simpl. split; assumption.
      * replace (i + S k)%nat with (S i + k)%nat by lia.
        cbn [rng_after]. rewrite <- Hrng.
        apply Hhigh; [lia|]. rewrite Hps, replace_nth_length. lia.
Qed.

Lemma initialise_spec (d : Entity) (h h' : Host RNG) (g : Globals) :
  initialise Entity_default integrate stbi_load uniform_int_distribution h
  = Returns g h' ->
  List.length (platforms (g_game_state g)) = PLATFORM_COUNT
  /\ (forall j, (j < PLATFORM_COUNT)%nat ->
      let p := nth j (platforms (g_game_state g)) d in
      let r := rng_after uniform_int_distribution j (rng h) in
      m_position p = rolled_position uniform_int_distribution j r /\ m_entity_type p = rolled_type uniform_int_distribution r).
Proof.
  unfold initialise. unfold bind at 1.
  destruct (load_texture stbi_load SPRITESHEET_FILEPATH h) as [t0 h0|h0] eqn:E0;
    [|discriminate].
  apply load_texture_rng in E0.
  unfold bind at 1.
  match goal with
  | |- context [initialise_platforms _ _ _ _ _ _ ?g0 h0] =>
      destruct (initialise_platforms Entity_default integrate stbi_load
                  uniform_int_distribution PLATFORM_COUNT 0 g0 h0)
        as [g1 h1|h1] eqn:E1; [|discriminate];
      pose proof (initialise_platforms_spec d PLATFORM_COUNT 0 g0 h0 g1 h1 E1)
        as (Hlen & _ & _ & Hhigh)
  end.
  unfold bind, ret.
  destruct (load_texture stbi_load FONT_SPRITE_FILEPATH h1) as [t1 h2|h2];
    [|discriminate].
  intros [= <- _]. cbn [set_text_texture_id g_game_state].
  cbn [globals_at_start g_game_state platforms] in Hlen, Hhigh.
  rewrite repeat_length in Hlen, Hhigh.
  split; [exact Hlen|].
  intros j Hj. specialize (Hhigh j Hj Hj). rewrite E0 in Hhigh. exact Hhigh.
Qed.

(** C7.  When [initialise] returns there are exactly PLATFORM_COUNT
    platforms; the platform of index [j] has the position and the type
    that the random draws of iteration [j] of the loop gave it; and no
    frame of the loop of [main] changes the platform array, so that none
    is added, removed, moved or retyped afterwards. *)
Theorem platforms_created_once_and_fixed
    (d : Entity) (h h' : Host RNG) (g : Globals) :
  initialise Entity_default integrate stbi_load uniform_int_distribution h
  = Returns g h' ->
  List.length (platforms (g_game_state g)) = PLATFORM_COUNT
  /\ (forall j, (j < PLATFORM_COUNT)%nat ->
      let p := nth j (platforms (g_game_state g)) d in
      let r := rng_after uniform_int_distribution j (rng h) in
      m_position p = rolled_position uniform_int_distribution j r
      /\ m_entity_type p = rolled_type uniform_int_distribution r)
  /\ (forall fuel inputs n g',
        main_loop integrate
            left_component right_component fuel inputs g = Some (n, g') ->
        platforms (g_game_state g') = platforms (g_game_state g)).
Proof.
  intros H.
  destruct (initialise_spec d h h' g H) as [Hlen Hroll].
  split; [exact Hlen|]. split; [exact Hroll|].
  intros fuel inputs n g'. apply main_loop_keeps_platforms.
Qed.

End Startup.

(** ** When [game_loop] does not return *)

Section Hang.

Variable integrate : float -> Entity -> Entity.

Lemma game_loop_while_stuck (d : float) :
  F32.geb d FIXED_TIMESTEP = true -> F32.sub d FIXED_TIMESTEP = d ->
  forall fuel g, game_loop_while integrate fuel d g = None.
Proof.
  intros Hge Hsub. induction fuel as [|fuel IH]; intros g;
    cbn [game_loop_while]; rewrite Hge; [reflexivity|].
  rewrite Hsub, IH. reflexivity.
Qed.

(** [game_loop] does not return when the accumulated time is so large that
    subtracting FIXED_TIMESTEP from it rounds back to it: the loop
    condition then holds for ever, and no amount of fuel lets the model
    give a result.  An accumulated time of [2^20] seconds is of this kind. *)
Theorem game_loop_never_returns (delta_time : float) (g : Globals) :
  let total := F32.add delta_time (g_time_accumulator g) in
  F32.geb total FIXED_TIMESTEP = true ->
  F32.sub total FIXED_TIMESTEP = total ->
  forall fuel, game_loop integrate fuel delta_time g = None.
Proof.
  cbv zeta. intros Hge Hsub fuel. unfold game_loop.
  assert (Hlt : F32.ltb (F32.add delta_time (g_time_accumulator g))
                  FIXED_TIMESTEP = false).
  { revert Hge. unfold F32.geb, F32.ltb, SFleb, SFltb.
    destruct (SFcompare FIXED_TIMESTEP
                (F32.add delta_time (g_time_accumulator g))) as [c|] eqn:E;
      [|discriminate].
    apply SFcompare_antisym in E. rewrite E.
    destruct c; try discriminate; reflexivity. }
  rewrite Hlt, game_loop_while_stuck by assumption. reflexivity.
Qed.

End Hang.

(** ** Text *)

Lemma length_list_ascii (text : string) :
  List.length (list_ascii_of_string text) = String.length text.
Proof. induction text as [|c rest IH]; simpl; congruence. Qed.

Lemma glyph_vertices_length (screen_size offset : float) :
  List.length (glyph_vertices screen_size offset) = 12%nat.
Proof. reflexivity. Qed.

Lemma glyph_texture_coordinates_length (index : Z) :
  List.length (glyph_texture_coordinates index) = 12%nat.
Proof. reflexivity. Qed.

Lemma text_buffers_length (char_is_signed : bool) (screen_size spacing : float)
    (text : list Ascii.ascii) : forall i,
  List.length (fst (text_buffers char_is_signed screen_size spacing i text))
  = (12 * List.length text)%nat
  /\ List.length (snd (text_buffers char_is_signed screen_size spacing i text))
     = (12 * List.length text)%nat.
Proof.
  induction text as [|c rest IH]; intros i; [split; reflexivity|].
  cbn [text_buffers].
  destruct (text_buffers char_is_signed screen_size spacing (i + 1) rest)
    as [vs ts] eqn:E.
  specialize (IH (i + 1)). rewrite E in IH. destruct IH as [IHv IHt].
  cbn [fst snd] in *.
  rewrite !length_app, glyph_vertices_length, glyph_texture_coordinates_length.
  cbn [List.length]. lia.
Qed.

Lemma to_int_small (z : Z) : 0 <= z <= INT_MAX -> to_int z = z.
Proof.
  unfold to_int, INT_MAX. intros H.
  rewrite Z.mod_small; [lia|]. change (2 ^ 31) with 2147483648.
  change (2 ^ 32) with 4294967296. lia.
Qed.

(** [draw_text] hands OpenGL two buffers of twelve numbers per character and
    asks for six vertices per character: for a text whose six-fold length
    fits an [int], the [count] vertices [glDrawArrays] reads are exactly
    the pairs the two buffers hold.  For the empty text the count is 0
    and both buffers are empty. *)
Theorem draw_text_buffers_fit (char_is_signed : bool) (font_texture_id : GLuint)
    (text : string) (screen_size spacing : float) (position : vec3) :
  Z.of_nat (String.length text) * 6 <= INT_MAX ->
  exists vertices texture_coordinates,
    draw_text char_is_signed font_texture_id text screen_size spacing position
    = call_glDrawArrays font_texture_id position vertices texture_coordinates
        (Z.of_nat (String.length text) * 6)
    /\ Z.of_nat (List.length vertices) = 2 * (Z.of_nat (String.length text) * 6)
    /\ Z.of_nat (List.length texture_coordinates)
       = 2 * (Z.of_nat (String.length text) * 6).
Proof.
  intros Hfit. unfold draw_text.
  destruct (text_buffers_length char_is_signed screen_size spacing
              (list_ascii_of_string text) 0) as [Hv Ht].
  destruct (text_buffers char_is_signed screen_size spacing 0
              (list_ascii_of_string text)) as [vs ts].
  cbn [fst snd] in Hv, Ht. rewrite length_list_ascii in *.
  exists vs, ts. rewrite to_int_small by lia.
  repeat split; lia.
Qed.

Lemma text_buffers_glyph (char_is_signed : bool) (screen_size spacing : float)
    (text : list Ascii.ascii) : forall (i : nat) (k : Z) (c : Ascii.ascii),
  nth_error text i = Some c ->
  firstn 12 (skipn (12 * i)
               (fst (text_buffers char_is_signed screen_size spacing k text)))
  = glyph_vertices screen_size
      (glyph_offset screen_size spacing (k + Z.of_nat i))
  /\ firstn 12 (skipn (12 * i)
                  (snd (text_buffers char_is_signed screen_size spacing k text)))
     = glyph_texture_coordinates (spritesheet_index char_is_signed c).
Proof.
  induction text as [|c0 rest IH]; intros i k c Hc.
  - destruct i; discriminate.
  - cbn [text_buffers].
    destruct (text_buffers char_is_signed screen_size spacing (k + 1) rest)
      as [vs ts] eqn:E.
    cbn [fst snd].
    destruct i as [|i].
    + injection Hc as <-. rewrite Z.add_0_r. split; reflexivity.
    + cbn [nth_error] in Hc.
      specialize (IH i (k + 1) c Hc). rewrite E in IH. cbn [fst snd] in IH.
      replace (12 * S i)%nat with (12 * i + 12)%nat by lia.
      rewrite <- !skipn_skipn.
      change (skipn 12 (glyph_vertices screen_size
                          (glyph_offset screen_size spacing k) ++ vs)) with vs.
      change (skipn 12 (glyph_texture_coordinates
                          (spritesheet_index char_is_signed c0) ++ ts)) with ts.
      replace (k + Z.of_nat (S i)) with (k + 1 + Z.of_nat i) by lia.
      exact IH.
Qed.

(** For a text whose length fits [int]: in the buffers of [draw_text] the
    character of index [i] owns the twelve numbers from position [12 * i]
    on: its quad is centred at [(screen_size + spacing) * i] and its
    texture cell is that of its own character code, whatever the other
    characters are. *)
Theorem draw_text_glyph (char_is_signed : bool) (font_texture_id : GLuint)
    (text : string) (screen_size spacing : float) (position : vec3)
    (i : nat) (c : Ascii.ascii) :
  Z.of_nat (String.length text) <= INT_MAX ->
  nth_error (list_ascii_of_string text) i = Some c ->
  exists vertices texture_coordinates count,
    draw_text char_is_signed font_texture_id text screen_size spacing position
    = call_glDrawArrays font_texture_id position vertices texture_coordinates
        count
    /\ firstn 12 (skipn (12 * i) vertices)
       = glyph_vertices screen_size
           (glyph_offset screen_size spacing (Z.of_nat i))
    /\ firstn 12 (skipn (12 * i) texture_coordinates)
       = glyph_texture_coordinates (spritesheet_index char_is_signed c).
Proof.
  intros _ Hc. unfold draw_text.
  pose proof (text_buffers_glyph char_is_signed screen_size spacing
                (list_ascii_of_string text) i 0 c Hc) as H.
  destruct (text_buffers char_is_signed screen_size spacing 0
              (list_ascii_of_string text)) as [vs ts].
  cbn [fst snd] in H. rewrite Z.add_0_l in H.
  exists vs, ts. eexists. split; [reflexivity | exact H].
Qed.

(** The texture cell of a character lies inside the font texture exactly
    when its character code converts to a non-negative [int]: always
    where plain [char] is unsigned, and for the characters below 128 where
    it is signed.  In that case the cell is, without rounding, the cell of
    column [code mod 16] and row [code / 16] of the 16 x 16 sheet (in units
    of [2^-149], one sixteenth is [2^145]). *)
Theorem glyph_cell_in_sheet (char_is_signed : bool) (c : Ascii.ascii) :
  let code := Z.of_N (Ascii.N_of_ascii c) in
  let index := spritesheet_index char_is_signed c in
  forallb in_unit_interval (glyph_texture_coordinates index)
  = negb (char_is_signed && (128 <=? code))
  /\ (char_is_signed && (128 <=? code) = false ->
      index = code
      /\ F32.exact_units (u_coordinate index) = Some (code mod 16 * 2 ^ 145)
      /\ F32.exact_units (v_coordinate index) = Some (code / 16 * 2 ^ 145)
      /\ F32.exact_units (F32.add (u_coordinate index) glyph_width)
         = Some ((code mod 16 + 1) * 2 ^ 145)
      /\ F32.exact_units (F32.add (v_coordinate index) glyph_height)
         = Some ((code / 16 + 1) * 2 ^ 145)).
Proof.
  destruct c as [b0 b1 b2 b3 b4 b5 b6 b7].
  destruct char_is_signed, b0, b1, b2, b3, b4, b5, b6, b7;
    (split; [vm_compute; reflexivity|]);
    intros H; try discriminate H; vm_compute; repeat split.
Qed.

(** ** More on the input mapper *)

Section MoreInput.

Variable left_component : float.
Variable right_component : float.

Lemma handle_event_running (g : Globals) (event : SDL_Event) :
  g_game_is_running (handle_event g event)
  = g_game_is_running g && negb (is_quit_event event).
Proof.
  unfold handle_event, is_quit_event.
  destruct (event_type event =? SDL_QUIT);
    destruct (event_type event =? SDL_WINDOWEVENT_CLOSE);
    destruct (event_type event =? SDL_KEYDOWN);
    destruct (event_key_sym event =? SDLK_q);
    cbn; rewrite ?andb_true_r, ?andb_false_r; reflexivity.
Qed.

Lemma poll_events_running (events : list SDL_Event) : forall g,
  g_game_is_running (fold_left handle_event events g)
  = g_game_is_running g && negb (existsb is_quit_event events).
Proof.
  induction events as [|ev rest IH]; intros g; simpl.
  - rewrite andb_true_r. reflexivity.
  - rewrite IH, handle_event_running, negb_orb, andb_assoc. reflexivity.
Qed.

Lemma handle_event_text_texture (g : Globals) (event : SDL_Event) :
  g_text_texture_id (handle_event g event) = g_text_texture_id g.
Proof.
  unfold handle_event.
  destruct ((event_type event =? SDL_QUIT) || (event_type event =? SDL_WINDOWEVENT_CLOSE));
    [reflexivity|].
  destruct (event_type event =? SDL_KEYDOWN); [|reflexivity].
  destruct (event_key_sym event =? SDLK_q); reflexivity.
Qed.

Lemma poll_events_text_texture (events : list SDL_Event) : forall g,
  g_text_texture_id (fold_left handle_event events g) = g_text_texture_id g.
Proof.
  induction events as [|ev rest IH]; intros g; simpl; [reflexivity|].
  rewrite IH. apply handle_event_text_texture.
Qed.

Lemma steer_globals (key_state : KeyState) (g : Globals) :
  g_game_is_running (steer
      left_component right_component key_state g) = g_game_is_running g
  /\ g_text_texture_id (steer
      left_component right_component key_state g) = g_text_texture_id g
  /\ g_previous_ticks (steer
      left_component right_component key_state g) = g_previous_ticks g
  /\ g_time_accumulator (steer
      left_component right_component key_state g) = g_time_accumulator g.
Proof.
  unfold steer.
  destruct (key_state SDL_SCANCODE_UP || key_state SDL_SCANCODE_W);
    [|destruct (key_state SDL_SCANCODE_LEFT || key_state SDL_SCANCODE_A);
      [|destruct (key_state SDL_SCANCODE_RIGHT || key_state SDL_SCANCODE_D)]];
    repeat split.
Qed.

(** [process_input] leaves [g_game_is_running] true exactly when it was
    true and none of the pending events is SDL_QUIT, an event of type
    SDL_WINDOWEVENT_CLOSE, or a key-down of [q]; keys held and other events,
    other key-downs included, never stop the loop, and nothing sets the
    flag back to true. *)
Theorem quit_events_stop_the_loop
    (events : list SDL_Event) (key_state : KeyState) (g : Globals) :
  g_game_is_running (process_input left_component right_component events key_state g)
  = g_game_is_running g && negb (existsb is_quit_event events).
Proof.
  destruct (process_input_fields left_component right_component
              events key_state g _ _ eq_refl eq_refl)
    as (_ & _ & _ & _ & _ & _ & -> & _).
  destruct (steer_globals key_state
              (fold_left handle_event events (reset_intent g))) as (-> & _).
  rewrite poll_events_running. reflexivity.
Qed.

(** The intent [process_input] leaves is a function of the keyboard
    snapshot alone, with the priority of the else-if chain: up or W gives
    thrust and no movement; otherwise left or A gives the movement
    [(left_component, 0, 0)] that [move_left] makes of the zeroed intent,
    also when right or D is held too; otherwise right or D gives
    [(right_component, 0, 0)]; otherwise nothing.  In the two steering
    cases the final [if] normalises the vector when it is longer than 1.
    Pending events and the previous intent have no influence. *)
Theorem intent_from_keys
    (events : list SDL_Event) (key_state : KeyState) (g : Globals) :
  let p := player (g_game_state
             (process_input left_component right_component events key_state g)) in
  (m_movement p, m_booster_active p) =
  if key_state SDL_SCANCODE_UP || key_state SDL_SCANCODE_W then (vec3_zero, true)
  else if key_state SDL_SCANCODE_LEFT || key_state SDL_SCANCODE_A
       then (at_most_unit (Vec3 left_component F32.zero F32.zero), false)
  else if key_state SDL_SCANCODE_RIGHT || key_state SDL_SCANCODE_D
       then (at_most_unit (Vec3 right_component F32.zero F32.zero), false)
  else (vec3_zero, false).
Proof.
  cbv zeta.
  destruct (process_input_fields left_component right_component
              events key_state g _ _ eq_refl eq_refl)
    as (_ & _ & _ & _ & _ & _ & _ & -> & -> & _).
  pose proof (steered_intent left_component right_component
                events key_state g) as H.
  cbv zeta in H.
  destruct (key_state SDL_SCANCODE_UP || key_state SDL_SCANCODE_W);
    [|destruct (key_state SDL_SCANCODE_LEFT || key_state SDL_SCANCODE_A);
      [|destruct (key_state SDL_SCANCODE_RIGHT || key_state SDL_SCANCODE_D)]];
    injection H as -> ->; rewrite ?at_most_unit_zero; reflexivity.
Qed.

(** [process_input] writes the intent and [g_game_is_running] and nothing
    else: the platforms, both terminal flags, the accumulator, the previous
    ticks and the font texture are as before, and the player differs from
    the old player in [m_movement] and [m_booster_active] at most. *)
Theorem process_input_writes_intent_only
    (events : list SDL_Event) (key_state : KeyState) (g : Globals) :
  let g' := process_input left_component right_component events key_state g in
  platforms (g_game_state g') = platforms (g_game_state g)
  /\ g_win g' = g_win g /\ g_loss g' = g_loss g
  /\ g_time_accumulator g' = g_time_accumulator g
  /\ g_previous_ticks g' = g_previous_ticks g
  /\ g_text_texture_id g' = g_text_texture_id g
  /\ forall (v : vec3) (b : bool),
       set_booster_active (set_movement (player (g_game_state g')) v) b
       = set_booster_active (set_movement (player (g_game_state g)) v) b.
Proof.
  cbv zeta.
  destruct (process_input_keeps left_component right_component
              events key_state g) as (Hp & Hw & Hl).
  split; [exact Hp|]. split; [exact Hw|]. split; [exact Hl|].
  destruct (process_input_fields left_component right_component
              events key_state g _ _ eq_refl eq_refl)
    as (_ & _ & _ & -> & -> & -> & _ & _ & _ & Hset).
  destruct (steer_globals key_state
              (fold_left handle_event events (reset_intent g)))
    as (_ & -> & -> & ->).
  destruct (poll_events_flags events (reset_intent g)) as (_ & _ & -> & ->).
  rewrite poll_events_text_texture.
  repeat split.
  intros v b. rewrite Hset. unfold steer. rewrite poll_events_game_state.
  destruct (key_state SDL_SCANCODE_UP || key_state SDL_SCANCODE_W);
    [|destruct (key_state SDL_SCANCODE_LEFT || key_state SDL_SCANCODE_A);
      [|destruct (key_state SDL_SCANCODE_RIGHT || key_state SDL_SCANCODE_D)]];
    try reflexivity.
  rewrite poll_events_game_state. reflexivity.
Qed.

End MoreInput.

(** ** More on start-up *)

Section MoreStartup.

Variable Entity_default : Entity.
Variable integrate : float -> Entity -> Entity.
Variable stbi_load : string -> option Image.
Variable RNG : Type.
Variable uniform_int_distribution : Z -> Z -> RNG -> Z * RNG.

Lemma load_texture_cases (filepath : string) (h : Host RNG) :
  (exists image t h',
      stbi_load filepath = Some image
      /\ load_texture stbi_load filepath h = Returns t h'
      /\ textures h' = textures h ++ [(t, image)]
      /\ rng h' = rng h)
  \/ (exists h',
        stbi_load filepath = None
        /\ load_texture stbi_load filepath h = Aborts h'
        /\ trace h' = trace h ++
             [eff_stbi_load filepath;
              eff_LOG "Unable to load image. Make sure the path is correct."]).
Proof.
  unfold load_texture. destruct (stbi_load filepath) as [image|].
  - left. exists image. eexists. eexists. split; [reflexivity|].
    split; [reflexivity|]. split; reflexivity.
  - right. eexists. split; [reflexivity|]. split; [reflexivity|].
    cbn. rewrite <- app_assoc. reflexivity.
Qed.

(** What one iteration of the platform loop does to everything. *)
Lemma initialise_platform_cases (i : nat) (g : Globals) (h : Host RNG) :
  let '(r1, r2, r') := platform_rolls uniform_int_distribution (rng h) in
  let t := if (r1 =? 0) then DEATH_PLATFORM else WIN_PLATFORM in
  (exists image tid g' h',
      stbi_load (platform_filepath t) = Some image
      /\ initialise_platform Entity_default integrate stbi_load
           uniform_int_distribution i g h = Returns g' h'
      /\ textures h' = textures h ++ [(tid, image)]
      /\ rng h' = r'
      /\ g' = set_platforms g
                (replace_nth i
                   (set_texture_id
                      (set_entity_type
                         (set_position
                            (nth i (platforms (g_game_state g)) Entity_default)
                            (Vec3 (F32.sub (F32.of_int (Z.of_nat i)) (F32.of_int 4))
                                  (F32.of_int r2) F32.zero))
                         t)
                      tid)
                   (platforms (g_game_state g))))
  \/ (exists h' before,
        stbi_load (platform_filepath t) = None
        /\ initialise_platform Entity_default integrate stbi_load
             uniform_int_distribution i g h = Aborts h'
        /\ trace h' = before ++
             [eff_stbi_load (platform_filepath t);
              eff_LOG "Unable to load image. Make sure the path is correct."]).
Proof.
  unfold platform_rolls, initialise_platform, bind, draw.
  destruct (uniform_int_distribution 0 1 (rng h)) as [r1 ra] eqn:E1.
  cbn [rng trace textures].
  destruct (uniform_int_distribution (-3) 1 ra) as [r2 rb] eqn:E2.
  set (h2 := Build_Host (trace h) (textures h) rb).
  set (t := if r1 =? 0 then DEATH_PLATFORM else WIN_PLATFORM).
  assert (Ht : (if negb (r1 =? 0) then WIN_PLATFORM else DEATH_PLATFORM) = t)
    by (subst t; destruct (r1 =? 0); reflexivity).
  rewrite Ht.
  assert (Hf : match t with
               | WIN_PLATFORM => WIN_PLATFORM_FILEPATH
               | _ => DEATH_PLATFORM_FILEPATH
               end = platform_filepath t) by reflexivity.
  rewrite Hf.
  destruct (load_texture_cases (platform_filepath t) h2)
    as [(image & tid & h' & Hl & -> & Htex & Hrng)
       |(h' & Hl & -> & Htr)].
  - left. exists image, tid. eexists. exists h'.
    split; [exact Hl|].
    assert (Hup : forall p, m_entity_type p = t ->
              Entity_update integrate F32.zero [] 0 p (g_win g) (g_loss g)
              = (p, g_win g, g_loss g)).
    { intros p Hp. unfold Entity_update. rewrite Hp.
      subst t. destruct (r1 =? 0); reflexivity. }
    rewrite Hup by reflexivity. unfold ret.
    split; [reflexivity|]. split; [exact Htex|]. split; [exact Hrng|].
    destruct g; reflexivity.
  - right. exists h', (trace h). split; [exact Hl|]. split; [reflexivity|].
    exact Htr.
Qed.

Lemma set_platforms_twice (g : Globals) (a b : list Entity) :
  set_platforms (set_platforms g a) b = set_platforms g b.
Proof. reflexivity. Qed.

Lemma initialise_platforms_cases (d : Entity) (todo : nat) : forall i g h,
  (exists g' h',
      initialise_platforms Entity_default integrate stbi_load
        uniform_int_distribution todo i g h = Returns g' h'
      /\ g' = set_platforms g (platforms (g_game_state g'))
      /\ List.length (platforms (g_game_state g'))
         = List.length (platforms (g_game_state g))
      /\ incl (textures h) (textures h')
      /\ (forall j, (j < i)%nat ->
          nth j (platforms (g_game_state g')) d
          = nth j (platforms (g_game_state g)) d)
      /\ (forall j, (i <= j < i + todo)%nat ->
          (j < List.length (platforms (g_game_state g)))%nat ->
          let p := nth j (platforms (g_game_state g')) d in
          m_entity_type p <> PLAYER
          /\ exists image,
               stbi_load (platform_filepath (m_entity_type p)) = Some image
               /\ In (m_texture_id p, image) (textures h')))
  \/ (exists h' before t,
        stbi_load (platform_filepath t) = None
        /\ initialise_platforms Entity_default integrate stbi_load
             uniform_int_distribution todo i g h = Aborts h'
        /\ trace h' = before ++
             [eff_stbi_load (platform_filepath t); eff_LOG LOAD_FAILED]).
Proof.
  induction todo as [|todo IH]; intros i g h.
  - left. exists g, h. split; [reflexivity|].
    split; [destruct g as [[? ?] ? ? ? ? ? ?]; reflexivity|].
    split; [reflexivity|]. split; [apply incl_refl|].
    split; [reflexivity|]. intros j Hj. lia.
  - assert (Hunf :
        initialise_platforms Entity_default integrate stbi_load
          uniform_int_distribution (S todo) i g h
        = match initialise_platform Entity_default integrate stbi_load
                  uniform_int_distribution i g h with
          | Returns g1 h1 =>
              initialise_platforms Entity_default integrate stbi_load
                uniform_int_distribution todo (S i) g1 h1
          | Aborts h1 => Aborts h1
          end) by reflexivity.
    rewrite Hunf. clear Hunf.
    pose proof (initialise_platform_cases i g h) as Hstep.
    destruct (platform_rolls uniform_int_distribution (rng h))
      as [[r1 r2] r'] eqn:Er.
    destruct Hstep as [(image & tid & g1 & h1 & Hl & -> & Htex & Hrng & Hg1)
                      |(h1 & before & Hl & -> & Htr)].
    + destruct (IH (S i) g1 h1)
        as [(g' & h' & Heq & Hg' & Hlen & Hincl & Hlow & Hhigh)
           |(h' & before & t & Hl' & Heq & Htr)]; rewrite Heq.
      * left. exists g', h'. split; [reflexivity|].
        assert (Hps1 : platforms (g_game_state g1)
                       = replace_nth i
                           (set_texture_id
                              (set_entity_type
                                 (set_position
                                    (nth i (platforms (g_game_state g)) Entity_default)
                                    (Vec3 (F32.sub (F32.of_int (Z.of_nat i)) (F32.of_int 4))
                                       (F32.of_int r2) F32.zero))
                                 (if r1 =? 0 then DEATH_PLATFORM else WIN_PLATFORM))
                              tid)
                           (platforms (g_game_state g)))
          by (rewrite Hg1; reflexivity).
        assert (Hlen1 : List.length (platforms (g_game_state g1))
                        = List.length (platforms (g_game_state g)))
          by (rewrite Hps1; apply replace_nth_length).
        split; [rewrite Hg' at 1; rewrite Hg1; reflexivity|].
        split; [lia|].
        split.
        { intros x Hx. apply Hincl. rewrite Htex. apply in_or_app. auto. }
        split.
        { intros j Hj. rewrite Hlow by lia. rewrite Hps1.
          apply nth_replace_nth_other. lia. }
        intros j Hj Hin. cbv zeta.
        destruct (Nat.eq_dec j i) as [->|Hne].
        -- rewrite Hlow by lia. rewrite Hps1.
           rewrite nth_replace_nth_same by lia.
           cbn [m_entity_type m_texture_id set_texture_id set_entity_type].
           split; [destruct (r1 =? 0); discriminate|].
           exists image. split; [exact Hl|].
           apply Hincl. rewrite Htex. apply in_or_app. right. left. reflexivity.
        -- apply Hhigh; lia.
      * right. exists h', before, t.
        split; [assumption|]. split; [reflexivity | assumption].
    + right. exists h1, before, (if r1 =? 0 then DEATH_PLATFORM else WIN_PLATFORM).
      split; [assumption|]. split; [reflexivity | assumption].
Qed.

Lemma initialise_unfold (h : Host RNG) :
  initialise Entity_default integrate stbi_load uniform_int_distribution h
  = match load_texture stbi_load SPRITESHEET_FILEPATH h with
    | Aborts h0 => Aborts h0
    | Returns t h0 =>
        match initialise_platforms Entity_default integrate stbi_load
                uniform_int_distribution PLATFORM_COUNT 0
                (globals_at_start (player_at_start Entity_default t)
                   (repeat Entity_default PLATFORM_COUNT)) h0 with
        | Aborts h1 => Aborts h1
        | Returns g1 h1 =>
            match load_texture stbi_load FONT_SPRITE_FILEPATH h1 with
            | Aborts h2 => Aborts h2
            | Returns t1 h2 => Returns (set_text_texture_id g1 t1) h2
            end
        end
    end.
Proof. reflexivity. Qed.

(** Everything a returning or aborting [initialise] went through. *)
Lemma initialise_cases (d : Entity) (h : Host RNG) :
  (exists g h' ship font,
      initialise Entity_default integrate stbi_load uniform_int_distribution h
      = Returns g h'
      /\ stbi_load SPRITESHEET_FILEPATH = Some ship
      /\ stbi_load FONT_SPRITE_FILEPATH = Some font
      /\ In (m_texture_id (player (g_game_state g)), ship) (textures h')
      /\ In (g_text_texture_id g, font) (textures h')
      /\ (exists t, player (g_game_state g) = player_at_start Entity_default t)
      /\ g_game_is_running g = true /\ g_win g = false /\ g_loss g = false
      /\ g_previous_ticks g = F32.zero /\ g_time_accumulator g = F32.zero
      /\ (forall j, (j < PLATFORM_COUNT)%nat ->
          let p := nth j (platforms (g_game_state g)) d in
          m_entity_type p <> PLAYER
          /\ exists image,
               stbi_load (platform_filepath (m_entity_type p)) = Some image
               /\ In (m_texture_id p, image) (textures h')))
  \/ (exists h' before path,
        initialise Entity_default integrate stbi_load uniform_int_distribution h
        = Aborts h'
        /\ In path [SPRITESHEET_FILEPATH; WIN_PLATFORM_FILEPATH;
                    DEATH_PLATFORM_FILEPATH; FONT_SPRITE_FILEPATH]
        /\ stbi_load path = None
        /\ trace h' = before ++ [eff_stbi_load path; eff_LOG LOAD_FAILED]).
Proof.
  rewrite initialise_unfold.
  destruct (load_texture_cases SPRITESHEET_FILEPATH h)
    as [(ship & t & h0 & Hship & -> & Htex0 & _)|(h0 & Hship & -> & Htr)].
  2:{ right. exists h0, (trace h), SPRITESHEET_FILEPATH.
      split; [reflexivity|]. split; [simpl; auto|]. split; assumption. }
  set (g0 := globals_at_start (player_at_start Entity_default t)
               (repeat Entity_default PLATFORM_COUNT)).
  destruct (initialise_platforms_cases d PLATFORM_COUNT 0 g0 h0)
    as [(g1 & h1 & -> & Hg1 & Hlen & Hincl & _ & Hhigh)
       |(h1 & before & ty & Hl & -> & Htr)].
  2:{ right. exists h1, before, (platform_filepath ty).
      split; [reflexivity|]. split; [|split; assumption].
      destruct ty; simpl; auto. }
  destruct (load_texture_cases FONT_SPRITE_FILEPATH h1)
    as [(font & t1 & h2 & Hfont & -> & Htex2 & _)|(h2 & Hfont & -> & Htr)].
  2:{ right. exists h2, (trace h1), FONT_SPRITE_FILEPATH.
      split; [reflexivity|]. split; [simpl; auto|]. split; assumption. }
  left. exists (set_text_texture_id g1 t1), h2, ship, font.
  split; [reflexivity|]. split; [exact Hship|]. split; [exact Hfont|].
  assert (Hin1 : forall x, In x (textures h1) -> In x (textures h2))
    by (intros x Hx; rewrite Htex2; apply in_or_app; auto).
  rewrite Hg1. cbn [set_text_texture_id set_platforms g_game_state player
                    platforms g_text_texture_id g_game_is_running g_win g_loss
                    g_previous_ticks g_time_accumulator].
  split.
  { apply Hin1, Hincl. rewrite Htex0. apply in_or_app. right. left. reflexivity. }
  split.
  { rewrite Htex2. apply in_or_app. right. left. reflexivity. }
  split; [exists t; reflexivity|].
  repeat (split; [reflexivity|]).
  intros j Hj. cbv zeta.
  subst g0. cbn [globals_at_start g_game_state platforms] in Hhigh.
  rewrite repeat_length in Hhigh.
  destruct (Hhigh j ltac:(lia) Hj) as (Hty & image & Himg & Hin).
  split; [exact Hty|]. exists image. split; [exact Himg|]. apply Hin1. exact Hin.
Qed.

(** When the four image files can be loaded, [initialise] returns, whatever
    the random engine draws and whatever the host state is. *)
Theorem initialise_returns_with_assets (h : Host RNG) :
  stbi_load SPRITESHEET_FILEPATH <> None ->
  stbi_load WIN_PLATFORM_FILEPATH <> None ->
  stbi_load DEATH_PLATFORM_FILEPATH <> None ->
  stbi_load FONT_SPRITE_FILEPATH <> None ->
  exists g h',
    initialise Entity_default integrate stbi_load uniform_int_distribution h
    = Returns g h'.
Proof.
  intros Hs Hw Hd Hf.
  destruct (initialise_cases Entity_default h)
    as [(g & h' & _ & _ & H & _)|(h' & before & path & _ & Hin & Hnone & _)].
  - exists g, h'. exact H.
  - exfalso. simpl in Hin.
    destruct Hin as [<-|[<-|[<-|[<-|[]]]]]; contradiction.
Qed.

(** When [initialise] aborts, one of the four image files could not be
    loaded, and the last two things the process did were the attempt to
    load that file and the log message: nothing is retried and nothing
    follows the failure. *)
Theorem initialise_abort_is_a_failed_load (h h' : Host RNG) :
  initialise Entity_default integrate stbi_load uniform_int_distribution h
  = Aborts h' ->
  exists before path,
    In path [SPRITESHEET_FILEPATH; WIN_PLATFORM_FILEPATH;
             DEATH_PLATFORM_FILEPATH; FONT_SPRITE_FILEPATH]
    /\ stbi_load path = None
    /\ trace h' = before ++ [eff_stbi_load path; eff_LOG LOAD_FAILED].
Proof.
  intros H.
  destruct (initialise_cases Entity_default h)
    as [(g & h1 & _ & _ & E & _)|(h1 & before & path & E & Hin & Hnone & Htr)];
    rewrite E in H; [discriminate|].
  injection H as <-. exists before, path. auto.
Qed.

(** When [initialise] returns, every texture name it stored names a texture
    that holds the image of the right file: the sprite sheet for the
    player, the font for the text, and for every platform the image of its
    own type (the stone for a WIN_PLATFORM, the rock for a
    DEATH_PLATFORM); every platform has one of these two types. *)
Theorem initialise_textures_match
    (d : Entity) (h h' : Host RNG) (g : Globals) :
  initialise Entity_default integrate stbi_load uniform_int_distribution h
  = Returns g h' ->
  (exists ship, stbi_load SPRITESHEET_FILEPATH = Some ship
     /\ In (m_texture_id (player (g_game_state g)), ship) (textures h'))
  /\ (exists font, stbi_load FONT_SPRITE_FILEPATH = Some font
        /\ In (g_text_texture_id g, font) (textures h'))
  /\ (forall j, (j < PLATFORM_COUNT)%nat ->
      let p := nth j (platforms (g_game_state g)) d in
      m_entity_type p <> PLAYER
      /\ exists image,
           stbi_load (platform_filepath (m_entity_type p)) = Some image
           /\ In (m_texture_id p, image) (textures h')).
Proof.
  intros H.
  destruct (initialise_cases d h)
    as [(g1 & h1 & ship & font & E & Hs & Hf & Hps & Hpf & _ & _ & _ & _ & _ & _ & Hpl)
       |(h1 & before & path & E & _)];
    rewrite E in H; [|discriminate].
  injection H as <- <-.
  split; [exists ship; auto|]. split; [exists font; auto|]. exact Hpl.
Qed.

(** When [initialise] returns, the session is at its start: the loop flag
    is set, neither terminal flag is, the accumulator and the previous
    ticks are zero, and the player is at rest at [(0, 3, 0)] under the
    acceleration [(0, ACC_OF_GRAVITY, 0)], with speed 2, width and height
    0.8, boosting power 0.1, drag 0.8 and the IDLE strip of a sheet of
    three columns and one row.  The platform loop and the texture loads
    leave all of these alone. *)
Theorem initialise_start_state (h h' : Host RNG) (g : Globals) :
  initialise Entity_default integrate stbi_load uniform_int_distribution h
  = Returns g h' ->
  let p := player (g_game_state g) in
  g_game_is_running g = true /\ g_win g = false /\ g_loss g = false
  /\ g_previous_ticks g = F32.zero /\ g_time_accumulator g = F32.zero
  /\ m_position p = Vec3 F32.zero (F32.of_int 3) F32.zero
  /\ m_movement p = vec3_zero
  /\ m_acceleration p = Vec3 F32.zero ACC_OF_GRAVITY F32.zero
  /\ m_speed p = F32.of_int 2
  /\ m_width p = F32.literal 8 10 /\ m_height p = F32.literal 8 10
  /\ m_boosting_power p = F32.literal 1 10 /\ m_drag p = F32.literal 8 10
  /\ m_booster p IDLE = Some 0 /\ m_booster p LOW = Some 1
  /\ m_booster p HIGH = Some 2
  /\ m_animation_indices p = Some IDLE /\ m_animation_index p = 0
  /\ m_animation_cols p = 3 /\ m_animation_rows p = 1
  /\ m_entity_type p = m_entity_type Entity_default
  /\ m_booster_active p = m_booster_active Entity_default.
Proof.
  intros H.
  destruct (initialise_cases Entity_default h)
    as [(g1 & h1 & _ & _ & E & _ & _ & _ & _ & (t & Hp) & Hr & Hw & Hl & Ht & Ha & _)
       |(h1 & before & path & E & _)];
    rewrite E in H; [|discriminate].
  injection H as <- <-. cbv zeta. rewrite Hp.
  repeat (split; [assumption || reflexivity|]). reflexivity.
Qed.

(** With a random engine whose draws lie within the bounds asked for, the
    platforms that [initialise] creates sit on the integer grid, one in
    each of the nine columns [-4 .. 4] and at a height in [-3 .. 1]:
    platform [j] is at [(j - 4, y, 0)] with [-3 <= y <= 1]. *)
Theorem platforms_on_grid (d : Entity) (h h' : Host RNG) (g : Globals) :
  (forall lo hi r, lo <= hi ->
     lo <= fst (uniform_int_distribution lo hi r) <= hi) ->
  initialise Entity_default integrate stbi_load uniform_int_distribution h
  = Returns g h' ->
  forall j, (j < PLATFORM_COUNT)%nat ->
  exists y, -3 <= y <= 1
    /\ m_position (nth j (platforms (g_game_state g)) d)
       = Vec3 (F32.of_int (Z.of_nat j - 4)) (F32.of_int y) F32.zero.
Proof.
  intros Hrange H j Hj.
  destruct (initialise_spec Entity_default integrate stbi_load RNG
              uniform_int_distribution d h h' g H) as [_ Hroll].
  destruct (Hroll j Hj) as [Hpos _]. rewrite Hpos.
  unfold rolled_position, platform_rolls.
  set (r := rng_after uniform_int_distribution j (rng h)).
  destruct (uniform_int_distribution 0 1 r) as [r1 ra].
  pose proof (Hrange (-3) 1 ra ltac:(lia)) as Hy.
  destruct (uniform_int_distribution (-3) 1 ra) as [r2 rb].
  cbn [fst] in Hy. exists r2. split; [exact Hy|].
  f_equal.
  unfold PLATFORM_COUNT in Hj.
  do 9 (destruct j as [|j]; [reflexivity|]). lia.
Qed.

End MoreStartup.

(** ** The loop of [main] *)

Section Loop.

Variable Entity_default : Entity.
Variable integrate : float -> Entity -> Entity.
Variable left_component : float.
Variable right_component : float.
Variable stbi_load : string -> option Image.
Variable RNG : Type.
Variable uniform_int_distribution : Z -> Z -> RNG -> Z * RNG.
Variable char_is_signed : bool.

Lemma physics_step_text_texture (dt : float) (g : Globals) :
  g_text_texture_id (physics_step integrate dt g) = g_text_texture_id g.
Proof.
  unfold physics_step.
  destruct (Entity_update integrate dt (platforms (g_game_state g))
              PLATFORM_COUNT (player (g_game_state g)) (g_win g) (g_loss g))
    as [[p w] l].
  reflexivity.
Qed.

Lemma steps_keep_running (n : nat) (g : Globals) :
  g_game_is_running (Nat.iter n (physics_step integrate FIXED_TIMESTEP) g)
  = g_game_is_running g
  /\ g_text_texture_id (Nat.iter n (physics_step integrate FIXED_TIMESTEP) g)
     = g_text_texture_id g.
Proof.
  induction n as [|n [IH1 IH2]]; [split; reflexivity|]. simpl.
  rewrite physics_step_text_texture.
  destruct (physics_step_keeps integrate FIXED_TIMESTEP
              (Nat.iter n (physics_step integrate FIXED_TIMESTEP) g))
    as (_ & _ & _ & ->).
  split; assumption.
Qed.

Lemma update_keeps_running (fuel : nat) (ticks : Z) (g : Globals)
    (n : nat) (g' : Globals) :
  update integrate fuel ticks g = Some (n, g') ->
  g_game_is_running g' = g_game_is_running g
  /\ g_text_texture_id g' = g_text_texture_id g.
Proof.
  unfold update. cbn [set_previous_ticks g_win g_loss].
  destruct (negb (g_win g) && negb (g_loss g)).
  - intros H. apply game_loop_steps in H. rewrite H.
    cbn [set_time_accumulator g_game_is_running g_text_texture_id].
    match goal with
    | |- context [Nat.iter n _ ?g0] =>
        destruct (steps_keep_running n g0) as [E1 E2]
    end.
    rewrite E1, E2. split; reflexivity.
  - intros [= _ <-]. split; reflexivity.
Qed.

Lemma frame_keeps (fuel : nat) (i : FrameInput) (g : Globals)
    (n : nat) (g' : Globals) :
  frame integrate left_component right_component fuel i g = Some (n, g') ->
  g_game_is_running g' = g_game_is_running g && negb (has_quit_event i)
  /\ g_text_texture_id g' = g_text_texture_id g
  /\ (g_win g = true -> g_win g' = true)
  /\ (g_loss g = true -> g_loss g' = true).
Proof.
  unfold frame. intros H.
  destruct (update_keeps_running _ _ _ _ _ H) as [-> ->].
  apply update_raises in H.
  destruct (process_input_keeps left_component right_component
              (frame_events i) (frame_keys i) g)
    as (_ & Hw & Hl).
  rewrite Hw, Hl in H.
  destruct (process_input_fields left_component right_component
              (frame_events i) (frame_keys i) g _ _ eq_refl eq_refl)
    as (_ & _ & _ & _ & _ & -> & -> & _).
  destruct (steer_globals left_component right_component (frame_keys i)
              (fold_left handle_event (frame_events i) (reset_intent g)))
    as (-> & -> & _).
  rewrite poll_events_running, poll_events_text_texture.
  split; [reflexivity|]. split; [reflexivity|]. exact H.
Qed.

Lemma is_text_call_draw_text (t : GLuint) (text : string)
    (screen_size spacing : float) (position : vec3) :
  is_text_call (draw_text char_is_signed t text screen_size spacing position)
  = true.
Proof.
  unfold draw_text.
  destruct (text_buffers char_is_signed screen_size spacing 0
              (list_ascii_of_string text)) as [vs ts].
  reflexivity.
Qed.

Lemma no_text_among_entities (es : list Entity) :
  filter is_text_call (map call_Entity_render es) = [].
Proof. induction es as [|e rest IH]; simpl; auto. Qed.

(** The text calls of a frame. *)
Lemma render_text_calls (g : Globals) :
  filter is_text_call (render char_is_signed g)
  = (if g_win g then [win_text char_is_signed g] else [])
    ++ (if g_loss g then [loss_text char_is_signed g] else []).
Proof.
  unfold render. cbn [app filter is_text_call].
  rewrite !filter_app, no_text_among_entities. cbn [app filter is_text_call].
  rewrite app_nil_r.
  destruct (g_win g), (g_loss g); cbn [filter app];
    unfold win_text, loss_text; rewrite ?is_text_call_draw_text; reflexivity.
Qed.

Lemma play_unfold (fuel : nat) (i : FrameInput) (rest : list FrameInput)
    (g : Globals) :
  play integrate left_component right_component char_is_signed fuel (i :: rest) g
  = if g_game_is_running g then
      match frame integrate left_component right_component fuel i g with
      | Some (_, g') =>
          match play integrate
              left_component right_component char_is_signed fuel rest g' with
          | Some (frames, g'') => Some (render char_is_signed g' :: frames, g'')
          | None => None
          end
      | None => None
      end
    else Some ([], g).
Proof. reflexivity. Qed.

Lemma play_stopped (fuel : nat) (inputs : list FrameInput) (g : Globals) :
  g_game_is_running g = false ->
  play integrate left_component right_component char_is_signed fuel inputs g = Some ([], g).
Proof. intros H. destruct inputs; [reflexivity|]. rewrite play_unfold, H. reflexivity. Qed.

(** The loop runs its iterations up to and including the first one in which
    a quit event is pending, and no further. *)
Lemma play_until_quit (fuel : nat) (inputs : list FrameInput) :
  forall (g : Globals) (frames : list (list DrawCall)) (g' : Globals),
  g_game_is_running g = true ->
  play integrate left_component right_component char_is_signed fuel inputs g = Some (frames, g') ->
  List.length frames = frames_until_quit inputs
  /\ g_game_is_running g' = negb (existsb has_quit_event inputs).
Proof.
  induction inputs as [|i rest IH]; intros g frames g' Hrun.
  - intros [= <- <-]. split; [reflexivity | exact Hrun].
  - rewrite play_unfold, Hrun.
    destruct (frame integrate
        left_component right_component fuel i g) as [[n g1]|] eqn:E1; [|discriminate].
    destruct (frame_keeps _ _ _ _ _ E1) as (Hr1 & _).
    rewrite Hrun in Hr1. cbn [andb] in Hr1.
    cbn [frames_until_quit existsb].
    destruct (has_quit_event i).
    + rewrite play_stopped by exact Hr1.
      intros [= <- <-]. split; [reflexivity | exact Hr1].
    + destruct (play integrate
        left_component right_component char_is_signed fuel rest g1)
        as [[fs g2]|] eqn:E2; [|discriminate].
      intros [= <- <-].
      destruct (IH g1 fs g2 Hr1 E2) as [Hlen Hrun2].
      cbn [List.length orb]. split; [congruence | exact Hrun2].
Qed.

Lemma play_keeps (fuel : nat) (inputs : list FrameInput) :
  forall (g : Globals) (frames : list (list DrawCall)) (g' : Globals),
  play integrate left_component right_component char_is_signed fuel inputs g = Some (frames, g') ->
  g_text_texture_id g' = g_text_texture_id g
  /\ (g_win g = true -> g_win g' = true)
  /\ (g_loss g = true -> g_loss g' = true).
Proof.
  induction inputs as [|i rest IH]; intros g frames g'.
  - intros [= _ <-]. auto.
  - rewrite play_unfold.
    destruct (g_game_is_running g); [|intros [= _ <-]; auto].
    destruct (frame integrate
        left_component right_component fuel i g) as [[n g1]|] eqn:E1; [|discriminate].
    destruct (play integrate left_component right_component char_is_signed fuel rest g1)
      as [[fs g2]|] eqn:E2; [|discriminate].
    intros [= _ <-].
    destruct (frame_keeps _ _ _ _ _ E1) as (_ & Ht & Hw & Hl).
    destruct (IH g1 fs g2 E2) as (Ht2 & Hw2 & Hl2).
    split; [congruence|]. split; auto.
Qed.

Lemma win_text_texture (g g' : Globals) :
  g_text_texture_id g' = g_text_texture_id g ->
  win_text char_is_signed g' = win_text char_is_signed g
  /\ loss_text char_is_signed g' = loss_text char_is_signed g.
Proof. unfold win_text, loss_text. intros ->. split; reflexivity. Qed.

Lemma text_call_in_frame (c : DrawCall) (g : Globals) :
  In c (filter is_text_call (render char_is_signed g)) ->
  In c (render char_is_signed g).
Proof. intros H. apply filter_In in H. exact (proj1 H). Qed.

(** Over the frames the loop of [main] draws from a state on: if [g_win]
    is set, every frame carries the text "YOU LANDED SAFELY!"; if [g_loss]
    is set, every frame carries "YOU CRASHED!"; and if neither flag is set
    when the frames end, no frame carried any text. *)
Theorem message_stays_on_screen (fuel : nat) (inputs : list FrameInput) :
  forall (g : Globals) (frames : list (list DrawCall)) (g' : Globals),
  play integrate left_component right_component char_is_signed fuel inputs g = Some (frames, g') ->
  (g_win g = true ->
   Forall (fun f => In (win_text char_is_signed g) f) frames)
  /\ (g_loss g = true ->
      Forall (fun f => In (loss_text char_is_signed g) f) frames)
  /\ (g_win g' = false -> g_loss g' = false ->
      Forall (fun f => filter is_text_call f = []) frames).
Proof.
  induction inputs as [|i rest IH]; intros g frames g'.
  - intros [= <- _]. repeat split; intros; constructor.
  - rewrite play_unfold.
    destruct (g_game_is_running g);
      [|intros [= <- _]; repeat split; intros; constructor].
    destruct (frame integrate
        left_component right_component fuel i g) as [[n g1]|] eqn:E1; [|discriminate].
    destruct (play integrate left_component right_component char_is_signed fuel rest g1)
      as [[fs g2]|] eqn:E2; [|discriminate].
    intros [= <- <-].
    destruct (frame_keeps _ _ _ _ _ E1) as (_ & Ht & Hw & Hl).
    destruct (win_text_texture g g1 Ht) as [Hwt Hlt].
    destruct (IH g1 fs g2 E2) as (IHw & IHl & IHn).
    destruct (play_keeps fuel rest g1 fs g2 E2) as (_ & Hw2 & Hl2).
    rewrite Hwt in IHw. rewrite Hlt in IHl.
    split; [|split].
    + intros H. constructor; [|apply IHw; auto].
      apply text_call_in_frame. rewrite render_text_calls, (Hw H), Hwt.
      left. reflexivity.
    + intros H. constructor; [|apply IHl; auto].
      apply text_call_in_frame. rewrite render_text_calls, (Hl H), Hlt.
      apply in_or_app. right. left. reflexivity.
    + intros Hnw Hnl. constructor; [|apply IHn; assumption].
      rewrite render_text_calls.
      destruct (g_win g1); [specialize (Hw2 eq_refl); congruence|].
      destruct (g_loss g1); [specialize (Hl2 eq_refl); congruence|].
      reflexivity.
Qed.

Lemma frames_until_quit_all (inputs : list FrameInput) :
  existsb has_quit_event inputs = false ->
  frames_until_quit inputs = List.length inputs.
Proof.
  induction inputs as [|i rest IH]; [reflexivity|]. cbn [existsb frames_until_quit].
  destruct (has_quit_event i); [discriminate|]. cbn [orb List.length].
  intros H. rewrite IH by exact H. reflexivity.
Qed.

Lemma frames_until_quit_positive (inputs : list FrameInput) :
  existsb has_quit_event inputs = true -> (0 < frames_until_quit inputs)%nat.
Proof.
  destruct inputs as [|i rest]; [discriminate|]. cbn [frames_until_quit].
  destruct (has_quit_event i); lia.
Qed.

(** [main] returns, with status 0, only after a quit event, and has then
    drawn exactly the frames up to and including the first one with a quit
    event pending: that iteration still updates and draws, and the next
    test of [g_game_is_running] ends the loop.  While no quit event has
    come, [main] is still in its loop and has drawn one frame per
    iteration, whether or not the game has been won or lost. *)
Theorem main_returns_only_after_quit
    (fuel : nat) (inputs : list FrameInput) (h h' : Host RNG)
    (frames : list (list DrawCall)) (g : Globals) :
  (forall status,
     main Entity_default integrate
         left_component right_component stbi_load uniform_int_distribution
       char_is_signed fuel inputs h = run_returned status frames g h' ->
     status = 0
     /\ existsb has_quit_event inputs = true
     /\ List.length frames = frames_until_quit inputs
     /\ (0 < List.length frames)%nat
     /\ g_game_is_running g = false)
  /\ (main Entity_default integrate
      left_component right_component stbi_load uniform_int_distribution
        char_is_signed fuel inputs h = run_in_loop frames g h' ->
      existsb has_quit_event inputs = false
      /\ List.length frames = List.length inputs
      /\ g_game_is_running g = true).
Proof.
  unfold main.
  destruct (initialise_cases Entity_default integrate stbi_load RNG
              uniform_int_distribution Entity_default h)
    as [(g0 & h0 & _ & _ & -> & _ & _ & _ & _ & _ & Hrun & _)
       |(h0 & before & path & -> & _)];
    [|split; [intros status|]; discriminate].
  destruct (play integrate left_component right_component char_is_signed fuel inputs g0)
    as [[fs g1]|] eqn:E; [|split; [intros status|]; discriminate].
  destruct (play_until_quit fuel inputs g0 fs g1 Hrun E) as [Hlen Hrun1].
  destruct (g_game_is_running g1) eqn:Hg1.
  - split; [intros status; discriminate|].
    intros [= <- <- _].
    assert (Hq : existsb has_quit_event inputs = false)
      by (destruct (existsb has_quit_event inputs); [discriminate | reflexivity]).
    split; [exact Hq|]. split; [|exact Hg1].
    rewrite Hlen. apply frames_until_quit_all. exact Hq.
  - split; [|discriminate].
    intros status [= <- <- <- _].
    assert (Hq : existsb has_quit_event inputs = true)
      by (destruct (existsb has_quit_event inputs); [reflexivity | discriminate]).
    split; [reflexivity|]. split; [exact Hq|]. split; [exact Hlen|].
    split; [|exact Hg1].
    rewrite Hlen. apply frames_until_quit_positive. exact Hq.
Qed.

End Loop.

Section Scene.

Variable Entity_default : Entity.
Variable integrate : float -> Entity -> Entity.
Variable left_component : float.
Variable right_component : float.
Variable stbi_load : string -> option Image.
Variable RNG : Type.
Variable uniform_int_distribution : Z -> Z -> RNG -> Z * RNG.
Variable char_is_signed : bool.





End Scene.

(** ** What [update] writes *)

Section Update.

Variable integrate : float -> Entity -> Entity.

Lemma steps_keep_previous_ticks (n : nat) (g : Globals) :
  g_previous_ticks (Nat.iter n (physics_step integrate FIXED_TIMESTEP) g)
  = g_previous_ticks g.
Proof.
  induction n as [|n IH]; [reflexivity|]. simpl.
  destruct (physics_step_keeps integrate FIXED_TIMESTEP
              (Nat.iter n (physics_step integrate FIXED_TIMESTEP) g))
    as (_ & _ & -> & _).
  exact IH.
Qed.

(** [update] stores the time of the call in [g_previous_ticks] on every
    path: when the game is over, when the frame was too short for a
    physics step, and after any number of physics steps.  It never writes
    the loop flag, the font texture or the platforms, and a call that runs
    no physics step leaves the player and both terminal flags as they
    were. *)
Theorem update_records_ticks (fuel : nat) (ticks : Z) (g : Globals)
    (n : nat) (g' : Globals) :
  update integrate fuel ticks g = Some (n, g') ->
  g_previous_ticks g' = F32.div (F32.of_int ticks) MILLISECONDS_IN_SECOND
  /\ g_game_is_running g' = g_game_is_running g
  /\ g_text_texture_id g' = g_text_texture_id g
  /\ platforms (g_game_state g') = platforms (g_game_state g)
  /\ (n = 0%nat ->
      player (g_game_state g') = player (g_game_state g)
      /\ g_win g' = g_win g /\ g_loss g' = g_loss g).
Proof.
  intros H.
  destruct (update_keeps_running integrate fuel ticks g n g' H) as [Hr Ht].
  pose proof (update_keeps_platforms integrate fuel ticks g n g' H) as Hp.
  revert H. unfold update. cbn [set_previous_ticks g_win g_loss].
  destruct (negb (g_win g) && negb (g_loss g)).
  - intros H. apply game_loop_steps in H.
    split.
    + rewrite H. cbn [set_time_accumulator g_previous_ticks].
      rewrite steps_keep_previous_ticks. reflexivity.
    + split; [exact Hr|]. split; [exact Ht|]. split; [exact Hp|].
      intros ->. rewrite H. cbn [Nat.iter nat_rect set_time_accumulator
        g_game_state g_win g_loss player]. repeat split.
  - intros [= <- <-]. cbn [g_previous_ticks g_game_state g_win g_loss].
    repeat split; assumption.
Qed.

End Update.

(** ** The statements at concrete inputs

    Each statement above that has premises is applied once to the sample
    data of [Sample], with its premises evaluated; two statements record
    inputs on which a stronger reading fails. *)

Lemma same_total_same_steps_witness :
  forallb nonneg Sample.even_frames = true
  /\ forallb nonneg Sample.halved_frames = true
  /\ exact_total Sample.even_frames = exact_total Sample.halved_frames
  /\ nonneg (g_time_accumulator Sample.globals) = true
  /\ F32.ltb (g_time_accumulator Sample.globals) FIXED_TIMESTEP = true
  /\ game_loops_exact Sample.fall 2 Sample.even_frames Sample.globals = true
  /\ game_loops_exact Sample.fall 2 Sample.halved_frames Sample.globals = true
  /\ exists g1 g2,
       game_loops Sample.fall 2 Sample.even_frames Sample.globals
       = Some (2%nat, g1)
       /\ game_loops Sample.fall 2 Sample.halved_frames Sample.globals
          = Some (2%nat, g2)
       /\ g_game_state g1 = g_game_state g2
       /\ g_win g1 = g_win g2 /\ g_loss g1 = g_loss g2.
Proof.
  repeat (split; [vm_compute; reflexivity|]).
  eexists. eexists.
  split; [vm_compute; reflexivity|]. split; [vm_compute; reflexivity|].
  refine
    (match same_total_same_steps Sample.fall 2 2 Sample.even_frames
             Sample.halved_frames Sample.globals 2 2 _ _ _ _ _ _ _ _ _ _ _
     with
     | conj _ (conj _ (conj Hs (conj Hw (conj Hl _)))) =>
         conj Hs (conj Hw Hl)
     end); vm_compute; reflexivity.
Defined.

(** C1 as stated fails: three frame deltas and two frame deltas with the
    same exact total, all non-negative, run one physics step and two physics
    steps from the same state and leave the player at different heights. *)
Lemma frame_partition_changes_step_count :
  forallb nonneg Sample.even_frames = true
  /\ forallb nonneg Sample.uneven_frames = true
  /\ exact_total Sample.even_frames = exact_total Sample.uneven_frames
  /\ exists g1 g2,
       game_loops Sample.fall 2 Sample.even_frames Sample.globals
       = Some (2%nat, g1)
       /\ game_loops Sample.fall 2 Sample.uneven_frames Sample.globals
          = Some (1%nat, g2)
       /\ m_position (player (g_game_state g1))
          <> m_position (player (g_game_state g2)).
Proof.
  split; [reflexivity|]. split; [reflexivity|]. split; [vm_compute; reflexivity|].
  eexists. eexists.
  split; [vm_compute; reflexivity|]. split; [vm_compute; reflexivity|].
  vm_compute. discriminate.
Qed.

(** The run on the three uneven frame deltas is one that rounds: the
    amended C1 leaves it out for that reason alone. *)
Lemma uneven_frames_round :
  game_loops_exact Sample.fall 2 Sample.uneven_frames Sample.globals = false
  /\ game_loops_exact Sample.fall 2 Sample.even_frames Sample.globals = true.
Proof. split; vm_compute; reflexivity. Qed.

Lemma terminal_flags_freeze_witness :
  g_win Sample.landed || g_loss Sample.landed = true
  /\ exists g',
       update Sample.fall 0 1000 Sample.landed = Some (0%nat, g')
       /\ g_game_state g' = g_game_state Sample.landed
       /\ g_win g' = g_win Sample.landed /\ g_loss g' = g_loss Sample.landed
       /\ g_time_accumulator g' = g_time_accumulator Sample.landed.
Proof.
  split; [reflexivity|].
  exact (proj1 (proj1 (terminal_flags_freeze Sample.fall
      Sample.left_component Sample.right_component 0 Sample.landed) eq_refl) 1000).
Defined.

Lemma first_overlapping_platform_decides_witness :
  check_collision
    (Sample.fall FIXED_TIMESTEP (player (g_game_state Sample.wedged)))
    (Sample.slab DEATH_PLATFORM) = true
  /\ check_collision
       (Sample.fall FIXED_TIMESTEP (player (g_game_state Sample.wedged)))
       (Sample.slab WIN_PLATFORM) = true
  /\ g_win Sample.wedged = false
  /\ g_loss (physics_step Sample.fall FIXED_TIMESTEP Sample.wedged) = true
  /\ g_win (physics_step Sample.fall FIXED_TIMESTEP Sample.wedged) = false.
Proof.
  split; [vm_compute; reflexivity|]. split; [vm_compute; reflexivity|].
  split; [reflexivity|].
  destruct (first_overlapping_platform_decides Sample.fall Sample.wedged
              (Sample.slab DEATH_PLATFORM) (Sample.slab WIN_PLATFORM) [])
    as (Hl & Hw & _); try (vm_compute; reflexivity).
  split; assumption.
Defined.

Lemma game_loop_exactly_one_step_witness :
  let g := Sample.with_accumulator (S754_finite false 8388608 (-30)) in
  let delta_time := S754_finite false 9507018 (-30) in
  F32.eqb (F32.add delta_time (g_time_accumulator g)) FIXED_TIMESTEP = true
  /\ game_loop Sample.fall 1 delta_time g
     = Some (1%nat,
             set_time_accumulator (physics_step Sample.fall FIXED_TIMESTEP g)
               F32.zero).
Proof.
  cbv zeta. split; [vm_compute; reflexivity|].
  apply (game_loop_exactly_one_step Sample.fall 0). vm_compute; reflexivity.
Defined.

Lemma game_loop_zero_delta_witness :
  let g := Sample.with_accumulator (F32.literal 1 100) in
  F32.ltb (g_time_accumulator g) FIXED_TIMESTEP = true
  /\ exists a,
       game_loop Sample.fall 0 F32.zero g = Some (0%nat, set_time_accumulator g a)
       /\ F32.eqb a (g_time_accumulator g) = true
       /\ ((forall s', g_time_accumulator g <> S754_zero s') ->
           a = g_time_accumulator g).
Proof.
  cbv zeta. split; [vm_compute; reflexivity|].
  apply (game_loop_zero_delta Sample.fall 0 false). vm_compute; reflexivity.
Defined.

Lemma accumulator_below_one_step_witness :
  let g := Sample.with_accumulator (F32.literal 1 100) in
  let delta_time := F32.literal 5 100 in
  F32.valid delta_time = true
  /\ F32.leb F32.zero delta_time = true
  /\ F32.valid (g_time_accumulator g) = true
  /\ F32.leb F32.zero (g_time_accumulator g) = true
  /\ F32.ltb (g_time_accumulator g) FIXED_TIMESTEP = true
  /\ exists g',
       game_loop Sample.fall 3 delta_time g = Some (3%nat, g')
       /\ F32.valid (g_time_accumulator g') = true
       /\ F32.leb F32.zero (g_time_accumulator g') = true
       /\ F32.ltb (g_time_accumulator g') FIXED_TIMESTEP = true.
Proof.
  cbv zeta. repeat (split; [vm_compute; reflexivity|]).
  eexists. split; [vm_compute; reflexivity|].
  apply (accumulator_below_one_step Sample.fall 3 (F32.literal 5 100)
           (Sample.with_accumulator (F32.literal 1 100)) 3);
    vm_compute; reflexivity.
Defined.

(** C9 as stated fails: an accumulator of [-1.0f] is below FIXED_TIMESTEP,
    the frame delta [0.0f] is non-negative, [game_loop] returns, and the
    accumulator is still [-1.0f], which is not [>= 0]. *)
Lemma negative_accumulator_stays_negative :
  let g := Sample.with_accumulator (F32.opp F32.one) in
  F32.leb F32.zero F32.zero = true
  /\ F32.ltb (g_time_accumulator g) FIXED_TIMESTEP = true
  /\ game_loop Sample.fall 0 F32.zero g = Some (0%nat, g)
  /\ F32.leb F32.zero (g_time_accumulator g) = false.
Proof. cbv zeta. repeat split. Qed.

Lemma thrust_excludes_steering_witness :
  let key_state := Sample.keys [SDL_SCANCODE_UP; SDL_SCANCODE_LEFT] in
  let p := player (g_game_state
             (process_input Sample.left_component Sample.right_component []
                key_state Sample.globals)) in
  let q := player (g_game_state
             (process_input Sample.left_component Sample.right_component []
                Sample.no_keys Sample.globals)) in
  key_state SDL_SCANCODE_UP || key_state SDL_SCANCODE_W = true
  /\ key_state SDL_SCANCODE_LEFT = true
  /\ (m_booster_active p = true /\ m_movement p = vec3_zero)
  /\ (m_movement q = vec3_zero /\ m_booster_active q = false).
Proof.
  cbv zeta. split; [reflexivity|]. split; [reflexivity|].
  split.
  - exact (proj1 (proj2 (proj2 (thrust_excludes_steering
             Sample.left_component Sample.right_component []
             (Sample.keys [SDL_SCANCODE_UP; SDL_SCANCODE_LEFT])
             Sample.globals))) eq_refl).
  - exact (proj1 (proj2 (thrust_excludes_steering
             Sample.left_component Sample.right_component []
             Sample.no_keys Sample.globals)) eq_refl).
Defined.

Lemma load_texture_aborts_witness :
  Sample.no_file SPRITESHEET_FILEPATH = None
  /\ exists h',
       load_texture Sample.no_file SPRITESHEET_FILEPATH Sample.host = Aborts h'
       /\ trace h' = trace Sample.host ++
            [eff_stbi_load SPRITESHEET_FILEPATH;
             eff_LOG "Unable to load image. Make sure the path is correct."]
       /\ textures h' = textures Sample.host
       /\ rng h' = rng Sample.host.
Proof.
  split; [reflexivity|].
  apply (load_texture_aborts Sample.no_file Z SPRITESHEET_FILEPATH Sample.host).
  reflexivity.
Defined.

Lemma platforms_created_once_and_fixed_witness :
  exists g h',
    initialise Sample.blank_entity Sample.fall Sample.every_file
      Sample.congruential Sample.host = Returns g h'
    /\ List.length (platforms (g_game_state g)) = PLATFORM_COUNT
    /\ (forall j, (j < PLATFORM_COUNT)%nat ->
        let p := nth j (platforms (g_game_state g)) Sample.blank_entity in
        let r := rng_after Sample.congruential j (rng Sample.host) in
        m_position p = rolled_position Sample.congruential j r
        /\ m_entity_type p = rolled_type Sample.congruential r)
    /\ (forall fuel inputs n g',
          main_loop Sample.fall
              Sample.left_component Sample.right_component fuel inputs g = Some (n, g')
              ->
          platforms (g_game_state g') = platforms (g_game_state g)).
Proof.
  eexists. eexists. split; [vm_compute; reflexivity|].
  eapply (platforms_created_once_and_fixed Sample.blank_entity Sample.fall
      Sample.left_component Sample.right_component
            Sample.every_file Z Sample.congruential Sample.blank_entity
            Sample.host).
  vm_compute; reflexivity.
Defined.

(** *** The further statements at concrete inputs *)

Lemma game_loop_never_returns_witness :
  let g := Sample.globals in
  let delta_time := F32.of_int 1048576 in
  F32.geb (F32.add delta_time (g_time_accumulator g)) FIXED_TIMESTEP = true
  /\ F32.sub (F32.add delta_time (g_time_accumulator g)) FIXED_TIMESTEP
     = F32.add delta_time (g_time_accumulator g)
  /\ forall fuel, game_loop Sample.fall fuel delta_time g = None.
Proof.
  cbv zeta. split; [vm_compute; reflexivity|]. split; [vm_compute; reflexivity|].
  apply (game_loop_never_returns Sample.fall (F32.of_int 1048576) Sample.globals);
    vm_compute; reflexivity.
Defined.

Lemma draw_text_buffers_fit_witness :
  Z.of_nat (String.length "YOU CRASHED!") * 6 <= INT_MAX
  /\ exists vertices texture_coordinates,
       draw_text true 4 "YOU CRASHED!" (F32.literal 1 4) (F32.literal 1 100)
         (Vec3 (F32.opp (F32.literal 5 4)) (F32.of_int 2) F32.zero)
       = call_glDrawArrays 4
           (Vec3 (F32.opp (F32.literal 5 4)) (F32.of_int 2) F32.zero)
           vertices texture_coordinates 72
       /\ Z.of_nat (List.length vertices) = 144
       /\ Z.of_nat (List.length texture_coordinates) = 144.
Proof.
  split; [vm_compute; discriminate|].
  apply (draw_text_buffers_fit true 4 "YOU CRASHED!" (F32.literal 1 4)
           (F32.literal 1 100)
           (Vec3 (F32.opp (F32.literal 5 4)) (F32.of_int 2) F32.zero)).
  vm_compute; discriminate.
Defined.

Lemma draw_text_glyph_witness :
  Z.of_nat (String.length "YOU CRASHED!") <= INT_MAX
  /\ nth_error (list_ascii_of_string "YOU CRASHED!") 4 = Some (Ascii.ascii_of_N 67)
  /\ exists vertices texture_coordinates count,
       draw_text false 4 "YOU CRASHED!" (F32.literal 1 4) (F32.literal 1 100)
         vec3_zero
       = call_glDrawArrays 4 vec3_zero vertices texture_coordinates count
       /\ firstn 12 (skipn (12 * 4) vertices)
          = glyph_vertices (F32.literal 1 4)
              (glyph_offset (F32.literal 1 4) (F32.literal 1 100) 4)
       /\ firstn 12 (skipn (12 * 4) texture_coordinates)
          = glyph_texture_coordinates (spritesheet_index false (Ascii.ascii_of_N 67)).
Proof.
  split; [vm_compute; discriminate|]. split; [reflexivity|].
  apply (draw_text_glyph false 4 "YOU CRASHED!" (F32.literal 1 4)
           (F32.literal 1 100) vec3_zero 4 (Ascii.ascii_of_N 67));
    [vm_compute; discriminate | reflexivity].
Defined.

Lemma glyph_cell_in_sheet_witness :
  true && (128 <=? Z.of_N (Ascii.N_of_ascii (Ascii.ascii_of_N 65))) = false
  /\ spritesheet_index true (Ascii.ascii_of_N 65) = 65
  /\ F32.exact_units (u_coordinate (spritesheet_index true (Ascii.ascii_of_N 65)))
     = Some (1 * 2 ^ 145)
  /\ F32.exact_units (v_coordinate (spritesheet_index true (Ascii.ascii_of_N 65)))
     = Some (4 * 2 ^ 145).
Proof.
  split; [reflexivity|].
  destruct (proj2 (glyph_cell_in_sheet true (Ascii.ascii_of_N 65)) eq_refl)
    as (Hi & Hu & Hv & _).
  split; [exact Hi|]. split; [exact Hu | exact Hv].
Defined.

Lemma initialise_returns_with_assets_witness :
  Sample.every_file SPRITESHEET_FILEPATH <> None
  /\ Sample.every_file WIN_PLATFORM_FILEPATH <> None
  /\ Sample.every_file DEATH_PLATFORM_FILEPATH <> None
  /\ Sample.every_file FONT_SPRITE_FILEPATH <> None
  /\ exists g h',
       initialise Sample.blank_entity Sample.fall Sample.every_file
         Sample.congruential Sample.host = Returns g h'.
Proof.
  repeat (split; [discriminate|]).
  apply (initialise_returns_with_assets Sample.blank_entity Sample.fall
           Sample.every_file Z Sample.congruential Sample.host);
    discriminate.
Defined.

Lemma initialise_abort_is_a_failed_load_witness :
  exists h',
    initialise Sample.blank_entity Sample.fall Session.font_missing
      Sample.congruential Sample.host = Aborts h'
    /\ exists before path,
         In path [SPRITESHEET_FILEPATH; WIN_PLATFORM_FILEPATH;
                  DEATH_PLATFORM_FILEPATH; FONT_SPRITE_FILEPATH]
         /\ Session.font_missing path = None
         /\ trace h' = before ++ [eff_stbi_load path; eff_LOG LOAD_FAILED].
Proof.
  eexists. split; [vm_compute; reflexivity|].
  eapply (initialise_abort_is_a_failed_load Sample.blank_entity Sample.fall
            Session.font_missing Z Sample.congruential Sample.host).
  vm_compute; reflexivity.
Defined.

Lemma initialise_textures_match_witness :
  exists g h',
    initialise Sample.blank_entity Sample.fall Sample.every_file
      Sample.congruential Sample.host = Returns g h'
    /\ (exists font, Sample.every_file FONT_SPRITE_FILEPATH = Some font
          /\ In (g_text_texture_id g, font) (textures h'))
    /\ (forall j, (j < PLATFORM_COUNT)%nat ->
        let p := nth j (platforms (g_game_state g)) Sample.blank_entity in
        m_entity_type p <> PLAYER
        /\ exists image,
             Sample.every_file (platform_filepath (m_entity_type p))
             = Some image
             /\ In (m_texture_id p, image) (textures h')).
Proof.
  eexists. eexists. split; [vm_compute; reflexivity|].
  eapply (fun H => proj2 (initialise_textures_match Sample.blank_entity
            Sample.fall Sample.every_file Z Sample.congruential
            Sample.blank_entity Sample.host _ _ H)).
  vm_compute; reflexivity.
Defined.

Lemma initialise_start_state_witness :
  exists g h',
    initialise Sample.blank_entity Sample.fall Sample.every_file
      Sample.congruential Sample.host = Returns g h'
    /\ g_game_is_running g = true /\ g_win g = false /\ g_loss g = false
    /\ g_previous_ticks g = F32.zero /\ g_time_accumulator g = F32.zero
    /\ m_position (player (g_game_state g))
       = Vec3 F32.zero (F32.of_int 3) F32.zero.
Proof.
  eexists. eexists. split; [vm_compute; reflexivity|].
  refine
    (match initialise_start_state Sample.blank_entity Sample.fall
             Sample.every_file Z Sample.congruential Sample.host _ _ _ with
     | conj H1 (conj H2 (conj H3 (conj H4 (conj H5 (conj H6 _))))) =>
         conj H1 (conj H2 (conj H3 (conj H4 (conj H5 H6))))
     end).
  vm_compute; reflexivity.
Defined.

Lemma platforms_on_grid_witness :
  (forall lo hi r, lo <= hi -> lo <= fst (Sample.congruential lo hi r) <= hi)
  /\ exists g h',
       initialise Sample.blank_entity Sample.fall Sample.every_file
         Sample.congruential Sample.host = Returns g h'
       /\ forall j, (j < PLATFORM_COUNT)%nat ->
          exists y, -3 <= y <= 1
            /\ m_position (nth j (platforms (g_game_state g))
                             Sample.blank_entity)
               = Vec3 (F32.of_int (Z.of_nat j - 4)) (F32.of_int y) F32.zero.
Proof.
  assert (Hb : forall lo hi r, lo <= hi ->
                 lo <= fst (Sample.congruential lo hi r) <= hi).
  { intros lo hi r Hle. unfold Sample.congruential. cbn [fst].
    pose proof (Z.mod_pos_bound (r / 8) (hi - lo + 1)). lia. }
  split; [exact Hb|].
  eexists. eexists. split; [vm_compute; reflexivity|].
  eapply (platforms_on_grid Sample.blank_entity Sample.fall Sample.every_file
            Z Sample.congruential Sample.blank_entity Sample.host _ _ Hb).
  vm_compute; reflexivity.
Defined.

Lemma message_stays_on_screen_witness :
  g_win Sample.landed = true
  /\ exists frames g',
       play Sample.fall
           Sample.left_component Sample.right_component true 0 Session.inputs
           Sample.landed
       = Some (frames, g')
       /\ List.length frames = 3%nat
       /\ Forall (fun f => In (win_text true Sample.landed) f) frames.
Proof.
  split; [reflexivity|].
  eexists. eexists. split; [vm_compute; reflexivity|].
  split; [reflexivity|].
  eapply (fun H => proj1 (message_stays_on_screen Sample.fall
      Sample.left_component Sample.right_component true 0
            Session.inputs Sample.landed _ _ H) eq_refl).
  vm_compute; reflexivity.
Defined.

Lemma main_returns_only_after_quit_witness :
  exists frames g h',
    main Sample.blank_entity Sample.fall
        Sample.left_component Sample.right_component Sample.every_file
        Sample.congruential
      true 2 Session.inputs Sample.host = run_returned 0 frames g h'
    /\ existsb has_quit_event Session.inputs = true
    /\ List.length frames = frames_until_quit Session.inputs
    /\ (0 < List.length frames)%nat
    /\ g_game_is_running g = false.
Proof.
  eexists. eexists. eexists. split; [vm_compute; reflexivity|].
  eapply (fun H =>
    proj2 (proj1 (main_returns_only_after_quit Sample.blank_entity Sample.fall
        Sample.left_component Sample.right_component
             Sample.every_file Z Sample.congruential true 2 Session.inputs
             Sample.host _ _ _) 0 H)).
  vm_compute; reflexivity.
Defined.

Lemma game_loop_returns_witness :
  let g := Sample.with_accumulator (F32.literal 1 100) in
  let delta_time := F32.literal 5 100 in
  nonneg delta_time = true
  /\ nonneg (g_time_accumulator g) = true
  /\ F32.ltb (F32.add delta_time (g_time_accumulator g)) LONGEST_FRAME = true
  /\ exists fuel n g', forall extra,
       game_loop Sample.fall (fuel + extra) delta_time g = Some (n, g').
Proof.
  cbv zeta. repeat (split; [vm_compute; reflexivity|]).
  apply (game_loop_returns Sample.fall (F32.literal 5 100)
           (Sample.with_accumulator (F32.literal 1 100)));
    vm_compute; reflexivity.
Defined.

Lemma accumulator_invariant_along_run_witness :
  forallb nonneg Sample.uneven_frames = true
  /\ nonneg (g_time_accumulator Sample.globals) = true
  /\ F32.ltb (g_time_accumulator Sample.globals) FIXED_TIMESTEP = true
  /\ exists n g',
       game_loops Sample.fall 2 Sample.uneven_frames Sample.globals
       = Some (n, g')
       /\ nonneg (g_time_accumulator g') = true
       /\ F32.ltb (g_time_accumulator g') FIXED_TIMESTEP = true.
Proof.
  repeat (split; [vm_compute; reflexivity|]).
  eexists. eexists. split; [vm_compute; reflexivity|].
  eapply (accumulator_invariant_along_run Sample.fall 2 Sample.uneven_frames
            Sample.globals); vm_compute; reflexivity.
Defined.


Lemma update_records_ticks_witness :
  exists n g',
    update Sample.fall 2 33 Sample.globals = Some (n, g')
    /\ g_previous_ticks g'
       = F32.div (F32.of_int 33) MILLISECONDS_IN_SECOND
    /\ g_game_is_running g' = g_game_is_running Sample.globals.
Proof.
  eexists. eexists. split; [vm_compute; reflexivity|].
  refine
    (match update_records_ticks Sample.fall 2 33 Sample.globals _ _ _ with
     | conj H1 (conj H2 _) => conj H1 H2
     end).
  vm_compute; reflexivity.
Defined.
